(** * OrthoDSUHack: knee-rehabilitation telemetry pipeline

    A shallow embedding of the parts of the repository that the
    specification talks about:

    - the firmware sketch (orientation estimator, joint-angle derivation,
      Bluetooth command handler),
    - the host [SerialService] (connection life cycle, line parser),
    - the zod schema [arduinoDataSchema],
    - the dashboard's running session statistics.

    Device floats are IEEE-754 binary32 values ([spec_float] with
    precision 24 and maximal exponent 128): on the AVR target both [float]
    and [double] are 32 bits wide.  JavaScript numbers that are only
    tested and compared are binary64 values; the dashboard's running
    statistics are stated over exact rationals. *)

From Stdlib Require Import ZArith QArith Qminmax Qabs Bool List Ascii String Lia.
From Stdlib Require Import SpecFloat DecimalString DecimalZ.
Import ListNotations.

Local Open Scope Z_scope.

(* ================================================================= *)
(** ** Binary32 arithmetic of the microcontroller *)

Module Binary32.

Definition prec : Z := 24.
Definition emax : Z := 128.

Definition float := spec_float.

Definition add : float -> float -> float := SFadd prec emax.
Definition sub : float -> float -> float := SFsub prec emax.
Definition mul : float -> float -> float := SFmul prec emax.
Definition div : float -> float -> float := SFdiv prec emax.
Definition neg : float -> float := SFopp.

(** C comparison operators: every comparison with NaN is false. *)
Definition lt (x y : float) : bool := SFltb x y.
Definition le (x y : float) : bool := SFleb x y.
Definition gt (x y : float) : bool := SFltb y x.

(** Conversion of an integer operand (round to nearest, ties to even). *)
Definition of_int (z : Z) : float := binary_normalize prec emax z 0 false.

(** The binary32 value nearest to the decimal literal [n / d]. *)
Definition of_decimal (n d : positive) : float :=
  let '(q, e, l) := SFdiv_core_binary prec emax (Zpos n) 0 (Zpos d) 0 in
  binary_round_aux prec emax false q e l.

Definition isnan (x : float) : bool :=
  match x with S754_nan => true | _ => false end.

Definition is_finite (x : float) : bool :=
  match x with
  | S754_zero _ | S754_finite _ _ _ => true
  | S754_infinity _ | S754_nan => false
  end.

Definition zero : float := S754_zero false.

(** Arduino.h: [#define abs(x) ((x)>0?(x):-(x))]. *)
Definition c_abs (x : float) : float :=
  if gt x zero then x else neg x.

(** Arduino.h:
    [#define constrain(amt,low,high)
       ((amt)<(low)?(low):((amt)>(high)?(high):(amt)))]. *)
Definition constrain (amt low high : float) : float :=
  if lt amt low then low else if gt amt high then high else amt.

End Binary32.

(* ================================================================= *)
(** ** Character strings (bytes on the serial line) *)

Module Text.
Local Open Scope string_scope.

(** C [isspace]: blank, and the control characters 9 to 13. *)
Definition isspace (c : ascii) : bool :=
  let n := nat_of_ascii c in
  (Nat.eqb n 32 || (Nat.leb 9 n && Nat.leb n 13))%bool.

Definition isdigit (c : ascii) : bool :=
  let n := nat_of_ascii c in (Nat.leb 48 n && Nat.leb n 57)%bool.

Fixpoint trim_start (s : string) : string :=
  match s with
  | String c r => if isspace c then trim_start r else s
  | EmptyString => EmptyString
  end.

(** The string without its trailing white space. *)
Fixpoint trim_end (s : string) : string :=
  match s with
  | EmptyString => EmptyString
  | String c r =>
      match trim_end r with
      | EmptyString => if isspace c then EmptyString else String c EmptyString
      | r' => String c r'
      end
  end.

(** [String::trim()] of the Arduino core and [String.prototype.trim]
    of JavaScript on ASCII text. *)
Definition trim (s : string) : string := trim_end (trim_start s).

Definition no_space (s : string) : bool :=
  forallb (fun c => negb (isspace c)) (list_ascii_of_string s).

(** [s.startsWith(p)] *)
Definition startsWith (s p : string) : bool := String.prefix p s.

(** [s.substring(n)]: the characters from index [n] on. *)
Definition substring_from (n : nat) (s : string) : string :=
  String.substring n (String.length s - n) s.

(** [s.replace(p, '')] of JavaScript for a string pattern: the first
    occurrence of [p] is removed. *)
Definition replace_first_empty (p s : string) : string :=
  match String.index 0 p s with
  | Some i =>
      String.substring 0 i s ++ substring_from (i + String.length p) s
  | None => s
  end.

(** [s.split(c)] of JavaScript for a one-character separator. *)
Fixpoint split (sep : ascii) (s : string) : list string :=
  match s with
  | EmptyString => [EmptyString]
  | String c r =>
      if Ascii.eqb c sep then EmptyString :: split sep r
      else match split sep r with
           | h :: t => String c h :: t
           | [] => [String c EmptyString]
           end
  end.

(** Two's-complement wrap-around of a [w]-bit signed integer. *)
Definition wrap_signed (w : Z) (z : Z) : Z :=
  (z + 2 ^ (w - 1)) mod 2 ^ w - 2 ^ (w - 1).

Fixpoint digits_value (s : string) (acc : Z) : Z :=
  match s with
  | String c r =>
      if isdigit c
      then digits_value r (10 * acc + Z.of_nat (nat_of_ascii c - 48))
      else acc
  | EmptyString => acc
  end.

(** [atol]: optional white space, optional sign, decimal digits; the
    accumulation wraps around in a 32-bit [long]. *)
Definition atol (s : string) : Z :=
  match trim_start s with
  | String "-" r => wrap_signed 32 (- digits_value r 0)
  | String "+" r => wrap_signed 32 (digits_value r 0)
  | r => wrap_signed 32 (digits_value r 0)
  end.

(** [String::toInt()] assigned to an [int] (16 bits on the AVR). *)
Definition toInt (s : string) : Z := wrap_signed 16 (atol s).

(** The number a string of decimal digits stands for, read most
    significant digit first. *)
Fixpoint uint_value (d : Decimal.uint) (acc : Z) : Z :=
  match d with
  | Decimal.Nil => acc
  | Decimal.D0 d => uint_value d (10 * acc + 0)
  | Decimal.D1 d => uint_value d (10 * acc + 1)
  | Decimal.D2 d => uint_value d (10 * acc + 2)
  | Decimal.D3 d => uint_value d (10 * acc + 3)
  | Decimal.D4 d => uint_value d (10 * acc + 4)
  | Decimal.D5 d => uint_value d (10 * acc + 5)
  | Decimal.D6 d => uint_value d (10 * acc + 6)
  | Decimal.D7 d => uint_value d (10 * acc + 7)
  | Decimal.D8 d => uint_value d (10 * acc + 8)
  | Decimal.D9 d => uint_value d (10 * acc + 9)
  end.

(** [String(int)]: decimal digits, with a minus sign when negative. *)
Definition String_of_int (z : Z) : string :=
  DecimalString.NilZero.string_of_int (Z.to_int z).

End Text.

(* ================================================================= *)
(** ** The firmware sketch *)

Module Firmware.
Import Binary32.

(** Registers read from the MPU6050 ([int16_t] globals). *)
Record RawSample := {
  AcX : Z; AcY : Z; AcZ : Z; Tmp : Z; GyX : Z; GyY : Z; GyZ : Z
}.

(** Calibration offsets. *)
Record CalibrationOffsets := {
  AccErrorX : float; AccErrorY : float;
  GyroErrorX : float; GyroErrorY : float; GyroErrorZ : float
}.

(** The angle-calculation globals. *)
Record OrientationState := {
  roll : float; pitch : float; yaw : float;
  currentTime : float; previousTime : float; elapsedTime : float;
  accAngleX : float; accAngleY : float;
  gyroAngleX : float; gyroAngleY : float; gyroAngleZ : float
}.

(** [float alpha = 0.96;] *)
Definition alpha : float := of_decimal 96 100.

(** [PI] of Arduino.h, 3.1415926535897932384626433832795. *)
Definition PI : float :=
  of_decimal 31415926535897932384626433832795
             10000000000000000000000000000000.

(** [millis()] returns an [unsigned long] (32 bits). *)
Definition millis_value (ms : Z) : float := of_int (ms mod 2 ^ 32).

(** The value [elapsedTime] holds after the guard
    [if (elapsedTime <= 0) elapsedTime = 0.001;]. *)
Definition min_elapsed : float := of_decimal 1 1000.

Definition guard_elapsed (measured : float) : float :=
  if le measured zero then min_elapsed else measured.

Section Estimator.
(** libm functions used by the sketch. *)
Variables c_sqrt c_atan : float -> float.
Variable c_pow : float -> float -> float.

(** Accelerometer-only angle for the X axis, offset removed. *)
Definition accel_angle_x (accX accY accZ errX : float) : float :=
  let denomX := c_sqrt (add (c_pow accX (of_int 2)) (c_pow accZ (of_int 2))) in
  if gt denomX (of_decimal 1 100)
  then sub (div (mul (c_atan (div accY denomX)) (of_int 180)) PI) errX
  else of_int 0.

Definition accel_angle_y (accX accY accZ errY : float) : float :=
  let denomY := c_sqrt (add (c_pow accY (of_int 2)) (c_pow accZ (of_int 2))) in
  if gt denomY (of_decimal 1 100)
  then sub (div (mul (c_atan (div (mul (of_int (-1)) accX) denomY))
                     (of_int 180)) PI) errY
  else of_int 0.

Definition acc_g (reg : Z) : float := div (of_int reg) (of_int 16384).

(** Angular rate in degrees per second, offset removed. *)
Definition gyro_rate (reg : Z) (err : float) : float :=
  sub (div (of_int reg) (of_int 131)) err.

(** The complementary filter:
    [alpha * (prev + rate * elapsedTime) + (1 - alpha) * accAngle]. *)
Definition blend (prev rate dt accAngle : float) : float :=
  add (mul alpha (add prev (mul rate dt)))
      (mul (sub (of_int 1) alpha) accAngle).

Definition newRoll (raw : RawSample) (cal : CalibrationOffsets)
           (o : OrientationState) (dt : float) : float :=
  blend (roll o) (gyro_rate (GyX raw) (GyroErrorX cal)) dt
        (accel_angle_x (acc_g (AcX raw)) (acc_g (AcY raw)) (acc_g (AcZ raw))
                       (AccErrorX cal)).

Definition newPitch (raw : RawSample) (cal : CalibrationOffsets)
           (o : OrientationState) (dt : float) : float :=
  blend (pitch o) (gyro_rate (GyY raw) (GyroErrorY cal)) dt
        (accel_angle_y (acc_g (AcX raw)) (acc_g (AcY raw)) (acc_g (AcZ raw))
                       (AccErrorY cal)).

(** The body of [calculateAngles] once [elapsedTime] is fixed. *)
Definition fuse (raw : RawSample) (cal : CalibrationOffsets)
           (o : OrientationState) (now dt : float) : OrientationState :=
  let accX := acc_g (AcX raw) in
  let accY := acc_g (AcY raw) in
  let accZ := acc_g (AcZ raw) in
  let aX := accel_angle_x accX accY accZ (AccErrorX cal) in
  let aY := accel_angle_y accX accY accZ (AccErrorY cal) in
  let gyroX := gyro_rate (GyX raw) (GyroErrorX cal) in
  let gyroY := gyro_rate (GyY raw) (GyroErrorY cal) in
  let gyroZ := gyro_rate (GyZ raw) (GyroErrorZ cal) in
  let gAX := add (gyroAngleX o) (mul gyroX dt) in
  let gAY := add (gyroAngleY o) (mul gyroY dt) in
  let gAZ := add (gyroAngleZ o) (mul gyroZ dt) in
  let nR := newRoll raw cal o dt in
  let nP := newPitch raw cal o dt in
  let roll1 := if negb (isnan nR) then nR else roll o in
  let pitch1 := if negb (isnan nP) then nP else pitch o in
  let yaw1 := gAZ in
  let roll2 := if isnan roll1 then of_int 0 else roll1 in
  let pitch2 := if isnan pitch1 then of_int 0 else pitch1 in
  let yaw2 := if isnan yaw1 then of_int 0 else yaw1 in
  {| roll := constrain roll2 (of_int (-180)) (of_int 180);
     pitch := constrain pitch2 (of_int (-180)) (of_int 180);
     yaw := constrain yaw2 (of_int (-180)) (of_int 180);
     currentTime := now; previousTime := now; elapsedTime := dt;
     accAngleX := aX; accAngleY := aY;
     gyroAngleX := gAX; gyroAngleY := gAY; gyroAngleZ := gAZ |}.

(** The elapsed time as measured, before the guard. *)
Definition measured_elapsed (o : OrientationState) (ms : Z) : float :=
  div (sub (millis_value ms) (previousTime o)) (of_int 1000).

(** [void calculateAngles()]; [ms] is what [millis()] returns. *)
Definition calculateAngles (raw : RawSample) (cal : CalibrationOffsets)
           (o : OrientationState) (ms : Z) : OrientationState :=
  fuse raw cal o (millis_value ms) (guard_elapsed (measured_elapsed o ms)).

End Estimator.

(** [float getKneeAngle()], as a function of the globals it reads. *)
Definition getKneeAngle (exerciseType : Z) (roll pitch : float) : float :=
  let safeRoll := if isnan roll then of_int 0 else roll in
  let safePitch := if isnan pitch then of_int 0 else pitch in
  let kneeAngle :=
    match exerciseType with
    | 0 => sub (of_int 180) (c_abs safePitch)
    | 1 => c_abs safePitch
    | 2 => c_abs safeRoll
    | _ => c_abs safePitch
    end in
  let kneeAngle := constrain kneeAngle (of_int 0) (of_int 160) in
  if isnan kneeAngle then of_int 0 else kneeAngle.

(** The value handed to [constrain] in [getKneeAngle]. *)
Definition knee_raw (mode : Z) (r p : float) : float :=
  match mode with
  | 0 => sub (of_int 180) (c_abs p)
  | 1 => c_abs p
  | 2 => c_abs r
  | _ => c_abs p
  end.

(** The joint angle as the specification words it, in binary32
    arithmetic: 180 - |pitch|, |pitch| or |roll| by mode (any other mode
    as mode 1), clamped to [0, 160], and 0 in place of a result that is
    not finite.  [SFabs] clears the sign bit. *)
Definition spec_joint_angle (mode : Z) (roll pitch : float) : float :=
  let a :=
    match mode with
    | 0 => sub (of_int 180) (SFabs pitch)
    | 1 => SFabs pitch
    | 2 => SFabs roll
    | _ => SFabs pitch
    end in
  let c := if lt a (of_int 0) then of_int 0
           else if lt (of_int 160) a then of_int 160 else a in
  if is_finite c then c else of_int 0.

(** An angle of the orientation state is well formed when it is finite
    and lies in [-180, 180]. *)
Definition angle_ok (x : float) : bool :=
  is_finite x && le (of_int (-180)) x && le x (of_int 180).

Definition orientation_ok (o : OrientationState) : bool :=
  angle_ok (roll o) && angle_ok (pitch o) && angle_ok (yaw o).

(** *** Sensor access and calibration *)

(** [Wire.read() << 8 | Wire.read()] stored into an [int16_t]. *)
Definition word16 (hi lo : Z) : Z :=
  Text.wrap_signed 16 (Z.lor (Z.shiftl hi 8) lo).

(** [void readMPU6050()]: the fourteen bytes of one burst read. *)
Definition readMPU6050 (bytes : list Z) : RawSample :=
  let b i := nth i bytes 0 in
  {| AcX := word16 (b 0%nat) (b 1%nat); AcY := word16 (b 2%nat) (b 3%nat);
     AcZ := word16 (b 4%nat) (b 5%nat); Tmp := word16 (b 6%nat) (b 7%nat);
     GyX := word16 (b 8%nat) (b 9%nat); GyY := word16 (b 10%nat) (b 11%nat);
     GyZ := word16 (b 12%nat) (b 13%nat) |}.

Section Calibration.
Variables c_sqrt c_atan : float -> float.
Variable c_pow : float -> float -> float.

(** One round of the accelerometer loop of [calibrateMPU6050]. *)
Definition acc_error_step (e : float * float) (t : Z * Z * Z)
  : float * float :=
  let '(tempAcX, tempAcY, tempAcZ) := t in
  let acX := div (of_int tempAcX) (of_int 16384) in
  let acY := div (of_int tempAcY) (of_int 16384) in
  let acZ := div (of_int tempAcZ) (of_int 16384) in
  let denomX := c_sqrt (add (c_pow acX (of_int 2)) (c_pow acZ (of_int 2))) in
  let denomY := c_sqrt (add (c_pow acY (of_int 2)) (c_pow acZ (of_int 2))) in
  let eX := if gt denomX (of_decimal 1 100)
            then add (fst e)
                     (div (mul (c_atan (div acY denomX)) (of_int 180)) PI)
            else fst e in
  let eY := if gt denomY (of_decimal 1 100)
            then add (snd e)
                     (div (mul (c_atan (div (mul (of_int (-1)) acX) denomY))
                               (of_int 180)) PI)
            else snd e in
  (eX, eY).

(** One round of the gyroscope loop. *)
Definition gyro_error_step (e : float * float * float) (t : Z * Z * Z)
  : float * float * float :=
  let '(eX, eY, eZ) := e in
  let '(tempGyX, tempGyY, tempGyZ) := t in
  (add eX (div (of_int tempGyX) (of_int 131)),
   add eY (div (of_int tempGyY) (of_int 131)),
   add eZ (div (of_int tempGyZ) (of_int 131))).

(** [void calibrateMPU6050()]: [accReads c] and [gyroReads c] are the
    registers read in round [c] of the two loops.  The result is the
    new offsets and the lines written to the Bluetooth link. *)
Definition calibrateMPU6050 (accReads gyroReads : nat -> Z * Z * Z)
  : CalibrationOffsets * list string :=
  let '(aX, aY) :=
    fold_left acc_error_step (map accReads (seq 0 200))
              (of_int 0, of_int 0) in
  let '(gX, gY, gZ) :=
    fold_left gyro_error_step (map gyroReads (seq 0 200))
              (of_int 0, of_int 0, of_int 0) in
  ({| AccErrorX := div aX (of_int 200); AccErrorY := div aY (of_int 200);
      GyroErrorX := div gX (of_int 200); GyroErrorY := div gY (of_int 200);
      GyroErrorZ := div gZ (of_int 200) |},
   ["CALIBRATING"; "CALIBRATION_COMPLETE"]%string).
End Calibration.

(** *** Session tracking and the command handler *)

Record Device := {
  raw : RawSample;
  cal : CalibrationOffsets;
  orient : OrientationState;
  previousMillis : Z;
  sessionId : string;
  isRecording : bool;
  exerciseType : Z
}.

Definition set_session (d : Device) (id : string) (rec : bool) : Device :=
  {| raw := raw d; cal := cal d; orient := orient d;
     previousMillis := previousMillis d;
     sessionId := id; isRecording := rec; exerciseType := exerciseType d |}.

Definition set_exercise (d : Device) (t : Z) : Device :=
  {| raw := raw d; cal := cal d; orient := orient d;
     previousMillis := previousMillis d;
     sessionId := sessionId d; isRecording := isRecording d;
     exerciseType := t |}.

Definition set_cal (d : Device) (c : CalibrationOffsets) : Device :=
  {| raw := raw d; cal := c; orient := orient d;
     previousMillis := previousMillis d;
     sessionId := sessionId d; isRecording := isRecording d;
     exerciseType := exerciseType d |}.

Section Commands.
Variables c_sqrt c_atan : float -> float.
Variable c_pow : float -> float -> float.
(** What the sensor returns should a calibration run. *)
Variables accReads gyroReads : nat -> Z * Z * Z.

Local Open Scope string_scope.

(** [void handleBluetoothCommand(String command)]: the new globals and
    the lines printed on the Bluetooth link. *)
Definition handleBluetoothCommand (command : string) (d : Device)
  : Device * list string :=
  if Text.startsWith command "START_SESSION:" then
    let id := Text.substring_from 14 command in
    (set_session d id true, ["SESSION_STARTED:" ++ id])
  else if String.eqb command "STOP_SESSION" then
    (set_session d "" false, ["SESSION_STOPPED"])
  else if Text.startsWith command "SET_EXERCISE:" then
    let t := Text.toInt (Text.substring_from 13 command) in
    (set_exercise d t, ["EXERCISE_SET:" ++ Text.String_of_int t])
  else if String.eqb command "CALIBRATE" then
    let '(c, out) :=
      calibrateMPU6050 c_sqrt c_atan c_pow accReads gyroReads in
    (set_cal d c, out)
  else if String.eqb command "GET_STATUS" then
    (d, ["STATUS:" ++ (if isRecording d then "RECORDING" else "IDLE")
                    ++ ":" ++ sessionId d ++ ":"
                    ++ Text.String_of_int (exerciseType d)])
  else (d, []).
End Commands.

(** *** Telemetry and the main loop *)

(** The JSON document built by [sendKneeAngleData]; its text form is
    produced by ArduinoJson and sent after the tag [KNEE_DATA:]. *)
Record KneeDoc := {
  doc_sessionId : string; doc_timestamp : Z; doc_exerciseType : Z;
  doc_accelX : float; doc_accelY : float; doc_accelZ : float;
  doc_gyroX : float; doc_gyroY : float; doc_gyroZ : float;
  doc_roll : float; doc_pitch : float; doc_yaw : float;
  doc_kneeAngle : float; doc_temperature : float
}.

Inductive BtOut :=
| BtLine (line : string)
| BtKneeData (doc : KneeDoc).

Definition nan_to (dflt x : float) : float := if isnan x then dflt else x.

(** [void sendKneeAngleData()]; [ms] is what [millis()] returns. *)
Definition sendKneeAngleData (d : Device) (ms : Z) : KneeDoc :=
  let r := raw d in
  let c := cal d in
  let o := orient d in
  let temperature :=
    add (div (of_int (Tmp r)) (of_int 340)) (of_decimal 3653 100) in
  {| doc_sessionId := sessionId d;
     doc_timestamp := ms mod 2 ^ 32;
     doc_exerciseType := exerciseType d;
     doc_accelX := nan_to (of_int 0) (div (of_int (AcX r)) (of_int 16384));
     doc_accelY := nan_to (of_int 0) (div (of_int (AcY r)) (of_int 16384));
     doc_accelZ := nan_to (of_int 0) (div (of_int (AcZ r)) (of_int 16384));
     doc_gyroX := nan_to (of_int 0)
                    (sub (div (of_int (GyX r)) (of_int 131)) (GyroErrorX c));
     doc_gyroY := nan_to (of_int 0)
                    (sub (div (of_int (GyY r)) (of_int 131)) (GyroErrorY c));
     doc_gyroZ := nan_to (of_int 0)
                    (sub (div (of_int (GyZ r)) (of_int 131)) (GyroErrorZ c));
     doc_roll := nan_to (of_int 0) (roll o);
     doc_pitch := nan_to (of_int 0) (pitch o);
     doc_yaw := nan_to (of_int 0) (yaw o);
     doc_kneeAngle := getKneeAngle (exerciseType d) (roll o) (pitch o);
     doc_temperature := nan_to (of_int 25) temperature |}.

(** What one pass of [loop()] reads from its environment. *)
Record LoopInput := {
  incoming : option string;       (* [bluetooth.readString()], if available *)
  now_loop : Z;                   (* [millis()] in [loop] *)
  burst : list Z;                 (* the bytes read by [readMPU6050] *)
  now_calc : Z;                   (* [millis()] in [calculateAngles] *)
  now_send : Z;                   (* [millis()] in [sendKneeAngleData] *)
  accReads : nat -> Z * Z * Z;    (* calibration reads, should one run *)
  gyroReads : nat -> Z * Z * Z
}.

Section Loop.
Variables c_sqrt c_atan : float -> float.
Variable c_pow : float -> float -> float.

(** Sensor read followed by [calculateAngles]. *)
Definition estimator_tick (d : Device) (bytes : list Z) (ms : Z) : Device :=
  let r := readMPU6050 bytes in
  {| raw := r; cal := cal d;
     orient := calculateAngles c_sqrt c_atan c_pow r (cal d) (orient d) ms;
     previousMillis := previousMillis d;
     sessionId := sessionId d; isRecording := isRecording d;
     exerciseType := exerciseType d |}.

(** The globals after each of a series of ticks. *)
Fixpoint tick_states (d : Device) (inputs : list (list Z * Z))
  : list Device :=
  match inputs with
  | [] => []
  | (bytes, ms) :: rest =>
      let d' := estimator_tick d bytes ms in d' :: tick_states d' rest
  end.

Definition set_previousMillis (d : Device) (ms : Z) : Device :=
  {| raw := raw d; cal := cal d; orient := orient d;
     previousMillis := ms;
     sessionId := sessionId d; isRecording := isRecording d;
     exerciseType := exerciseType d |}.

(** [void loop()] *)
Definition loop (d : Device) (i : LoopInput) : Device * list BtOut :=
  let '(d1, out1) :=
    match incoming i with
    | Some command =>
        handleBluetoothCommand c_sqrt c_atan c_pow (accReads i) (gyroReads i)
                               (Text.trim command) d
    | None => (d, [])
    end in
  let currentMillis := now_loop i mod 2 ^ 32 in
  if 100 <=? (currentMillis - previousMillis d1) mod 2 ^ 32 then
    let d2 := estimator_tick (set_previousMillis d1 currentMillis)
                             (burst i) (now_calc i) in
    (d2, map BtLine out1 ++
         (if isRecording d2
          then [BtKneeData (sendKneeAngleData d2 (now_send i))]
          else []))
  else (d1, map BtLine out1).
(** The globals after each of a series of passes of [loop()]. *)
Fixpoint loop_states (d : Device) (inputs : list LoopInput) : list Device :=
  match inputs with
  | [] => []
  | i :: rest => let d' := fst (loop d i) in d' :: loop_states d' rest
  end.

(** [void setup()]: the globals start from zero, the sensor is calibrated
    and [SYSTEM_READY] is announced; [ms] is what [millis()] returns. *)
Definition setup (accReads gyroReads : nat -> Z * Z * Z) (ms : Z)
  : Device * list string :=
  let '(c, out) := calibrateMPU6050 c_sqrt c_atan c_pow accReads gyroReads in
  ({| raw := {| AcX := 0; AcY := 0; AcZ := 0; Tmp := 0;
                GyX := 0; GyY := 0; GyZ := 0 |};
      cal := c;
      orient := {| roll := of_int 0; pitch := of_int 0; yaw := of_int 0;
                   currentTime := of_int 0; previousTime := millis_value ms;
                   elapsedTime := of_int 0;
                   accAngleX := of_int 0; accAngleY := of_int 0;
                   gyroAngleX := of_int 0; gyroAngleY := of_int 0;
                   gyroAngleZ := of_int 0 |};
      previousMillis := 0;
      sessionId := EmptyString; isRecording := false; exerciseType := 0 |},
   out ++ ["SYSTEM_READY"%string]).
End Loop.

End Firmware.

(* ================================================================= *)
(** ** JSON values and the zod schema [arduinoDataSchema] *)

Module Schema.

(** A JavaScript number: an IEEE-754 binary64 value. *)
Definition number := spec_float.

Definition num_of_Z (z : Z) : number := binary_normalize 53 1024 z 0 false.

(** The values [JSON.parse] builds.  An object lists its properties,
    one entry per key. *)
#[warnings="-register-all"]
Inductive json :=
| JNull
| JBool (b : bool)
| JNum (x : number)
| JStr (s : string)
| JArr (items : list json)
| JObj (fields : list (string * json)).

(** Property access: [None] stands for [undefined]. *)
Fixpoint get (key : string) (fields : list (string * json)) : option json :=
  match fields with
  | [] => None
  | (k, v) :: rest => if String.eqb k key then Some v else get key rest
  end.

Record RawSensorData := {
  accelX : number; accelY : number; accelZ : number;
  gyroX : number; gyroY : number; gyroZ : number
}.

Record Angles := { roll : number; pitch : number; yaw : number }.

Record ArduinoData := {
  sessionId : string;
  timestamp : number;
  exerciseType : number;
  rawSensorData : RawSensorData;
  angles : Angles;
  kneeAngle : number;
  temperature : number
}.

(** [z.string()] *)
Definition z_string (v : option json) : option string :=
  match v with Some (JStr s) => Some s | _ => None end.

(** [z.number()]: a number other than NaN. *)
Definition z_number (v : option json) : option number :=
  match v with
  | Some (JNum S754_nan) => None
  | Some (JNum x) => Some x
  | _ => None
  end.

(** [Number.isInteger] *)
Definition isInteger (x : number) : bool :=
  match x with
  | S754_zero _ => true
  | S754_finite _ m e =>
      if 0 <=? e then true else (Zpos m mod 2 ^ (- e) =? 0)
  | _ => false
  end.

(** [z.number().int().min(0).max(2)] *)
Definition z_exerciseType (v : option json) : option number :=
  match z_number v with
  | Some x =>
      if isInteger x && negb (SFltb x (num_of_Z 0))
         && negb (SFltb (num_of_Z 2) x)
      then Some x else None
  | None => None
  end.

Definition bind {A B} (o : option A) (f : A -> option B) : option B :=
  match o with Some a => f a | None => None end.

Notation "x <- e ;; k" := (bind e (fun x => k))
  (at level 61, e at next level, right associativity).

(** [z.object({...})]: the input has to be an object; keys that the
    schema does not name are dropped. *)
Definition z_rawSensorData (v : option json) : option RawSensorData :=
  match v with
  | Some (JObj f) =>
      ax <- z_number (get "accelX" f) ;;
      ay <- z_number (get "accelY" f) ;;
      az <- z_number (get "accelZ" f) ;;
      gx <- z_number (get "gyroX" f) ;;
      gy <- z_number (get "gyroY" f) ;;
      gz <- z_number (get "gyroZ" f) ;;
      Some {| accelX := ax; accelY := ay; accelZ := az;
              gyroX := gx; gyroY := gy; gyroZ := gz |}
  | _ => None
  end.

Definition z_angles (v : option json) : option Angles :=
  match v with
  | Some (JObj f) =>
      r <- z_number (get "roll" f) ;;
      p <- z_number (get "pitch" f) ;;
      y <- z_number (get "yaw" f) ;;
      Some {| roll := r; pitch := p; yaw := y |}
  | _ => None
  end.

(** [arduinoDataSchema.parse(v)]; [None] stands for a thrown
    [ZodError]. *)
Definition arduinoDataSchema_parse (v : json) : option ArduinoData :=
  match v with
  | JObj f =>
      sid <- z_string (get "sessionId" f) ;;
      ts <- z_number (get "timestamp" f) ;;
      et <- z_exerciseType (get "exerciseType" f) ;;
      rsd <- z_rawSensorData (get "rawSensorData" f) ;;
      ang <- z_angles (get "angles" f) ;;
      ka <- z_number (get "kneeAngle" f) ;;
      tmp <- z_number (get "temperature" f) ;;
      Some {| sessionId := sid; timestamp := ts; exerciseType := et;
              rawSensorData := rsd; angles := ang;
              kneeAngle := ka; temperature := tmp |}
  | _ => None
  end.

End Schema.

(* ================================================================= *)
(** ** The host's [SerialService] *)

Module SerialService.
Import Schema.
Local Open Scope string_scope.

(** Events emitted by the service (it is an [EventEmitter]). *)
Inductive Event :=
| Connected (path : string)
| Disconnected
| ErrorEvent
| KneeData (data : ArduinoData)
| SessionStarted (sessionId : string)
| SessionStopped
| CalibrationComplete
| SystemReady
| Status (recording : bool) (sessionId : string) (exerciseType : number)
| Message (data : string)
| ParseError (rawData : string).

(** What handling a line does: emit an event, or hand a reading to
    [storeSensorReading]. *)
Inductive Effect :=
| Emit (e : Event)
| StoreSensorReading (data : ArduinoData).

(** A statement either completes or throws. *)
Inductive Completion (A : Type) :=
| Normal (a : A)
| Throws.
Arguments Normal {A} a.
Arguments Throws {A}.

(** [try { body } catch (error) { handler }] *)
Definition try_catch {A} (body handler : Completion A) : Completion A :=
  match body with
  | Normal a => Normal a
  | Throws => handler
  end.

(** [x || 0] on a number: NaN and the zeros are falsy. *)
Definition or_zero (x : number) : number :=
  match x with
  | S754_nan | S754_zero _ => num_of_Z 0
  | _ => x
  end.

Section Parser.
(** [JSON.parse]: [None] stands for a thrown [SyntaxError]. *)
Variable JSON_parse : string -> option json.
(** [parseInt], applied to a string or to [undefined]. *)
Variable parseInt : option string -> number.

(** The [try] block of [handleArduinoData]. *)
Definition classify (data : string) : Completion (list Effect) :=
  if Text.startsWith data "KNEE_DATA:" then
    let jsonData := Text.replace_first_empty "KNEE_DATA:" data in
    match JSON_parse jsonData with
    | None => Throws
    | Some parsedData =>
        match arduinoDataSchema_parse parsedData with
        | None => Throws
        | Some validatedData =>
            Normal [Emit (KneeData validatedData);
                    StoreSensorReading validatedData]
        end
    end
  else if Text.startsWith data "SESSION_STARTED:" then
    Normal [Emit (SessionStarted
                    (Text.replace_first_empty "SESSION_STARTED:" data))]
  else if String.eqb data "SESSION_STOPPED" then
    Normal [Emit SessionStopped]
  else if String.eqb data "CALIBRATION_COMPLETE" then
    Normal [Emit CalibrationComplete]
  else if String.eqb data "SYSTEM_READY" then
    Normal [Emit SystemReady]
  else if Text.startsWith data "STATUS:" then
    let statusParts :=
      Text.split ":" (Text.replace_first_empty "STATUS:" data) in
    Normal [Emit (Status (String.eqb (nth 0 statusParts "") "RECORDING")
                         (nth 1 statusParts "")
                         (or_zero (parseInt (nth_error statusParts 2))))]
  else
    Normal [Emit (Message data)].

(** The line carries one of the tags that [handleArduinoData] tests
    for. *)
Definition recognized (data : string) : bool :=
  Text.startsWith data "KNEE_DATA:"
  || Text.startsWith data "SESSION_STARTED:"
  || String.eqb data "SESSION_STOPPED"
  || String.eqb data "CALIBRATION_COMPLETE"
  || String.eqb data "SYSTEM_READY"
  || Text.startsWith data "STATUS:".

(** [private handleArduinoData(data: string): void] *)
Definition handleArduinoData (data : string) : Completion (list Effect) :=
  try_catch (classify data) (Normal [Emit (ParseError data)]).

(** The parser's ['data'] listener:
    [this.handleArduinoData(data.toString().trim())]. *)
Definition on_data (line : string) : Completion (list Effect) :=
  handleArduinoData (Text.trim line).

(** The lines of a stream, one after the other; a throw would end the
    processing. *)
Fixpoint on_lines (lines : list string) : Completion (list Effect) :=
  match lines with
  | [] => Normal []
  | l :: rest =>
      match on_data l with
      | Normal e1 =>
          match on_lines rest with
          | Normal e2 => Normal (e1 ++ e2)%list
          | Throws => Throws
          end
      | Throws => Throws
      end
  end.
End Parser.

(** *** Connection life cycle *)

(** A row of the storage's port registry ([MemStorage.serialPorts],
    in insertion order). *)
Record SerialPortRow := { sp_path : string; sp_isActive : bool }.

(** [createOrUpdateSerialPort({ path, isActive: true, ... })] *)
Fixpoint createOrUpdateSerialPort (path : string) (rows : list SerialPortRow)
  : list SerialPortRow :=
  match rows with
  | [] => [{| sp_path := path; sp_isActive := true |}]
  | r :: rest =>
      if String.eqb (sp_path r) path
      then {| sp_path := sp_path r; sp_isActive := true |} :: rest
      else r :: createOrUpdateSerialPort path rest
  end.

Fixpoint activate_first (path : string) (rows : list SerialPortRow)
  : list SerialPortRow :=
  match rows with
  | [] => []
  | r :: rest =>
      if String.eqb (sp_path r) path
      then {| sp_path := sp_path r; sp_isActive := true |} :: rest
      else r :: activate_first path rest
  end.

(** [setActiveSerialPort(path)] *)
Definition setActiveSerialPort (path : string) (rows : list SerialPortRow)
  : list SerialPortRow :=
  activate_first path
    (map (fun r => {| sp_path := sp_path r; sp_isActive := false |}) rows).

(** The service object together with what it acts on: the serial
    handles that are open at the moment ([live]), the events emitted so
    far (oldest first) and the port registry.  A handle is named by the
    order in which [new SerialPort] created it; [parser] is set and
    cleared together with [port]. *)
Record State := {
  port : option nat;
  isConnected : bool;
  currentPortPath : option string;
  next_handle : nat;
  live : list nat;
  emitted : list Event;
  serialPorts : list SerialPortRow
}.

Definition initial : State :=
  {| port := None; isConnected := false; currentPortPath := None;
     next_handle := 0; live := []; emitted := []; serialPorts := [] |}.

(** [port.isOpen] *)
Definition isOpen (h : nat) (st : State) : bool := existsb (Nat.eqb h) (live st).

(** The ['open'] listener that [connect(portPath)] puts on handle [h]. *)
Definition on_open (h : nat) (portPath : string) (st : State) : State :=
  {| port := port st;
     isConnected := true;
     currentPortPath := Some portPath;
     next_handle := next_handle st;
     live := h :: live st;
     emitted := emitted st ++ [Connected portPath];
     serialPorts :=
       setActiveSerialPort portPath
         (createOrUpdateSerialPort portPath (serialPorts st)) |}.

(** The ['error'] listener ([registerRoutes] listens to the service's
    own ['error'] event, so emitting it does not throw). *)
Definition on_error (st : State) : State :=
  {| port := port st; isConnected := isConnected st;
     currentPortPath := currentPortPath st;
     next_handle := next_handle st; live := live st;
     emitted := emitted st ++ [ErrorEvent];
     serialPorts := serialPorts st |}.

(** The ['close'] listener, run when handle [h] closes. *)
Definition on_close (h : nat) (st : State) : State :=
  {| port := port st; isConnected := false; currentPortPath := None;
     next_handle := next_handle st;
     live := filter (fun h' => negb (Nat.eqb h h')) (live st);
     emitted := emitted st ++ [Disconnected];
     serialPorts := serialPorts st |}.

Definition clear_port (st : State) : State :=
  {| port := None; isConnected := false; currentPortPath := None;
     next_handle := next_handle st; live := live st;
     emitted := emitted st; serialPorts := serialPorts st |}.

(** [async disconnect()]: an open port is closed (its ['close']
    listener runs, then the callback of [close]); the fields are
    cleared either way. *)
Definition disconnect (st : State) : State :=
  match port st with
  | Some h => if isOpen h st then clear_port (on_close h st)
              else clear_port st
  | None => clear_port st
  end.

(** [async connect(portPath)] up to the point where it waits for the
    link: a live connection is disconnected first, then
    [new SerialPort] creates the next handle. *)
Definition connect_begin (st : State) : State * nat :=
  let st1 := if isConnected st then disconnect st else st in
  let h := next_handle st1 in
  ({| port := Some h; isConnected := isConnected st1;
      currentPortPath := currentPortPath st1;
      next_handle := S h; live := live st1;
      emitted := emitted st1; serialPorts := serialPorts st1 |}, h).

(** Calls of the service and link events between them, each run to
    completion before the next one starts.  A [Connect] carries what the
    link answers: it opens, or it reports an error. *)
Inductive Call :=
| Connect (portPath : string) (opens : bool)
| Disconnect
| LinkClosed      (* the open port closes on its own *)
| LinkError.      (* the open port reports an error *)

Definition call (st : State) (c : Call) : State :=
  match c with
  | Connect portPath true =>
      let '(st1, h) := connect_begin st in on_open h portPath st1
  | Connect portPath false =>
      let '(st1, h) := connect_begin st in on_error st1
  | Disconnect => disconnect st
  | LinkClosed =>
      match port st with
      | Some h => if isOpen h st then on_close h st else st
      | None => st
      end
  | LinkError =>
      match port st with
      | Some h => if isOpen h st then on_error st else st
      | None => st
      end
  end.

Definition run (calls : list Call) : State := fold_left call calls initial.


Definition is_connected_event (e : Event) : bool :=
  match e with Connected _ => true | _ => false end.

(** The open handles are exactly the one the service is connected
    through, if any. *)
Definition consistent (st : State) : Prop :=
  match isConnected st, port st with
  | true, Some h => live st = [h]
  | true, None => False
  | false, _ => live st = []
  end.


(** *** Promises *)

Inductive Promise (A : Type) :=
| Pending
| Resolved (a : A)
| Rejected.
Arguments Pending {A}.
Arguments Resolved {A} a.
Arguments Rejected {A}.

Definition settled {A} (p : Promise A) : bool :=
  match p with Pending => false | _ => true end.

(** What may happen while [connect] waits on its new handle. *)
Inductive LinkEvent :=
| Opened                      (* the port emits ['open'] *)
| Errored                     (* the port emits ['error'] *)
| ClosedEvent                 (* the port emits ['close'] *)
| Data (line : string)        (* the parser emits ['data'] *)
| TimePasses (ms : Z).        (* nothing happens for [ms] milliseconds *)

Definition emit_all (es : list Effect) (st : State) : State :=
  {| port := port st; isConnected := isConnected st;
     currentPortPath := currentPortPath st;
     next_handle := next_handle st; live := live st;
     emitted := emitted st
                ++ flat_map (fun x => match x with
                                      | Emit e => [e]
                                      | StoreSensorReading _ => []
                                      end) es;
     serialPorts := serialPorts st |}.

Section Waiting.
Variable JSON_parse : string -> option json.
Variable parseInt : option string -> number.

(** The listeners installed by [connect(portPath)] on handle [h] and
    the promise it returned: ['open'] resolves it with [true],
    ['error'] rejects it, nothing else touches it. *)
Definition connect_step (h : nat) (portPath : string)
           (sp : State * Promise bool) (e : LinkEvent)
  : State * Promise bool :=
  let '(st, p) := sp in
  match e with
  | Opened =>
      (on_open h portPath st,
       match p with Pending => Resolved true | _ => p end)
  | Errored =>
      (on_error st, match p with Pending => Rejected | _ => p end)
  | ClosedEvent => (on_close h st, p)
  | Data line =>
      (match on_data JSON_parse parseInt line with
       | Normal es => emit_all es st
       | Throws => st
       end, p)
  | TimePasses _ => (st, p)
  end.

(** [connect(portPath)] followed by the given link events. *)
Definition connect_then (st : State) (portPath : string)
           (events : list LinkEvent) : State * Promise bool :=
  let '(st1, h) := connect_begin st in
  fold_left (connect_step h portPath) events (st1, Pending).
End Waiting.

Definition elapsed (events : list LinkEvent) : Z :=
  fold_right (fun e acc => match e with TimePasses ms => ms + acc | _ => acc end)
             0 events.

Definition settles (e : LinkEvent) : bool :=
  match e with Opened | Errored => true | _ => false end.

(** What the first settling event makes of the promise of [connect]. *)
Definition connect_outcome (events : list LinkEvent) : Promise bool :=
  match find settles events with
  | Some Opened => Resolved true
  | Some Errored => Rejected
  | _ => Pending
  end.

(** [async sendCommand(command)]: the promise right after the call and
    the bytes handed to [port.write]. *)
Definition sendCommand_begin (st : State) (command : string)
  : Promise bool * option string :=
  match port st with
  | Some _ =>
      if isConnected st
      then (Pending, Some (command ++ String "010" ""))
      else (Resolved false, None)
  | None => (Resolved false, None)
  end.

(** The callback of [port.write] resolves the promise. *)
Definition write_callback (p : Promise bool) (error : bool) : Promise bool :=
  match p with Pending => Resolved (negb error) | _ => p end.

(** [sendCommand] when the write callback comes with [error]. *)
Definition sendCommand (st : State) (command : string) (error : bool)
  : Promise bool * option string :=
  let '(p, w) := sendCommand_begin st command in (write_callback p error, w).

Definition setExerciseType (st : State) (type : string) :=
  sendCommand st ("SET_EXERCISE:" ++ type).
Definition getStatus (st : State) := sendCommand st "GET_STATUS".

End SerialService.

(* ================================================================= *)
(** ** The HTTP routes that drive the device *)

Module Routes.
Import SerialService.
Local Open Scope string_scope.

Record Response := { status : Z; message : string }.


End Routes.

(* ================================================================= *)
(** ** The analytics forwarder [N8nService] *)

Module N8nService.
Import SerialService.

(** What may happen to the [fetch] that [sendSensorData] awaits. *)
Inductive FetchEvent :=
| ResponseOk                  (* a response with [response.ok] and a JSON body *)
| ResponseNotOk               (* a response without [response.ok] *)
| FetchFails                  (* [fetch] rejects *)
| FetchTimePasses (ms : Z).   (* nothing happens for [ms] milliseconds *)

(** [this.emit('error', ...)] throws when no listener is registered for
    ['error']; [errorListener] tells whether one is ([registerRoutes]
    registers none on this service).  In [sendSensorData] the throw of
    the [try] block lands in the [catch] block, whose own [emit] then
    makes the returned promise reject. *)
Definition after_error_emit (errorListener : bool) : Promise unit :=
  if errorListener then Resolved tt else Rejected.

(** [sendSensorData]: the [isConnected] flag and the returned promise.
    The call passes no timeout and no abort signal to [fetch]. *)
Definition sendSensorData_step (errorListener : bool)
           (s : bool * Promise unit) (e : FetchEvent) : bool * Promise unit :=
  let '(isConnected, p) := s in
  match p, e with
  | Pending, ResponseOk => (true, Resolved tt)
  | Pending, ResponseNotOk => (false, after_error_emit errorListener)
  | Pending, FetchFails => (false, after_error_emit errorListener)
  | _, _ => s
  end.

Definition sendSensorData (errorListener isConnected : bool)
           (events : list FetchEvent) : bool * Promise unit :=
  fold_left (sendSensorData_step errorListener) events (isConnected, Pending).

Definition answers (e : FetchEvent) : bool :=
  match e with FetchTimePasses _ => false | _ => true end.

End N8nService.

(* ================================================================= *)
(** ** The dashboard's session statistics *)

Module Dashboard.
Local Open Scope Q_scope.

(** The fields of a telemetry frame that the page reads.  Numbers are
    exact rationals here. *)
Record Frame := { sessionId : string; kneeAngle : Q }.

Record SessionStats := {
  duration : Z;
  readingCount : Z;
  maxAngle : Q;
  avgAngle : Q;
  qualityScore : option Q
}.

(** The React state of the page. *)
Record State := {
  isConnected : bool;
  n8nConnected : bool;
  latestData : option Frame;
  currentSessionId : option string;
  sessionStartTime : option Z;
  sessionStats : option SessionStats
}.

Inductive WsMessage :=
| MsgStatus (arduino n8n : bool)
| MsgArduinoConnected
| MsgArduinoDisconnected
| MsgKneeData (data : Frame)
| MsgSessionStarted (sessionId : string)
| MsgSessionStopped
| MsgError
| MsgOther.

Definition zero_stats : SessionStats :=
  {| duration := 0; readingCount := 0; maxAngle := 0; avgAngle := 0;
     qualityScore := None |}.

(** The function passed to [setSessionStats] by [updateSessionStats]. *)
Definition next_stats (now start : Z) (data : Frame) (prev : SessionStats)
  : SessionStats :=
  let readingCount' := (readingCount prev + 1)%Z in
  let targetRange := 90 in
  let angleScore := Qmax 0 (10 - Qabs (kneeAngle data - targetRange) / 10) in
  {| duration := (now - start)%Z;
     readingCount := readingCount';
     maxAngle := Qmax (maxAngle prev) (kneeAngle data);
     avgAngle := (avgAngle prev * inject_Z (readingCount prev) + kneeAngle data)
                 / inject_Z readingCount';
     qualityScore :=
       Some (Qmin 10 ((angleScore
                       + match qualityScore prev with
                         | Some q => q
                         | None => 0
                         end) / 2)) |}.

(** [updateSessionStats(data)]; [now] is [Date.now()]. *)
Definition updateSessionStats (now : Z) (data : Frame) (st : State)
  : option SessionStats :=
  match sessionStartTime st with
  | None => sessionStats st
  | Some start =>
      if (start =? 0)%Z then sessionStats st
      else match sessionStats st with
           | None => None
           | Some prev => Some (next_stats now start data prev)
           end
  end.

(** The effect run on every WebSocket message. *)
Definition on_message (now : Z) (msg : WsMessage) (st : State) : State :=
  match msg with
  | MsgStatus a n =>
      {| isConnected := a; n8nConnected := n; latestData := latestData st;
         currentSessionId := currentSessionId st;
         sessionStartTime := sessionStartTime st;
         sessionStats := sessionStats st |}
  | MsgArduinoConnected =>
      {| isConnected := true; n8nConnected := n8nConnected st;
         latestData := latestData st;
         currentSessionId := currentSessionId st;
         sessionStartTime := sessionStartTime st;
         sessionStats := sessionStats st |}
  | MsgArduinoDisconnected =>
      {| isConnected := false; n8nConnected := n8nConnected st;
         latestData := None;
         currentSessionId := currentSessionId st;
         sessionStartTime := sessionStartTime st;
         sessionStats := sessionStats st |}
  | MsgKneeData data =>
      {| isConnected := isConnected st; n8nConnected := n8nConnected st;
         latestData := Some data;
         currentSessionId := currentSessionId st;
         sessionStartTime := sessionStartTime st;
         sessionStats := updateSessionStats now data st |}
  | MsgSessionStarted id =>
      {| isConnected := isConnected st; n8nConnected := n8nConnected st;
         latestData := latestData st;
         currentSessionId := Some id;
         sessionStartTime := Some now;
         sessionStats := Some zero_stats |}
  | MsgSessionStopped =>
      {| isConnected := isConnected st; n8nConnected := n8nConnected st;
         latestData := latestData st;
         currentSessionId := None;
         sessionStartTime := None;
         sessionStats := None |}
  | MsgError | MsgOther => st
  end.


Definition angles (frames : list (Z * Frame)) : list Q :=
  map (fun nf => kneeAngle (snd nf)) frames.

(** The page after a [session_started] message at time [start] and then
    one [knee_data] message per frame (each with the time it is
    handled at). *)
Definition session_of (start : Z) (id : string) (frames : list (Z * Frame))
           (st0 : State) : State :=
  fold_left (fun st nf => on_message (fst nf) (MsgKneeData (snd nf)) st)
            frames (on_message start (MsgSessionStarted id) st0).

Definition initial : State :=
  {| isConnected := false; n8nConnected := false; latestData := None;
     currentSessionId := None; sessionStartTime := None;
     sessionStats := None |}.




End Dashboard.

(* ================================================================= *)
(** ** Concrete inputs used to run the model *)

Module Samples.
Import Binary32 Firmware.

(** Stand-ins for libm, to evaluate the estimator on concrete inputs:
    a correctly rounded square root, [pow(x, 2)] as a product, and the
    first-order term of the arctangent.  Theorems quantify over libm. *)
Definition c_sqrt : float -> float := SFsqrt prec emax.
Definition c_pow (x y : float) : float := mul x x.
Definition c_atan (x : float) : float := x.

Definition level_burst : list Z :=
  [0; 0; 0; 0; 64; 0; 0; 0; 0; 0; 0; 0; 0; 0].

Definition orient0 : OrientationState :=
  {| roll := of_int 10; pitch := of_int (-20); yaw := of_int 5;
     currentTime := of_int 500; previousTime := of_int 500;
     elapsedTime := of_decimal 1 10;
     accAngleX := of_int 0; accAngleY := of_int 0;
     gyroAngleX := of_int 0; gyroAngleY := of_int 0; gyroAngleZ := of_int 5 |}.

Definition cal0 : CalibrationOffsets :=
  {| AccErrorX := of_int 0; AccErrorY := of_int 0;
     GyroErrorX := of_int 0; GyroErrorY := of_int 0; GyroErrorZ := of_int 0 |}.

(** Offsets that are not numbers: the filter blend is NaN with them. *)
Definition cal_nan : CalibrationOffsets :=
  {| AccErrorX := S754_nan; AccErrorY := S754_nan;
     GyroErrorX := S754_nan; GyroErrorY := S754_nan; GyroErrorZ := S754_nan |}.

Definition device (c : CalibrationOffsets) (id : string) (rec : bool)
  : Device :=
  {| raw := readMPU6050 level_burst; cal := c; orient := orient0;
     previousMillis := 400; sessionId := id; isRecording := rec;
     exerciseType := 0 |}.

(** Stand-ins for [JSON.parse] and [parseInt]: the first knows two
    payloads, a complete frame and one with fields missing; the second
    reads leading decimal digits. *)
Definition dq : string := String (ascii_of_nat 34) EmptyString.
Definition member (k v : string) : string := dq ++ k ++ dq ++ ":" ++ v.

Definition short_payload : string :=
  "{" ++ member "sessionId" (dq ++ "s1" ++ dq) ++ ","
      ++ member "timestamp" "1200" ++ "}".

Definition full_payload : string :=
  "{" ++ member "sessionId" (dq ++ "s1" ++ dq) ++ ","
      ++ member "timestamp" "1300" ++ ","
      ++ member "exerciseType" "2" ++ ","
      ++ member "rawSensorData"
           ("{" ++ member "accelX" "0" ++ "," ++ member "accelY" "0" ++ ","
                ++ member "accelZ" "1" ++ "," ++ member "gyroX" "0" ++ ","
                ++ member "gyroY" "0" ++ "," ++ member "gyroZ" "0" ++ "}")
      ++ ","
      ++ member "angles"
           ("{" ++ member "roll" "30" ++ "," ++ member "pitch" "0" ++ ","
                ++ member "yaw" "0" ++ "}")
      ++ ","
      ++ member "kneeAngle" "30" ++ "," ++ member "temperature" "36" ++ "}".

Definition jnum (z : Z) : Schema.json := Schema.JNum (Schema.num_of_Z z).

Definition JSON_parse (text : string) : option Schema.json :=
  if String.eqb text short_payload then
    Some (Schema.JObj [("sessionId"%string, Schema.JStr "s1");
                       ("timestamp"%string, jnum 1200)])
  else if String.eqb text full_payload then
    Some (Schema.JObj
            [("sessionId"%string, Schema.JStr "s1");
             ("timestamp"%string, jnum 1300);
             ("exerciseType"%string, jnum 2);
             ("rawSensorData"%string,
              Schema.JObj [("accelX"%string, jnum 0); ("accelY"%string, jnum 0);
                           ("accelZ"%string, jnum 1); ("gyroX"%string, jnum 0);
                           ("gyroY"%string, jnum 0); ("gyroZ"%string, jnum 0)]);
             ("angles"%string,
              Schema.JObj [("roll"%string, jnum 30); ("pitch"%string, jnum 0);
                           ("yaw"%string, jnum 0)]);
             ("kneeAngle"%string, jnum 30);
             ("temperature"%string, jnum 36)])
  else None.

Definition parseInt (s : option string) : Schema.number :=
  match s with
  | Some (String c r) =>
      if Text.isdigit c then Schema.num_of_Z (Text.digits_value (String c r) 0)
      else S754_nan
  | _ => S754_nan
  end.

Definition full_frame : Schema.ArduinoData :=
  {| Schema.sessionId := "s1";
     Schema.timestamp := Schema.num_of_Z 1300;
     Schema.exerciseType := Schema.num_of_Z 2;
     Schema.rawSensorData :=
       {| Schema.accelX := Schema.num_of_Z 0; Schema.accelY := Schema.num_of_Z 0;
          Schema.accelZ := Schema.num_of_Z 1; Schema.gyroX := Schema.num_of_Z 0;
          Schema.gyroY := Schema.num_of_Z 0; Schema.gyroZ := Schema.num_of_Z 0 |};
     Schema.angles :=
       {| Schema.roll := Schema.num_of_Z 30; Schema.pitch := Schema.num_of_Z 0;
          Schema.yaw := Schema.num_of_Z 0 |};
     Schema.kneeAngle := Schema.num_of_Z 30;
     Schema.temperature := Schema.num_of_Z 36 |}.

(** The host service once it is connected. *)
Definition connected_service : SerialService.State :=
  SerialService.run [SerialService.Connect "/dev/rfcomm0" true].

(** Calibration reads of a sensor lying flat and still. *)
Definition still_acc (c : nat) : Z * Z * Z := (0, 0, 16384).
Definition still_gyro (c : nat) : Z * Z * Z := (0, 0, 0).

End Samples.

From Stdlib Require Import Sorted Permutation.

(* ================================================================= *)
(** ** Lines on the serial link *)

Module Wire.
Local Open Scope string_scope.

Definition CR : ascii := "013".
Definition LF : ascii := "010".

(** [Print::println(s)]: the text, a carriage return and a line feed. *)
Definition println (s : string) : string := s ++ String CR (String LF "").

(** The bytes the device puts on the link for the lines it prints. *)
Definition transmit (lines : list string) : string :=
  fold_right (fun l rest => println l ++ rest) "" lines.

(** [s.indexOf(c) !== -1] *)
Fixpoint contains (c : ascii) (s : string) : bool :=
  match s with
  | EmptyString => false
  | String a r => Ascii.eqb a c || contains c r
  end.

(** [new ReadlineParser({ delimiter: '\n' })] fed one chunk: the lines
    it emits (without the delimiter) and the text it keeps for the next
    chunk. *)
Definition readline (buffer chunk : string) : list string * string :=
  let parts := Text.split LF (buffer ++ chunk) in
  (removelast parts, last parts "").

(** The parser fed a series of chunks, from the given buffer on. *)
Fixpoint feed (buffer : string) (chunks : list string)
  : list string * string :=
  match chunks with
  | [] => ([], buffer)
  | chunk :: rest =>
      let '(lines, buffer') := readline buffer chunk in
      let '(lines', buffer'') := feed buffer' rest in
      ((lines ++ lines')%list, buffer'')
  end.

(** The text begins, after white space, like a number: with a digit or
    a sign. *)
Definition starts_number (s : string) : bool :=
  match Text.trim_start s with
  | String c _ => Text.isdigit c || Ascii.eqb c "-" || Ascii.eqb c "+"
  | EmptyString => false
  end.

(** The characters of a printed integer: digits and the minus sign. *)
Definition int_char (c : ascii) : bool := Text.isdigit c || Ascii.eqb c "-".

End Wire.

(* ================================================================= *)
(** ** The remaining device routes *)

Module CommandRoutes.
Import SerialService Routes.
Local Open Scope string_scope.

(** The tail shared by the command routes:
    [if (success) res.json(...) else res.status(500).json(...)]. *)
Definition answer (r : Promise bool * option string) (done failed : string)
  : Response * option string :=
  match r with
  | (Resolved true, w) => ({| status := 200; message := done |}, w)
  | (_, w) => ({| status := 500; message := failed |}, w)
  end.


(** [POST /api/arduino/set-exercise]; [type] is the field of the request
    body as the template literal renders it, [None] when it is
    [undefined]. *)
Definition set_exercise (st : State) (type : option string) (error : bool)
  : Response * option string :=
  match type with
  | None =>
      ({| status := 400; message := "Exercise type is required" |}, None)
  | Some t =>
      answer (setExerciseType st t error)
             "Exercise type set" "Failed to set exercise type"
  end.



(** [POST /api/serial/disconnect] *)
Definition disconnect_route (st : State) : Response * State :=
  ({| status := 200; message := "Disconnected from Arduino" |},
   call st Disconnect).

(** [getConnectionStatus()] of the serial service. *)
Definition getConnectionStatus (st : State) : bool * option string :=
  (isConnected st, currentPortPath st).

(** The last path a [connect] opened successfully. *)
Definition last_opened (calls : list Call) : option string :=
  fold_left (fun acc c => match c with
                          | Connect p true => Some p
                          | _ => acc
                          end) calls None.

Definition is_disconnected_event (e : Event) : bool :=
  match e with Disconnected => true | _ => false end.

End CommandRoutes.

(* ================================================================= *)
(** ** Forwarding of service events to the WebSocket clients *)

Module Forwarding.
Import Schema SerialService.

(** The messages [registerRoutes] sends to the browser. *)
Inductive WsOut :=
| WsStatus (arduinoConnected : bool) (port : option string)
           (n8nConnected : bool)
| WsArduinoConnected (port : string)
| WsArduinoDisconnected
| WsKneeData (data : ArduinoData)
| WsSessionStarted (sessionId : string)
| WsSessionStopped
| WsCalibrationComplete
| WsError
| WsRecommendationsReceived.







(** The message sent to a client when it connects. *)
Definition on_connection (st : State) (n8nConnected : bool) : WsOut :=
  WsStatus (isConnected st) (currentPortPath st) n8nConnected.



End Forwarding.

(* ================================================================= *)
(** ** The page's handlers and the live chart *)

Module Page.
Import Dashboard.

(** [handleConnectionChange(connected)] *)
Definition handleConnectionChange (connected : bool) (st : State) : State :=
  if connected
  then {| isConnected := true; n8nConnected := n8nConnected st;
          latestData := latestData st;
          currentSessionId := currentSessionId st;
          sessionStartTime := sessionStartTime st;
          sessionStats := sessionStats st |}
  else {| isConnected := false; n8nConnected := n8nConnected st;
          latestData := None; currentSessionId := None;
          sessionStartTime := None; sessionStats := None |}.

(** [handleSessionStart(sessionId)]; [now] is [Date.now()]. *)
Definition handleSessionStart (now : Z) (id : string) (st : State) : State :=
  {| isConnected := isConnected st; n8nConnected := n8nConnected st;
     latestData := latestData st;
     currentSessionId := Some id; sessionStartTime := Some now;
     sessionStats := Some zero_stats |}.

(** [handleSessionStop()] *)
Definition handleSessionStop (st : State) : State :=
  {| isConnected := isConnected st; n8nConnected := n8nConnected st;
     latestData := latestData st;
     currentSessionId := None; sessionStartTime := None;
     sessionStats := None |}.

(** What the page reacts to. *)
Inductive Input :=
| Message (now : Z) (msg : WsMessage)
| ConnectionChange (connected : bool)
| SessionStart (now : Z) (id : string)
| SessionStop.

Definition step (st : State) (i : Input) : State :=
  match i with
  | Message now msg => on_message now msg st
  | ConnectionChange c => handleConnectionChange c st
  | SessionStart now id => handleSessionStart now id st
  | SessionStop => handleSessionStop st
  end.

Definition run (inputs : list Input) : State := fold_left step inputs initial.

(** [a.slice(-n)] *)
Definition slice_last {A} (n : nat) (l : list A) : list A :=
  match n with
  | O => l
  | _ => skipn (List.length l - n) l
  end.

(** [LiveDataPanel]: [const maxDataPoints = 50]. *)
Definition maxDataPoints : nat := 50.

(** The effect of [LiveDataPanel] on a new [latestData]: a frame is
    appended to the chart's history, which keeps its last
    [maxDataPoints] entries; [null] changes nothing. *)
Definition on_latestData {A} (prev : list A) (latest : option A) : list A :=
  match latest with
  | Some point => slice_last maxDataPoints (prev ++ [point])
  | None => prev
  end.

Definition history {A} (updates : list (option A)) : list A :=
  fold_left on_latestData updates [].

(** The frames among the updates. *)
Definition points {A} (updates : list (option A)) : list A :=
  flat_map (fun u => match u with Some p => [p] | None => [] end) updates.

End Page.

(* ================================================================= *)
(** ** Runs of the device *)

Module DeviceRun.
Import Binary32 Firmware.

Section Run.
Variables c_sqrt c_atan : float -> float.
Variable c_pow : float -> float -> float.

(** What the device sends over a series of passes of [loop()]. *)
Fixpoint loop_outputs (d : Device) (inputs : list LoopInput) : list BtOut :=
  match inputs with
  | [] => []
  | i :: rest =>
      let '(d', out) := loop c_sqrt c_atan c_pow d i in
      (out ++ loop_outputs d' rest)%list
  end.
End Run.

Definition is_telemetry (o : BtOut) : bool :=
  match o with BtKneeData _ => true | BtLine _ => false end.

(** The pass reads a [START_SESSION:] command. *)
Definition starts_session (i : LoopInput) : bool :=
  match incoming i with
  | Some command => Text.startsWith (Text.trim command) "START_SESSION:"
  | None => false
  end.

(** The pass reads the [STOP_SESSION] command. *)
Definition stops_session (i : LoopInput) : bool :=
  match incoming i with
  | Some command => String.eqb (Text.trim command) "STOP_SESSION"
  | None => false
  end.

End DeviceRun.

(* ================================================================= *)
(** ** The in-memory storage [MemStorage] *)

Module MemStorage.
Import Schema.

(** A [Date]: its time value in milliseconds, [None] for an invalid
    date. *)
Definition Date := option Z.

(** [new Date(x)] for a number: the time value is the number truncated,
    unless it is not finite or beyond 8.64e15 in magnitude. *)
Definition Date_of_number (x : number) : Date :=
  match x with
  | S754_zero _ => Some 0
  | S754_finite s m e =>
      let t := if 0 <=? e then Zpos m * 2 ^ e else Zpos m / 2 ^ (- e) in
      if t <=? 8640000000000000 then Some (if s then - t else t) else None
  | S754_infinity _ | S754_nan => None
  end.

(** A JavaScript [Map] with string keys, in insertion order: setting a
    key that is present keeps its place. *)
Section JsMap.
Context {V : Type}.

Fixpoint map_set (k : string) (v : V) (m : list (string * V))
  : list (string * V) :=
  match m with
  | [] => [(k, v)]
  | (k', v') :: rest =>
      if String.eqb k' k then (k, v) :: rest
      else (k', v') :: map_set k v rest
  end.

Fixpoint map_get (k : string) (m : list (string * V)) : option V :=
  match m with
  | [] => None
  | (k', v') :: rest => if String.eqb k' k then Some v' else map_get k rest
  end.

(** [Array.from(m.values())] *)
Definition map_values (m : list (string * V)) : list V := map snd m.

Definition map_keys (m : list (string * V)) : list string := map fst m.
End JsMap.

(** [Array.prototype.sort] with a comparator; [None] stands for a
    comparator result of NaN, which counts as 0.  The sort is stable.
    (For a comparator that is not a consistent order the language
    leaves the result to the implementation.) *)
Section JsSort.
Context {A : Type}.
Variable compareFn : A -> A -> option Z.

Definition not_after (x y : A) : bool :=
  match compareFn x y with
  | Some v => v <=? 0
  | None => true
  end.

Fixpoint insert_sorted (x : A) (l : list A) : list A :=
  match l with
  | [] => [x]
  | y :: rest =>
      if not_after x y then x :: y :: rest else y :: insert_sorted x rest
  end.

Definition sort (l : list A) : list A := fold_right insert_sorted [] l.
End JsSort.

(** [a.getTime() - b.getTime()] *)
Definition time_difference (a b : Date) : option Z :=
  match a, b with
  | Some ta, Some tb => Some (ta - tb)
  | _, _ => None
  end.

(** A truthy number: neither a zero nor NaN. *)
Definition truthy (x : number) : bool :=
  match x with
  | S754_nan | S754_zero _ => false
  | _ => true
  end.

(** [x || null] for an optional, nullable number. *)
Definition or_null (x : option number) : option number :=
  match x with
  | Some v => if truthy v then Some v else None
  | None => None
  end.

(** *** Sessions *)

Record Session := {
  id : string;
  sessionId : string;
  exerciseType : number;
  startTime : Date;
  endTime : option Date;
  isActive : bool;
  readingCount : number;
  maxAngle : option number;
  avgAngle : option number;
  qualityScore : option number;
  createdAt : Date
}.

(** [InsertSession]: [None] stands for a field that is absent (or
    [null], where the schema allows it). *)
Record InsertSession := {
  ins_sessionId : string;
  ins_exerciseType : number;
  ins_startTime : option Date;
  ins_endTime : option Date;
  ins_isActive : option bool;
  ins_readingCount : option number;
  ins_maxAngle : option number;
  ins_avgAngle : option number;
  ins_qualityScore : option number
}.

(** [Partial<Session>]: [None] stands for a field that is absent. *)
Record PartialSession := {
  upd_id : option string;
  upd_sessionId : option string;
  upd_exerciseType : option number;
  upd_startTime : option Date;
  upd_endTime : option (option Date);
  upd_isActive : option bool;
  upd_readingCount : option number;
  upd_maxAngle : option (option number);
  upd_avgAngle : option (option number);
  upd_qualityScore : option (option number);
  upd_createdAt : option Date
}.

Definition Sessions := list (string * Session).

Definition or_else {A} (o : option A) (d : A) : A :=
  match o with Some a => a | None => d end.

(** [createSession(session)]; [newId] is what [randomUUID()] returns,
    [now] and [now'] what the two [new Date()] give. *)
Definition createSession (session : InsertSession) (newId : string)
           (now now' : Z) (sessions : Sessions) : Session * Sessions :=
  let newSession :=
    {| id := newId;
       sessionId := ins_sessionId session;
       exerciseType := ins_exerciseType session;
       isActive := or_else (ins_isActive session) true;
       startTime := or_else (ins_startTime session) (Some now);
       endTime := ins_endTime session;
       readingCount :=
         match ins_readingCount session with
         | Some n => SerialService.or_zero n
         | None => num_of_Z 0
         end;
       maxAngle := or_null (ins_maxAngle session);
       avgAngle := or_null (ins_avgAngle session);
       qualityScore := or_null (ins_qualityScore session);
       createdAt := Some now' |} in
  (newSession, map_set newId newSession sessions).

(** [getSession(id)] *)
Definition getSession (key : string) (sessions : Sessions) : option Session :=
  map_get key sessions.

(** [getSessionBySessionId(sessionId)] *)
Definition getSessionBySessionId (sid : string) (sessions : Sessions)
  : option Session :=
  find (fun s => String.eqb (sessionId s) sid) (map_values sessions).

(** [{ ...session, ...updates }] *)
Definition merge (session : Session) (updates : PartialSession) : Session :=
  {| id := or_else (upd_id updates) (id session);
     sessionId := or_else (upd_sessionId updates) (sessionId session);
     exerciseType := or_else (upd_exerciseType updates) (exerciseType session);
     startTime := or_else (upd_startTime updates) (startTime session);
     endTime := or_else (upd_endTime updates) (endTime session);
     isActive := or_else (upd_isActive updates) (isActive session);
     readingCount := or_else (upd_readingCount updates) (readingCount session);
     maxAngle := or_else (upd_maxAngle updates) (maxAngle session);
     avgAngle := or_else (upd_avgAngle updates) (avgAngle session);
     qualityScore := or_else (upd_qualityScore updates) (qualityScore session);
     createdAt := or_else (upd_createdAt updates) (createdAt session) |}.

(** [updateSession(id, updates)] *)
Definition updateSession (key : string) (updates : PartialSession)
           (sessions : Sessions) : option Session * Sessions :=
  match map_get key sessions with
  | Some session =>
      let updatedSession := merge session updates in
      (Some updatedSession, map_set key updatedSession sessions)
  | None => (None, sessions)
  end.

(** [getActiveSessions()] *)
Definition getActiveSessions (sessions : Sessions) : list Session :=
  filter isActive (map_values sessions).

(** *** Sensor readings *)

Record SensorReading := {
  reading_id : string;
  reading_sessionId : string;
  reading_timestamp : Date;
  reading_exerciseType : number;
  reading_kneeAngle : number;
  reading_temperature : number;
  reading_rawSensorData : RawSensorData;
  reading_angles : Angles;
  reading_createdAt : Date
}.

Record InsertSensorReading := {
  ins_reading_sessionId : string;
  ins_reading_timestamp : option Date;
  ins_reading_exerciseType : number;
  ins_reading_kneeAngle : number;
  ins_reading_temperature : number;
  ins_reading_rawSensorData : RawSensorData;
  ins_reading_angles : Angles
}.

Definition SensorReadings := list (string * SensorReading).

(** [createSensorReading(reading)]: a [Date] object is truthy even when
    invalid, so a given time stamp is always kept. *)
Definition createSensorReading (reading : InsertSensorReading)
           (newId : string) (now now' : Z) (readings : SensorReadings)
  : SensorReading * SensorReadings :=
  let sensorReading :=
    {| reading_id := newId;
       reading_sessionId := ins_reading_sessionId reading;
       reading_timestamp := or_else (ins_reading_timestamp reading) (Some now);
       reading_exerciseType := ins_reading_exerciseType reading;
       reading_kneeAngle := ins_reading_kneeAngle reading;
       reading_temperature := ins_reading_temperature reading;
       reading_rawSensorData := ins_reading_rawSensorData reading;
       reading_angles := ins_reading_angles reading;
       reading_createdAt := Some now' |} in
  (sensorReading, map_set newId sensorReading readings).

(** [getSensorReadingsBySession(sessionId)] *)
Definition getSensorReadingsBySession (sid : string)
           (readings : SensorReadings) : list SensorReading :=
  sort (fun a b => time_difference (reading_timestamp a) (reading_timestamp b))
       (filter (fun r => String.eqb (reading_sessionId r) sid)
               (map_values readings)).

(** The argument [SerialService.storeSensorReading] hands to
    [createSensorReading]. *)
Definition reading_of_frame (data : ArduinoData) : InsertSensorReading :=
  {| ins_reading_sessionId := Schema.sessionId data;
     ins_reading_timestamp := Some (Date_of_number (Schema.timestamp data));
     ins_reading_exerciseType := Schema.exerciseType data;
     ins_reading_kneeAngle := Schema.kneeAngle data;
     ins_reading_temperature := Schema.temperature data;
     ins_reading_rawSensorData := Schema.rawSensorData data;
     ins_reading_angles := Schema.angles data |}.

(** A time stamp that is a valid date. *)
Definition valid_timestamp (r : SensorReading) : bool :=
  match reading_timestamp r with Some _ => true | None => false end.

(** The time value of a valid time stamp. *)
Definition time_of (r : SensorReading) : Z := or_else (reading_timestamp r) 0.

End MemStorage.

(* ================================================================= *)
(** ** The server process and its two storage objects *)

Module Server.
Import Schema SerialService MemStorage.

(** The storage module exports [storage], a [MemStorage] created when
    the module is loaded, and [getStorage()], which creates its own
    storage object on first use.  [SerialService] imports the first;
    the routes and [N8nService] call the second.  The port registry of
    the first is the field [serialPorts] of the serial service's
    state. *)
Record State := {
  serial : SerialService.State;
  exported_readings : SensorReadings;
  instance_sessions : Sessions;
  instance_readings : SensorReadings;
  instance_ports : list SerialPortRow
}.

Definition initial : State :=
  {| serial := SerialService.initial; exported_readings := [];
     instance_sessions := []; instance_readings := [];
     instance_ports := [] |}.

(** What reaches the server. *)
Inductive Request :=
| ServiceCall (c : Call)
| DeviceLine (line : string) (newId : string) (now now' : Z)
| PostSession (body : InsertSession) (newId : string) (now now' : Z)
| PatchSession (key : string) (updates : PartialSession)
| StartSessionRoute (sessionId : option string) (error : bool).

(** [storeSensorReading] for the readings among the effects of a
    line. *)
Definition store_effects (newId : string) (now now' : Z)
           (es : list Effect) (readings : SensorReadings) : SensorReadings :=
  fold_left (fun rs e =>
               match e with
               | StoreSensorReading data =>
                   snd (createSensorReading (reading_of_frame data)
                                            newId now now' rs)
               | Emit _ => rs
               end) es readings.

Section Run.
Variable JSON_parse : string -> option json.
Variable parseInt : option string -> number.
(** [String.prototype.localeCompare] *)
Variable localeCompare : string -> string -> Z.

Definition step (st : State) (r : Request) : State :=
  match r with
  | ServiceCall c =>
      {| serial := call (serial st) c;
         exported_readings := exported_readings st;
         instance_sessions := instance_sessions st;
         instance_readings := instance_readings st;
         instance_ports := instance_ports st |}
  | DeviceLine line newId now now' =>
      match on_data JSON_parse parseInt line with
      | Normal es =>
          {| serial := emit_all es (serial st);
             exported_readings :=
               store_effects newId now now' es (exported_readings st);
             instance_sessions := instance_sessions st;
             instance_readings := instance_readings st;
             instance_ports := instance_ports st |}
      | Throws => st
      end
  | PostSession body newId now now' =>
      {| serial := serial st;
         exported_readings := exported_readings st;
         instance_sessions :=
           snd (createSession body newId now now' (instance_sessions st));
         instance_readings := instance_readings st;
         instance_ports := instance_ports st |}
  | PatchSession key updates =>
      {| serial := serial st;
         exported_readings := exported_readings st;
         instance_sessions :=
           snd (updateSession key updates (instance_sessions st));
         instance_readings := instance_readings st;
         instance_ports := instance_ports st |}
  | StartSessionRoute _ _ => st
  end.

Definition run (requests : list Request) : State :=
  fold_left step requests initial.




End Run.

                                    (* the analytics service is asked *)




End Server.

(* ================================================================= *)
(** ** Exercise modes on the wire *)

Module Modes.
Import Schema.

(** The schema's check of the exercise type refuses the integer [t]. *)
Definition refused (t : Z) : bool :=
  match z_exerciseType (Some (JNum (num_of_Z t))) with
  | None => true
  | Some _ => false
  end.

End Modes.

(* ================================================================= *)
(** ** Scenarios used to run the model *)

Module Scenarios.
Import Firmware.
Local Open Scope string_scope.

Definition pass (command : option string) (ms : Z) : LoopInput :=
  {| incoming := command; now_loop := ms; burst := Samples.level_burst;
     now_calc := ms; now_send := ms + 1;
     accReads := Samples.still_acc; gyroReads := Samples.still_gyro |}.

(** A stop, a status request and two quiet passes. *)
Definition stop_pass : LoopInput :=
  pass (Some ("STOP_SESSION" ++ String "010" "")) 550.

Definition quiet_passes : list LoopInput :=
  [pass (Some ("GET_STATUS" ++ String "010" "")) 700; pass None 850;
   pass None 1000].

(** A recording device whose last tick came 46 ms before the counter of
    [millis()] wraps. *)
Definition late_device : Device :=
  {| raw := readMPU6050 Samples.level_burst; cal := Samples.cal0;
     orient := Samples.orient0; previousMillis := 4294967250;
     sessionId := "s1"; isRecording := true; exerciseType := 1 |}.

(** The pass 150 ms later; the counter reads 104. *)
Definition late_pass : LoopInput := pass None (4294967250 + 150).



Definition session_a : MemStorage.InsertSession :=
  {| MemStorage.ins_sessionId := "s1";
     MemStorage.ins_exerciseType := Schema.num_of_Z 0;
     MemStorage.ins_startTime := None; MemStorage.ins_endTime := None;
     MemStorage.ins_isActive := None; MemStorage.ins_readingCount := None;
     MemStorage.ins_maxAngle := Some (Schema.num_of_Z 0);
     MemStorage.ins_avgAngle := None; MemStorage.ins_qualityScore := None |}.

(** A store that holds one session with session id "s1". *)
Definition one_session : MemStorage.Sessions :=
  snd (MemStorage.createSession session_a "id-1" 1000 1000 []).

Definition frame_at (ms : Z) : Schema.ArduinoData :=
  {| Schema.sessionId := "s1"; Schema.timestamp := Schema.num_of_Z ms;
     Schema.exerciseType := Schema.num_of_Z 2;
     Schema.rawSensorData := Schema.rawSensorData Samples.full_frame;
     Schema.angles := Schema.angles Samples.full_frame;
     Schema.kneeAngle := Schema.num_of_Z 30;
     Schema.temperature := Schema.num_of_Z 36 |}.

(** Two readings stored out of time order. *)
Definition two_readings : MemStorage.SensorReadings :=
  snd (MemStorage.createSensorReading
         (MemStorage.reading_of_frame (frame_at 1200)) "r-2" 5000 5000
         (snd (MemStorage.createSensorReading
                 (MemStorage.reading_of_frame (frame_at 1300)) "r-1" 4000 4000
                 []))).


(** A stand-in for [JSON.parse] that yields a frame in mode 5. *)
Definition JSON_parse_mode5 (text : string) : option Schema.json :=
  Some (Schema.JObj [("sessionId", Schema.JStr "s1");
                     ("timestamp", Samples.jnum 1300);
                     ("exerciseType", Samples.jnum 5)]).

(** Two lines as the device prints them, and their bytes cut into three
    chunks: inside a line, before a line feed, and the line feed. *)
Definition printed : list string := ["SESSION_STARTED:s1"; "STATUS:IDLE::0"].

Definition chunks : list string :=
  ["SESSION_ST";
   "ARTED:s1" ++ String "013" (String "010" "STATUS:IDLE::0")
              ++ String "013" "";
   String "010" ""].


End Scenarios.

(* ================================================================= *)
(** * Properties *)

(** ** Facts about binary32 comparison and rounding *)

Section FloatFacts.
Import Binary32.

Lemma SFcompare_antisym (x y : float) :
  SFcompare y x = option_map CompOpp (SFcompare x y).
Proof.
  destruct x as [sx|sx| |sx mx ex], y as [sy|sy| |sy my ey]; simpl;
    try reflexivity;
    try (destruct sx; reflexivity); try (destruct sy; reflexivity);
    try (destruct sx, sy; reflexivity).
  assert (A : PosDef.Pos.compare_cont Eq my mx
              = CompOpp (PosDef.Pos.compare_cont Eq mx my))
    by (symmetry; exact (Pos.compare_cont_antisym mx my Eq)).
  destruct sx, sy; simpl; try reflexivity;
    rewrite (Z.compare_antisym ex ey);
    destruct (ex ?= ey) eqn:E; simpl; try reflexivity;
    rewrite A; reflexivity.
Qed.

Lemma SFcompare_refl (x : float) :
  isnan x = false -> SFcompare x x = Some Eq.
Proof.
  destruct x as [s|s| |s m e]; simpl; intros H; try discriminate;
    try reflexivity; try (destruct s; reflexivity).
  assert (A : PosDef.Pos.compare_cont Eq m m = Eq)
    by exact (Pos.compare_cont_refl m Eq).
  destruct s; rewrite Z.compare_refl, A; reflexivity.
Qed.

Lemma SFcompare_some (x y : float) :
  isnan x = false -> isnan y = false -> exists c, SFcompare x y = Some c.
Proof.
  destruct x, y; simpl; intros; try discriminate; eauto.
Qed.

Lemma le_nan_l (x y : float) : le x y = true -> isnan x = false.
Proof. unfold le, SFleb. destruct x; simpl; congruence. Qed.

Lemma le_nan_r (x y : float) : le x y = true -> isnan y = false.
Proof. unfold le, SFleb. destruct x, y; simpl; congruence. Qed.

(** What is not below [lo] is at least [lo], unless it is NaN. *)
Lemma not_lt_le (x lo : float) :
  isnan x = false -> isnan lo = false -> lt x lo = false -> le lo x = true.
Proof.
  intros Hx Hlo. unfold lt, le, SFltb, SFleb.
  rewrite (SFcompare_antisym x lo).
  destruct (SFcompare_some x lo Hx Hlo) as [c ->]. destruct c; simpl; congruence.
Qed.

Lemma not_gt_le (x hi : float) :
  isnan x = false -> isnan hi = false -> gt x hi = false -> le x hi = true.
Proof.
  intros Hx Hhi. unfold gt, le, SFltb, SFleb.
  rewrite (SFcompare_antisym x hi).
  destruct (SFcompare_some x hi Hx Hhi) as [c ->]. destruct c; simpl; congruence.
Qed.

Lemma le_refl (x : float) : isnan x = false -> le x x = true.
Proof. intros H. unfold le, SFleb. now rewrite SFcompare_refl. Qed.

(** The macro [constrain] lands between its bounds. *)
Lemma constrain_between (x lo hi : float) :
  isnan x = false -> le lo hi = true ->
  le lo (constrain x lo hi) = true /\ le (constrain x lo hi) hi = true.
Proof.
  intros Hx Hb. pose proof (le_nan_l _ _ Hb) as Hlo.
  pose proof (le_nan_r _ _ Hb) as Hhi. unfold constrain.
  destruct (lt x lo) eqn:E1.
  - split; [now apply le_refl | exact Hb].
  - destruct (gt x hi) eqn:E2.
    + split; [exact Hb | now apply le_refl].
    + split; [now apply not_lt_le | now apply not_gt_le].
Qed.

Lemma constrain_finite (x lo hi : float) :
  isnan x = false -> is_finite lo = true -> is_finite hi = true ->
  is_finite (constrain x lo hi) = true.
Proof.
  intros Hx Hlo Hhi. unfold constrain.
  destruct (lt x lo) eqn:E1; [exact Hlo|].
  destruct (gt x hi) eqn:E2; [exact Hhi|].
  destruct x as [s|s| |s m e]; try reflexivity; try discriminate.
  destruct s.
  - destruct lo; simpl in *; discriminate.
  - destruct hi; simpl in *; discriminate.
Qed.

(** A value already between the bounds is left alone. *)
Lemma constrain_id (x lo hi : float) :
  le lo x = true -> le x hi = true -> constrain x lo hi = x.
Proof.
  unfold constrain, le, lt, gt, SFleb, SFltb. intros H1 H2.
  rewrite (SFcompare_antisym x lo) in H1. rewrite (SFcompare_antisym x hi).
  destruct (SFcompare x lo) as [[]|]; simpl in *; try discriminate;
    destruct (SFcompare x hi) as [[]|]; simpl in *; try discriminate;
    reflexivity.
Qed.

End FloatFacts.

(** ** The orientation estimator *)

Section EstimatorFacts.
Import Binary32 Firmware.
Variables c_sqrt c_atan : float -> float.
Variable c_pow : float -> float -> float.

Lemma angle_ok_constrain (x : float) :
  angle_ok (constrain (if isnan x then of_int 0 else x)
                      (of_int (-180)) (of_int 180)) = true.
Proof.
  set (y := if isnan x then of_int 0 else x).
  assert (Hy : isnan y = false) by (subst y; destruct x; reflexivity).
  assert (Hb : le (of_int (-180)) (of_int 180) = true) by (vm_compute; reflexivity).
  destruct (constrain_between y _ _ Hy Hb) as [H1 H2].
  unfold angle_ok. rewrite H1, H2, constrain_finite; auto.
Qed.

Lemma fuse_orientation_ok raw cal o now dt :
  orientation_ok (fuse c_sqrt c_atan c_pow raw cal o now dt) = true.
Proof.
  unfold orientation_ok, fuse; cbn [roll pitch yaw].
  rewrite !angle_ok_constrain. reflexivity.
Qed.

Lemma angle_ok_fixed (x : float) :
  angle_ok x = true ->
  constrain (if isnan x then of_int 0 else x) (of_int (-180)) (of_int 180) = x.
Proof.
  unfold angle_ok. intros H.
  apply andb_prop in H as [H H3]. apply andb_prop in H as [H1 H2].
  assert (isnan x = false) as -> by (destruct x; simpl in *; congruence).
  now apply constrain_id.
Qed.

(** C5: after every estimator tick of any series of sensor reads, roll,
    pitch and yaw are finite and lie in [-180, 180]; and, from a
    well-formed state, a tick whose filter blend is NaN for roll (pitch)
    keeps the previous roll (pitch), and a NaN yaw becomes zero. *)
Theorem orientation_finite_and_bounded :
  forall (d : Device) (inputs : list (list Z * Z)),
    Forall (fun d' => orientation_ok (orient d') = true)
           (tick_states c_sqrt c_atan c_pow d inputs)
    /\ forall bytes ms,
        orientation_ok (orient d) = true ->
        let r := readMPU6050 bytes in
        let dt := guard_elapsed (measured_elapsed (orient d) ms) in
        let d' := estimator_tick c_sqrt c_atan c_pow d bytes ms in
        (isnan (newRoll c_sqrt c_atan c_pow r (cal d) (orient d) dt) = true ->
         roll (orient d') = roll (orient d))
        /\ (isnan (newPitch c_sqrt c_atan c_pow r (cal d) (orient d) dt) = true ->
            pitch (orient d') = pitch (orient d))
        /\ (isnan (gyroAngleZ (orient d')) = true ->
            yaw (orient d') = of_int 0).
Proof.
  intros d inputs. split.
  - revert d. induction inputs as [|[bytes ms] rest IH]; intros d; cbn [tick_states].
    + constructor.
    + constructor; [|apply IH].
      cbn [estimator_tick orient]. apply fuse_orientation_ok.
  - intros bytes ms Hok r dt d'.
    unfold orientation_ok in Hok.
    apply andb_prop in Hok as [Hok Hy]. apply andb_prop in Hok as [Hr Hp].
    subst d'. cbn [estimator_tick orient]. unfold calculateAngles.
    fold r. fold dt. unfold fuse; cbn [roll pitch yaw gyroAngleZ].
    repeat split.
    + intros ->. cbn [negb]. now apply angle_ok_fixed.
    + intros ->. cbn [negb]. now apply angle_ok_fixed.
    + intros ->. vm_compute. reflexivity.
Qed.

Lemma handleBluetoothCommand_orient accReads gyroReads command d :
  orient (fst (handleBluetoothCommand c_sqrt c_atan c_pow accReads gyroReads
                 command d))
  = orient d.
Proof.
  unfold handleBluetoothCommand.
  repeat match goal with
         | |- context [if ?b then _ else _] => destruct b
         end; try reflexivity.
  destruct (calibrateMPU6050 _ _ _ _ _). reflexivity.
Qed.

Lemma loop_orientation_ok (d : Device) (i : LoopInput) :
  orientation_ok (orient d) = true ->
  orientation_ok (orient (fst (loop c_sqrt c_atan c_pow d i))) = true.
Proof.
  intros H. unfold loop.
  assert (H1 : orientation_ok
                 (orient (fst match incoming i with
                              | Some command =>
                                  handleBluetoothCommand
                                    c_sqrt c_atan c_pow (accReads i) (gyroReads i)
                                    (Text.trim command) d
                              | None => (d, [])
                              end)) = true).
  { destruct (incoming i); [rewrite handleBluetoothCommand_orient|]; exact H. }
  destruct (match incoming i with Some _ => _ | None => _ end) as [d1 out1].
  cbn [fst] in H1.
  destruct (100 <=? _); cbn [fst]; [|exact H1].
  cbn [estimator_tick orient]. apply fuse_orientation_ok.
Qed.

(** From [setup()] on, the angles are well formed after every pass of
    [loop()], whatever the commands, the clock and the sensor deliver. *)
Lemma loop_states_orientation_ok accReads gyroReads ms inputs :
  Forall (fun d => orientation_ok (orient d) = true)
         (loop_states c_sqrt c_atan c_pow
            (fst (setup c_sqrt c_atan c_pow accReads gyroReads ms)) inputs).
Proof.
  assert (H0 : orientation_ok
                 (orient (fst (setup c_sqrt c_atan c_pow accReads gyroReads ms)))
               = true).
  { unfold setup. destruct (calibrateMPU6050 _ _ _ _ _). reflexivity. }
  revert H0. generalize (fst (setup c_sqrt c_atan c_pow accReads gyroReads ms)).
  induction inputs as [|i rest IH]; intros d Hd; cbn [loop_states].
  - constructor.
  - constructor; [|apply IH]; now apply loop_orientation_ok.
Qed.

End EstimatorFacts.

Lemma orientation_finite_and_bounded_witness :
  let d := Samples.device Samples.cal_nan "s1" true in
  let d' := Firmware.estimator_tick Samples.c_sqrt Samples.c_atan Samples.c_pow
                                    d Samples.level_burst 600 in
  Firmware.orientation_ok (Firmware.orient d) = true
  /\ Firmware.roll (Firmware.orient d') = Binary32.of_int 10
  /\ Firmware.pitch (Firmware.orient d') = Binary32.of_int (-20)
  /\ Firmware.yaw (Firmware.orient d') = Binary32.of_int 0.
Proof.
  intros d d'.
  assert (Hok : Firmware.orientation_ok (Firmware.orient d) = true)
    by (vm_compute; reflexivity).
  pose proof (proj2 (orientation_finite_and_bounded
                       Samples.c_sqrt Samples.c_atan Samples.c_pow d [])
                    Samples.level_burst 600 Hok) as [Hr [Hp Hy]].
  split; [exact Hok|].
  split; [apply Hr; vm_compute; reflexivity|].
  split; [apply Hp; vm_compute; reflexivity|].
  apply Hy; vm_compute; reflexivity.
Defined.

Section ElapsedFacts.
Import Binary32 Firmware.
Variables c_sqrt c_atan : float -> float.
Variable c_pow : float -> float -> float.

Lemma guard_elapsed_positive (m : float) :
  isnan m = false -> gt (guard_elapsed m) zero = true.
Proof.
  intros Hm. unfold guard_elapsed. destruct (le m zero) eqn:E.
  - vm_compute. reflexivity.
  - unfold gt, le, SFltb, SFleb in *.
    rewrite (SFcompare_antisym m zero).
    destruct (SFcompare_some m zero Hm eq_refl) as [c Hc].
    rewrite Hc in *. destruct c; simpl in *; congruence.
Qed.

(** C7: when the measured elapsed time is zero or negative, the tick
    runs with the fixed minimum [0.001] (finite and positive) in its
    place: it is the [elapsedTime] the gyroscope integration and the
    filter blend use.  Whatever is measured, short of NaN, the elapsed
    time used is positive. *)
Theorem nonpositive_elapsed_is_clamped :
  forall raw cal o ms,
    le (measured_elapsed o ms) zero = true ->
    let o' := calculateAngles c_sqrt c_atan c_pow raw cal o ms in
    o' = fuse c_sqrt c_atan c_pow raw cal o (millis_value ms) min_elapsed
    /\ elapsedTime o' = min_elapsed
    /\ min_elapsed = S754_finite false 8589935 (-33)
    /\ is_finite min_elapsed = true
    /\ gt min_elapsed zero = true
    /\ gyroAngleX o' =
         add (gyroAngleX o) (mul (gyro_rate (GyX raw) (GyroErrorX cal)) min_elapsed)
    /\ gyroAngleY o' =
         add (gyroAngleY o) (mul (gyro_rate (GyY raw) (GyroErrorY cal)) min_elapsed)
    /\ gyroAngleZ o' =
         add (gyroAngleZ o) (mul (gyro_rate (GyZ raw) (GyroErrorZ cal)) min_elapsed)
    /\ (forall m, isnan m || gt (guard_elapsed m) zero = true).
Proof.
  intros raw cal o ms H o'. subst o'. unfold calculateAngles, guard_elapsed.
  rewrite H. repeat split; try reflexivity.
  intros m. destruct (isnan m) eqn:E; [reflexivity|].
  now apply guard_elapsed_positive.
Qed.

End ElapsedFacts.

Lemma nonpositive_elapsed_is_clamped_witness :
  Binary32.le (Firmware.measured_elapsed Samples.orient0 500) Binary32.zero = true
  /\ Firmware.elapsedTime
       (Firmware.calculateAngles Samples.c_sqrt Samples.c_atan Samples.c_pow
          (Firmware.readMPU6050 Samples.level_burst) Samples.cal0
          Samples.orient0 500)
     = Firmware.min_elapsed.
Proof.
  assert (H : Binary32.le (Firmware.measured_elapsed Samples.orient0 500)
                          Binary32.zero = true) by (vm_compute; reflexivity).
  split; [exact H|].
  exact (proj1 (proj2 (nonpositive_elapsed_is_clamped
                         Samples.c_sqrt Samples.c_atan Samples.c_pow
                         (Firmware.readMPU6050 Samples.level_burst) Samples.cal0
                         Samples.orient0 500 H))).
Defined.

(** ** Joint-angle derivation *)

Section RoundingFacts.
Import Binary32.

Lemma shr_1_nonneg (mrs : shr_record) :
  0 <= shr_m mrs -> 0 <= shr_m (shr_1 mrs).
Proof.
  destruct mrs as [m r s]. destruct m as [|p|p]; simpl; intros H.
  - lia.
  - destruct p; simpl; lia.
  - lia.
Qed.

Lemma iter_shr_1_nonneg (p : positive) :
  forall mrs, 0 <= shr_m mrs -> 0 <= shr_m (iter_pos shr_1 p mrs).
Proof.
  induction p as [p IH|p IH|]; intros mrs H; simpl.
  - apply IH, IH, shr_1_nonneg, H.
  - apply IH, IH, H.
  - apply shr_1_nonneg, H.
Qed.

Lemma shr_fexp_nonneg (m e : Z) (l : location) :
  0 <= m -> 0 <= shr_m (fst (shr_fexp prec emax m e l)).
Proof.
  intros H. unfold shr_fexp, shr.
  assert (H0 : 0 <= shr_m (shr_record_of_loc m l))
    by (destruct l as [|[]]; exact H).
  destruct (fexp prec emax (Zdigits2 m + e) - e) as [|p|p]; simpl; auto.
  now apply iter_shr_1_nonneg.
Qed.

Lemma round_nearest_even_nonneg (m : Z) (l : location) :
  0 <= m -> 0 <= round_nearest_even m l.
Proof.
  intros H. destruct l as [|[]]; simpl; try lia.
  destruct (Z.even m); lia.
Qed.

(** Rounding a non-negative mantissa never yields NaN. *)
Lemma binary_round_aux_not_nan (sx : bool) (mx ex : Z) (lx : location) :
  0 <= mx -> isnan (binary_round_aux prec emax sx mx ex lx) = false.
Proof.
  intros H. unfold binary_round_aux.
  pose proof (shr_fexp_nonneg mx ex lx H) as H1.
  destruct (shr_fexp prec emax mx ex lx) as [mrs' e']. simpl in H1.
  pose proof (shr_fexp_nonneg _ e' loc_Exact
                (round_nearest_even_nonneg _ (loc_of_shr_record mrs') H1)) as H2.
  destruct (shr_fexp prec emax _ e' loc_Exact) as [mrs'' e'']. simpl in H2.
  destruct (shr_m mrs'') as [|p|p]; try reflexivity.
  - destruct (e'' <=? emax - prec); reflexivity.
  - lia.
Qed.

Lemma binary_normalize_not_nan (m e : Z) (sz : bool) :
  isnan (binary_normalize prec emax m e sz) = false.
Proof.
  unfold binary_normalize, binary_round.
  destruct m as [|p|p]; try reflexivity.
  - destruct (shl_align p e _) as [mz ez].
    apply binary_round_aux_not_nan; lia.
  - destruct (shl_align p e _) as [mz ez].
    apply binary_round_aux_not_nan; lia.
Qed.

Lemma sub_not_nan (x y : float) :
  isnan x = false -> (x = S754_infinity false -> y <> x) ->
  (x = S754_infinity true -> y <> x) ->
  isnan y = false -> isnan (sub x y) = false.
Proof.
  intros Hx H1 H2 Hy. unfold sub, SFsub.
  destruct x as [sx|sx| |sx mx ex], y as [sy|sy| |sy my ey];
    try discriminate; try reflexivity.
  - destruct sx, sy; reflexivity.
  - destruct sx, sy; try reflexivity.
    + now elim (H2 eq_refl).
    + now elim (H1 eq_refl).
  - apply binary_normalize_not_nan.
Qed.

End RoundingFacts.

Section KneeAngleFacts.
Import Binary32 Firmware.

Lemma c_abs_finite (s : bool) (m : positive) (e : Z) :
  c_abs (S754_finite s m e) = SFabs (S754_finite s m e).
Proof. destruct s; reflexivity. Qed.

Lemma c_abs_not_nan (x : float) : isnan x = false -> isnan (c_abs x) = false.
Proof. destruct x as [s|s| |s m e]; try destruct s; cbv; congruence. Qed.

Lemma mode_cases (mode : Z) :
  mode = 0 \/ mode = 1 \/ mode = 2 \/
  (forall r p, knee_raw mode r p = knee_raw 1 r p) /\
  (forall r p, spec_joint_angle mode r p = spec_joint_angle 1 r p).
Proof.
  destruct mode as [|[[]|[]|]|]; auto;
    right; right; right; split; reflexivity.
Qed.

Lemma knee_raw_not_nan (mode : Z) (r p : float) :
  isnan r = false -> isnan p = false -> isnan (knee_raw mode r p) = false.
Proof.
  intros Hr Hp.
  assert (H0 : isnan (knee_raw 0 r p) = false).
  { apply sub_not_nan; try reflexivity; try discriminate.
    now apply c_abs_not_nan. }
  destruct (mode_cases mode) as [-> | [-> | [-> | [E _]]]]; try rewrite E;
    simpl; auto using c_abs_not_nan.
Qed.

Lemma getKneeAngle_unfold (mode : Z) (r p : float) :
  getKneeAngle mode r p =
  let c := constrain (knee_raw mode (if isnan r then of_int 0 else r)
                               (if isnan p then of_int 0 else p))
                     (of_int 0) (of_int 160) in
  if isnan c then of_int 0 else c.
Proof. reflexivity. Qed.

(** Whatever the globals hold, the joint angle is finite and in
    [0, 160]. *)
Lemma getKneeAngle_range (mode : Z) (r p : float) :
  let k := getKneeAngle mode r p in
  is_finite k = true /\ le (of_int 0) k = true /\ le k (of_int 160) = true.
Proof.
  rewrite getKneeAngle_unfold.
  set (a := knee_raw mode _ _).
  assert (Ha : isnan a = false)
    by (apply knee_raw_not_nan; [destruct r | destruct p]; reflexivity).
  assert (Hb : le (of_int 0) (of_int 160) = true) by (vm_compute; reflexivity).
  destruct (constrain_between a _ _ Ha Hb) as [H1 H2].
  pose proof (constrain_finite a (of_int 0) (of_int 160) Ha eq_refl eq_refl) as H3.
  cbv zeta.
  assert (isnan (constrain a (of_int 0) (of_int 160)) = false) as ->
    by (destruct (constrain a (of_int 0) (of_int 160)); simpl in *; congruence).
  auto.
Qed.

Lemma is_finite_not_nan (x : float) : is_finite x = true -> isnan x = false.
Proof. destruct x; simpl; congruence. Qed.

(** C1: for finite roll and pitch the derived joint angle is, as a
    number, the specification's formula (180 - |pitch|, |pitch| or |roll|
    by mode, any other mode as mode 1, clamped to [0, 160], 0 if not
    finite); it is finite and lies in [0, 160]; and the three quoted
    instances evaluate to 30, 10 and 45. *)
Theorem joint_angle_by_mode :
  forall (mode : Z) (roll pitch : float),
    is_finite roll = true -> is_finite pitch = true ->
    let k := getKneeAngle mode roll pitch in
    SFeqb k (spec_joint_angle mode roll pitch) = true
    /\ is_finite k = true
    /\ le (of_int 0) k = true /\ le k (of_int 160) = true
    /\ getKneeAngle 2 (of_int 30) pitch = of_int 30
    /\ getKneeAngle 0 roll (of_int 170) = of_int 10
    /\ getKneeAngle 1 roll (of_int (-45)) = of_int 45.
Proof.
  intros mode r p Hr Hp k.
  destruct (getKneeAngle_range mode r p) as [Hf [H0 H160]]. fold k in Hf, H0, H160.
  split; [|repeat split; auto].
  assert (Hk : isnan k = false) by now apply is_finite_not_nan.
  (* the code and the formula agree up to the sign of a zero *)
  assert (Hcases :
            k = spec_joint_angle mode r p
            \/ (k = S754_zero true /\ spec_joint_angle mode r p = S754_zero false)).
  { subst k. rewrite getKneeAngle_unfold.
    rewrite (is_finite_not_nan r Hr), (is_finite_not_nan p Hp).
    assert (Hgen : forall m', (m' = 0 \/ m' = 1 \/ m' = 2) ->
              let c := constrain (knee_raw m' r p) (of_int 0) (of_int 160) in
              (if isnan c then of_int 0 else c) = spec_joint_angle m' r p
              \/ ((if isnan c then of_int 0 else c) = S754_zero true
                  /\ spec_joint_angle m' r p = S754_zero false)).
    { intros m' Hm'.
      destruct Hm' as [-> | [-> | ->]].
      - (* flexion: 180 - |pitch| *)
        destruct p as [s| | |s m e]; try discriminate.
        + left. destruct s; vm_compute; reflexivity.
        + left. unfold knee_raw, spec_joint_angle. rewrite c_abs_finite.
          set (a := sub (of_int 180) (SFabs (S754_finite s m e))).
          assert (Ha : isnan a = false).
          { apply sub_not_nan; try reflexivity; discriminate. }
          pose proof (constrain_finite a (of_int 0) (of_int 160) Ha eq_refl eq_refl) as H3.
          cbv zeta. unfold constrain, gt, lt in *.
          destruct (SFltb a (of_int 0)); [reflexivity|].
          destruct (SFltb (of_int 160) a); [reflexivity|].
          rewrite H3, (is_finite_not_nan _ H3). reflexivity.
      - (* extension: |pitch| *)
        destruct p as [s| | |s m e]; try discriminate.
        + destruct s; [left|right]; vm_compute; auto.
        + left. unfold knee_raw, spec_joint_angle. rewrite c_abs_finite.
          set (a := SFabs (S754_finite s m e)).
          assert (Ha : isnan a = false) by reflexivity.
          pose proof (constrain_finite a (of_int 0) (of_int 160) Ha eq_refl eq_refl) as H3.
          cbv zeta. unfold constrain, gt, lt in *.
          destruct (SFltb a (of_int 0)); [reflexivity|].
          destruct (SFltb (of_int 160) a); [reflexivity|].
          rewrite H3, (is_finite_not_nan _ H3). reflexivity.
      - (* lateral: |roll| *)
        destruct r as [s| | |s m e]; try discriminate.
        + destruct s; [left|right]; vm_compute; auto.
        + left. unfold knee_raw, spec_joint_angle. rewrite c_abs_finite.
          set (a := SFabs (S754_finite s m e)).
          assert (Ha : isnan a = false) by reflexivity.
          pose proof (constrain_finite a (of_int 0) (of_int 160) Ha eq_refl eq_refl) as H3.
          cbv zeta. unfold constrain, gt, lt in *.
          destruct (SFltb a (of_int 0)); [reflexivity|].
          destruct (SFltb (of_int 160) a); [reflexivity|].
          rewrite H3, (is_finite_not_nan _ H3). reflexivity. }
    destruct (mode_cases mode) as [-> | [-> | [-> | [E1 E2]]]];
      try solve [apply Hgen; auto].
    rewrite E1, E2. apply Hgen; auto. }
  destruct Hcases as [<- | [E1 E2]].
  - unfold SFeqb. now rewrite SFcompare_refl.
  - rewrite E1, E2. reflexivity.
Qed.

End KneeAngleFacts.

Lemma joint_angle_by_mode_witness :
  SFeqb (Firmware.getKneeAngle 0 (Binary32.of_int 5) (Binary32.of_int (-170)))
        (Firmware.spec_joint_angle 0 (Binary32.of_int 5) (Binary32.of_int (-170)))
  = true
  /\ Firmware.getKneeAngle 0 (Binary32.of_int 5) (Binary32.of_int (-170))
     = Binary32.of_int 10.
Proof.
  split; [|reflexivity].
  exact (proj1 (joint_angle_by_mode 0 (Binary32.of_int 5) (Binary32.of_int (-170))
                                    eq_refl eq_refl)).
Defined.

(** ** Session statistics on the dashboard *)

Section DashboardFacts.
Import Dashboard.
Local Open Scope Q_scope.









End DashboardFacts.

Section SessionAggregates.
Import Dashboard.
Local Open Scope Q_scope.


(** C3 (as amended): a reading that arrives while no session is active
    leaves the aggregates as they are; while a session is active every
    reading is counted, whichever session id it carries. *)
Theorem reading_without_session_is_noop :
  forall (now : Z) (data : Frame) (st : State),
    let st' := on_message now (MsgKneeData data) st in
    (sessionStartTime st = None \/ sessionStartTime st = Some 0%Z
     \/ sessionStats st = None ->
     sessionStats st' = sessionStats st)
    /\ (forall start prev,
           sessionStartTime st = Some start -> start <> 0%Z ->
           sessionStats st = Some prev ->
           sessionStats st' = Some (next_stats now start data prev)
           /\ forall id', sessionStats
                            (on_message now
                               (MsgKneeData {| sessionId := id';
                                               kneeAngle := kneeAngle data |}) st)
                          = sessionStats st').
Proof.
  intros now data st st'. subst st'.
  cbn [on_message sessionStats]. unfold updateSessionStats. split.
  - intros [-> | [-> | H]]; try reflexivity.
    rewrite H. destruct (sessionStartTime st) as [t|]; [|reflexivity].
    destruct (t =? 0)%Z; reflexivity.
  - intros start prev -> Hs ->.
    destruct (Z.eqb_spec start 0); [contradiction|]. split; reflexivity.
Qed.

End SessionAggregates.



Lemma reading_without_session_is_noop_witness :
  let data := {| Dashboard.sessionId := "s1"; Dashboard.kneeAngle := 45 |} in
  Dashboard.sessionStats
    (Dashboard.on_message 2000 (Dashboard.MsgKneeData data) Dashboard.initial)
  = None
  /\ Dashboard.sessionStats
       (Dashboard.on_message 2000 (Dashboard.MsgKneeData data)
          (Dashboard.session_of 1000 "s1" [] Dashboard.initial))
     = Some (Dashboard.next_stats 2000 1000 data Dashboard.zero_stats).
Proof.
  intros data. split.
  - exact (proj1 (reading_without_session_is_noop 2000 data Dashboard.initial)
                 (or_introl eq_refl)).
  - exact (proj1 (proj2 (reading_without_session_is_noop 2000 data
                           (Dashboard.session_of 1000 "s1" [] Dashboard.initial))
                        1000%Z Dashboard.zero_stats eq_refl
                        ltac:(discriminate) eq_refl)).
Defined.

(** C3, as first stated, fails: with session "s1" active, a frame that
    carries the id "s2" is counted all the same. *)
Lemma mismatched_reading_counterexample :
  let st := Dashboard.session_of 1000 "s1" [] Dashboard.initial in
  let data := {| Dashboard.sessionId := "s2"; Dashboard.kneeAngle := 45 |} in
  let st' := Dashboard.on_message 2000 (Dashboard.MsgKneeData data) st in
  Dashboard.currentSessionId st = Some "s1"%string
  /\ Dashboard.sessionId data <> "s1"%string
  /\ option_map Dashboard.readingCount (Dashboard.sessionStats st) = Some 0%Z
  /\ option_map Dashboard.readingCount (Dashboard.sessionStats st') = Some 1%Z
  /\ Dashboard.sessionStats st' <> Dashboard.sessionStats st
  /\ ~ (forall now frame page,
          Dashboard.currentSessionId page <> Some (Dashboard.sessionId frame) ->
          Dashboard.sessionStats
            (Dashboard.on_message now (Dashboard.MsgKneeData frame) page)
          = Dashboard.sessionStats page).
Proof.
  cbv zeta. repeat split; try reflexivity; try (vm_compute; discriminate).
  intros H.
  specialize (H 2000
                {| Dashboard.sessionId := "s2"; Dashboard.kneeAngle := 45 |}
                (Dashboard.session_of 1000 "s1" [] Dashboard.initial)
                ltac:(vm_compute; discriminate)).
  vm_compute in H. discriminate.
Qed.

(** ** Strings on the wire *)

Example text_examples :
  Text.toInt "2" = 2 /\ Text.toInt " -7x" = -7 /\ Text.toInt "abc" = 0
  /\ Text.toInt "65537" = 1 /\ Text.String_of_int (-7) = "-7"%string
  /\ Text.trim (" ab c" ++ String "013" (String "010" "")) = "ab c"%string
  /\ Text.split ":" "RECORDING:s1:2" = ["RECORDING"; "s1"; "2"]%string
  /\ Text.replace_first_empty "STATUS:" "STATUS:IDLE::0" = "IDLE::0"%string.
Proof. vm_compute. repeat split; reflexivity. Qed.

Section TextFacts.
Local Open Scope string_scope.

Lemma substring_all (s : string) : String.substring 0 (String.length s) s = s.
Proof. induction s as [|c s IH]; simpl; [reflexivity|now rewrite IH]. Qed.

Lemma prefix_split (p s : string) :
  String.prefix p s = true -> exists r, s = p ++ r.
Proof.
  revert s. induction p as [|a p IH]; intros s H.
  - exists s. reflexivity.
  - destruct s as [|b s]; simpl in H; [discriminate|].
    destruct (ascii_dec a b) as [->|]; [|discriminate].
    destruct (IH s H) as [r ->]. exists r. reflexivity.
Qed.

Lemma startsWith_app (p r : string) : Text.startsWith (p ++ r) p = true.
Proof.
  unfold Text.startsWith. induction p as [|a p IH]; simpl.
  - now destruct r.
  - destruct (ascii_dec a a) as [_|N]; [exact IH|now elim N].
Qed.

Lemma substring_from_app (p r : string) :
  Text.substring_from (String.length p) (p ++ r) = r.
Proof.
  unfold Text.substring_from. induction p as [|a p IH]; simpl.
  - rewrite Nat.sub_0_r. apply substring_all.
  - exact IH.
Qed.

Lemma replace_first_prefix (p r : string) :
  p <> "" -> Text.replace_first_empty p (p ++ r) = r.
Proof.
  intros Hp. unfold Text.replace_first_empty.
  assert (E : String.index 0 p (p ++ r) = Some 0%nat).
  { destruct p as [|a p]; [now elim Hp|].
    change ((String a p) ++ r) with (String a (p ++ r)).
    cbn [String.index].
    pose proof (startsWith_app (String a p) r) as H.
    unfold Text.startsWith in H.
    change ((String a p) ++ r) with (String a (p ++ r)) in H.
    now rewrite H. }
  rewrite E. cbn [String.substring Nat.add].
  destruct (p ++ r) eqn:E'; cbn [String.substring append];
    rewrite <- E'; apply substring_from_app.
Qed.

(** The carriage return that [println] leaves at the end of a line is
    trimmed away. *)
Lemma trim_end_cr (s : string) :
  Text.no_space s = true -> Text.trim_end (s ++ String "013" "") = s.
Proof.
  unfold Text.no_space. induction s as [|c s IH]; intros H.
  - reflexivity.
  - cbn [list_ascii_of_string forallb] in H.
    apply andb_prop in H as [Hc Hs].
    cbn [append Text.trim_end]. rewrite (IH Hs).
    destruct s; [|reflexivity].
    apply negb_true_iff in Hc. now rewrite Hc.
Qed.

Lemma no_space_app (s t : string) :
  Text.no_space s = true -> Text.no_space t = true -> Text.no_space (s ++ t) = true.
Proof.
  unfold Text.no_space. induction s as [|c s IH]; intros Hs Ht; [exact Ht|].
  cbn [append list_ascii_of_string forallb] in *.
  apply andb_prop in Hs as [Hc Hs]. rewrite Hc. now apply IH.
Qed.

Lemma no_space_uint (d : Decimal.uint) :
  Text.no_space (NilEmpty.string_of_uint d) = true.
Proof. induction d; try reflexivity; exact IHd. Qed.

Lemma no_space_String_of_int (z : Z) : Text.no_space (Text.String_of_int z) = true.
Proof.
  unfold Text.String_of_int, NilZero.string_of_int, NilZero.string_of_uint.
  destruct (Z.to_int z) as [d|d].
  - destruct d; try reflexivity; apply (no_space_uint (_ d)).
  - change (Text.no_space ("-" ++ match d with
                             | Decimal.Nil => "0"
                             | _ => NilEmpty.string_of_uint d
                             end) = true).
    apply no_space_app; [reflexivity|].
    destruct d; try reflexivity; apply (no_space_uint (_ d)).
Qed.

Lemma digits_value_uint (d : Decimal.uint) :
  forall acc,
    Text.digits_value (NilEmpty.string_of_uint d) acc = Text.uint_value d acc.
Proof.
  induction d; intros acc;
    cbn [NilEmpty.string_of_uint Text.digits_value Text.uint_value];
    try reflexivity; cbn; apply IHd.
Qed.

Lemma uint_value_acc (d : Decimal.uint) :
  forall acc : positive,
    Text.uint_value d (Zpos acc) = Zpos (Pos.of_uint_acc d acc).
Proof.
  induction d; intros acc; cbn [Text.uint_value Pos.of_uint_acc];
    try reflexivity; rewrite <- IHd; f_equal; lia.
Qed.

Lemma uint_value_of_uint (d : Decimal.uint) : Text.uint_value d 0 = Z.of_uint d.
Proof.
  unfold Z.of_uint.
  induction d; cbn [Text.uint_value Pos.of_uint]; try reflexivity;
    try (exact IHd);
    cbn [Z.mul Z.add]; rewrite uint_value_acc; reflexivity.
Qed.

Lemma wrap_signed_small (w z : Z) :
  0 < w -> - 2 ^ (w - 1) <= z < 2 ^ (w - 1) -> Text.wrap_signed w z = z.
Proof.
  intros Hw Hz. unfold Text.wrap_signed.
  assert (E : 2 ^ w = 2 * 2 ^ (w - 1)).
  { replace w with (Z.succ (w - 1)) at 1 by lia. apply Z.pow_succ_r. lia. }
  rewrite Z.mod_small; lia.
Qed.

Lemma wrap_small_16_32 (z : Z) :
  - 32768 <= z <= 32767 ->
  Text.wrap_signed 16 (Text.wrap_signed 32 z) = z.
Proof.
  intros Hz.
  assert (E32 : Text.wrap_signed 32 z = z).
  { apply wrap_signed_small; [lia|].
    change (2 ^ (32 - 1)) with 2147483648. lia. }
  rewrite E32. apply wrap_signed_small; [lia|].
  change (2 ^ (16 - 1)) with 32768. lia.
Qed.

Lemma atol_digits (d : Decimal.uint) :
  Text.atol (NilZero.string_of_uint d) = Text.wrap_signed 32 (Z.of_uint d).
Proof.
  rewrite <- uint_value_of_uint. unfold NilZero.string_of_uint.
  destruct d; try (unfold Text.atol;
                   cbn [NilEmpty.string_of_uint Text.trim_start];
                   rewrite <- digits_value_uint; reflexivity).
Qed.

(** Reading back what [String(int)] printed gives the same [int]. *)
Lemma toInt_String_of_int (z : Z) :
  - 32768 <= z <= 32767 -> Text.toInt (Text.String_of_int z) = z.
Proof.
  intros Hz. unfold Text.toInt, Text.String_of_int.
  pose proof (DecimalZ.of_to z) as E.
  destruct (Z.to_int z) as [d|d]; cbn [NilZero.string_of_int Z.of_int] in *.
  - rewrite atol_digits, E. now apply wrap_small_16_32.
  - assert (Ea : Text.atol (String "-" (NilZero.string_of_uint d))
                 = Text.wrap_signed 32 (- Z.of_uint d)).
    { rewrite <- uint_value_of_uint. unfold Text.atol. cbn [Text.trim_start].
      change (Text.isspace "-") with false. cbv iota.
      unfold NilZero.string_of_uint.
      destruct d; try (rewrite <- digits_value_uint; reflexivity). }
    rewrite Ea, E. now apply wrap_small_16_32.
Qed.

End TextFacts.

(** ** The command protocol between host and device *)

Section ProtocolFacts.
Import Binary32 Firmware SerialService.
Local Open Scope string_scope.
Variables c_sqrt c_atan : float -> float.
Variable c_pow : float -> float -> float.
Variables accReads gyroReads : nat -> Z * Z * Z.
Variable JSON_parse : string -> option Schema.json.
Variable parseInt : option string -> Schema.number.

Lemma handle_SET_EXERCISE (arg : string) (d : Device) :
  handleBluetoothCommand c_sqrt c_atan c_pow accReads gyroReads
    ("SET_EXERCISE:" ++ arg) d
  = (set_exercise d (Text.toInt arg),
     ["EXERCISE_SET:" ++ Text.String_of_int (Text.toInt arg)]).
Proof.
  unfold handleBluetoothCommand.
  assert (Text.startsWith ("SET_EXERCISE:" ++ arg) "START_SESSION:" = false)
    as -> by reflexivity.
  assert (String.eqb ("SET_EXERCISE:" ++ arg) "STOP_SESSION" = false)
    as -> by reflexivity.
  rewrite startsWith_app.
  pose proof (substring_from_app "SET_EXERCISE:" arg) as E.
  change (String.length "SET_EXERCISE:") with 13%nat in E. now rewrite E.
Qed.


Lemma unrecognized_is_message (data : string) :
  recognized data = false ->
  handleArduinoData JSON_parse parseInt data = Normal [Emit (Message data)].
Proof.
  unfold recognized, handleArduinoData, classify. intros H.
  repeat (apply orb_false_elim in H as [H ?]).
  repeat match goal with E : _ = false |- _ => rewrite E; clear E end.
  reflexivity.
Qed.

Lemma EXERCISE_SET_unrecognized (rest : string) :
  recognized ("EXERCISE_SET:" ++ rest) = false.
Proof. reflexivity. Qed.

(** C10: the device answers every [SET_EXERCISE:<mode>] command with
    the line [EXERCISE_SET:<mode>], the mode being the integer it read;
    [EXERCISE_SET:] is none of the tags the host parser tests for, so
    the host emits such a line, once trimmed, as a plain [message] event:
    neither a typed acknowledgment nor a parse error. *)
Theorem exercise_ack_is_plain_message :
  forall (arg : string) (d : Device),
    let r := handleBluetoothCommand c_sqrt c_atan c_pow accReads gyroReads
               ("SET_EXERCISE:" ++ arg) d in
    let ack := "EXERCISE_SET:" ++ Text.String_of_int (Text.toInt arg) in
    snd r = [ack]
    /\ exerciseType (fst r) = Text.toInt arg
    /\ (forall mode : Z,
           - 32768 <= mode <= 32767 -> arg = Text.String_of_int mode ->
           ack = "EXERCISE_SET:" ++ arg /\ exerciseType (fst r) = mode)
    /\ on_data JSON_parse parseInt (ack ++ String "013" "")
       = Normal [Emit (Message ack)]
    /\ forall rest,
         recognized ("EXERCISE_SET:" ++ rest) = false
         /\ handleArduinoData JSON_parse parseInt ("EXERCISE_SET:" ++ rest)
            = Normal [Emit (Message ("EXERCISE_SET:" ++ rest))].
Proof.
  intros arg d r ack. subst r. rewrite handle_SET_EXERCISE.
  cbn [fst snd set_exercise exerciseType]. fold ack.
  split; [reflexivity|]. split; [reflexivity|]. split; [|split].
  - intros mode Hm ->. subst ack. now rewrite toInt_String_of_int.
  - unfold on_data, Text.trim.
    assert (Text.trim_start (ack ++ String "013" "") = ack ++ String "013" "")
      as -> by reflexivity.
    rewrite trim_end_cr.
    + now apply unrecognized_is_message.
    + apply no_space_app; [reflexivity|apply no_space_String_of_int].
  - intros rest. split; [reflexivity|].
    now apply unrecognized_is_message.
Qed.

End ProtocolFacts.

Lemma exercise_ack_is_plain_message_witness :
  let r := Firmware.handleBluetoothCommand
             Samples.c_sqrt Samples.c_atan Samples.c_pow
             Samples.still_acc Samples.still_gyro
             "SET_EXERCISE:2" (Samples.device Samples.cal0 "s1" true) in
  snd r = ["EXERCISE_SET:2"%string] /\ Firmware.exerciseType (fst r) = 2.
Proof.
  intros r.
  pose proof (exercise_ack_is_plain_message
                Samples.c_sqrt Samples.c_atan Samples.c_pow
                Samples.still_acc Samples.still_gyro
                Samples.JSON_parse Samples.parseInt
                "2" (Samples.device Samples.cal0 "s1" true))
    as [H1 [_ [H3 _]]].
  destruct (H3 2 ltac:(lia) eq_refl) as [_ H4].
  split; [exact H1|exact H4].
Defined.

(** ** Starting a session while one is active *)

Section SessionStartFacts.
Import Binary32 Firmware SerialService.
Local Open Scope string_scope.
Variables c_sqrt c_atan : float -> float.
Variable c_pow : float -> float -> float.
Variables accReads gyroReads : nat -> Z * Z * Z.
Variable JSON_parse : string -> option Schema.json.
Variable parseInt : option string -> Schema.number.



End SessionStartFacts.



(** ** The schema of a telemetry frame *)

Section SchemaFacts.
Import Schema.

Lemma digits2_pos_bounds (m : positive) :
  2 ^ (Zpos (digits2_pos m) - 1) <= Zpos m < 2 ^ Zpos (digits2_pos m).
Proof.
  induction m as [p IH|p IH|]; cbn [digits2_pos].
  - rewrite Pos2Z.inj_succ.
    replace (Z.succ (Zpos (digits2_pos p)) - 1)
      with (Z.succ (Zpos (digits2_pos p) - 1)) by lia.
    rewrite !Z.pow_succ_r by lia. lia.
  - rewrite Pos2Z.inj_succ.
    replace (Z.succ (Zpos (digits2_pos p)) - 1)
      with (Z.succ (Zpos (digits2_pos p) - 1)) by lia.
    rewrite !Z.pow_succ_r by lia. lia.
  - cbn. lia.
Qed.

Lemma multiple_ge (m k : Z) :
  0 < m -> 0 <= k -> m mod 2 ^ k = 0 -> 2 ^ k <= m.
Proof.
  intros Hm Hk H.
  assert (0 < 2 ^ k) by (apply Z.pow_pos_nonneg; lia).
  pose proof (Z.div_mod m (2 ^ k) ltac:(lia)) as E. rewrite H in E.
  assert (0 < m / 2 ^ k) by nia. nia.
Qed.

Lemma multiple_in_window (m P : Z) :
  0 < P -> P <= m < 2 * P -> m mod P = 0 -> m = P.
Proof.
  intros HP Hm H.
  pose proof (Z.div_mod m P ltac:(lia)) as E. rewrite H in E.
  assert (m / P = 1) by nia. nia.
Qed.

(** A binary64 value that is an integer, not below 0 and not above 2 is
    one of 0, -0, 1 and 2. *)
Lemma exercise_values (x : number) :
  valid_binary 53 1024 x = true ->
  isInteger x && negb (SFltb x (num_of_Z 0))
    && negb (SFltb (num_of_Z 2) x) = true ->
  x = S754_zero false \/ x = S754_zero true
  \/ x = num_of_Z 1 \/ x = num_of_Z 2.
Proof.
  intros Hv H. apply andb_prop in H as [H H2]. apply andb_prop in H as [Hi H0].
  destruct x as [s|s| |s m e]; try discriminate.
  - destruct s; auto.
  - destruct s; [discriminate|].
    cbn [valid_binary] in Hv.
    unfold bounded, canonical_mantissa, fexp, emin in Hv.
    apply andb_prop in Hv as [Hc _]. apply Z.eqb_eq in Hc.
    pose proof (digits2_pos_bounds m) as [Hd1 Hd2].
    set (dg := Zpos (digits2_pos m)) in *.
    assert (Hdg : 0 < dg) by (subst dg; lia).
    apply negb_true_iff in H2. unfold SFltb in H2.
    change (num_of_Z 2) with (S754_finite false 4503599627370496 (-51)) in H2.
    cbn [SFcompare] in H2.
    assert (He : e <= -51).
    { destruct (Z.compare_spec (-51) e); try lia; discriminate. }
    cbn [isInteger] in Hi.
    destruct (0 <=? e) eqn:E0; [apply Z.leb_le in E0; lia|].
    apply Z.eqb_eq in Hi.
    pose proof (multiple_ge (Zpos m) (- e) ltac:(lia) ltac:(lia) Hi) as Hge.
    assert (Hlt : - e < dg) by (apply (Z.pow_lt_mono_r_iff 2); lia).
    assert (Hdg53 : dg = 53) by lia.
    rewrite Hdg53 in Hd1, Hd2.
    assert (E53 : 2 ^ 53 = 2 * 2 ^ (53 - 1)) by reflexivity.
    rewrite E53 in Hd2. clear E53.
    assert (HP : 0 < 2 ^ (53 - 1)) by reflexivity.
    assert (E52 : 2 ^ (53 - 1) = 4503599627370496) by reflexivity.
    assert (e = -52 \/ e = -51) as [-> | ->] by lia.
    + right; right; left.
      change (- -52) with (53 - 1) in Hi.
      pose proof (multiple_in_window _ _ HP (conj Hd1 Hd2) Hi) as Hm.
      rewrite E52 in Hm. injection Hm as ->. reflexivity.
    + right; right; right.
      rewrite Z.compare_refl in H2.
      assert (Hm : (m <= 4503599627370496)%positive).
      { change (PosDef.Pos.compare_cont Eq 4503599627370496 m)
          with (4503599627370496 ?= m)%positive in H2.
        destruct (Pos.compare_spec 4503599627370496 m) as [E|E|E];
          try discriminate.
        - subst m. apply Pos.le_refl.
        - now apply Pos.lt_le_incl. }
      rewrite E52 in Hd1.
      assert (E : Zpos m = 4503599627370496)
        by (apply Z.le_antisymm; [exact Hm|exact Hd1]).
      injection E as ->. reflexivity.
Qed.

Lemma bind_some {A B} (o : option A) (f : A -> option B) (b : B) :
  bind o f = Some b -> exists a, o = Some a /\ f a = Some b.
Proof. destruct o as [a|]; simpl; [eauto|discriminate]. Qed.

(** What a frame accepted by the schema looks like. *)
Lemma accepted_frame (v : json) (d : ArduinoData) :
  arduinoDataSchema_parse v = Some d ->
  exists f,
    v = JObj f
    /\ z_string (get "sessionId" f) = Some (sessionId d)
    /\ z_number (get "timestamp" f) = Some (timestamp d)
    /\ z_exerciseType (get "exerciseType" f) = Some (exerciseType d)
    /\ z_rawSensorData (get "rawSensorData" f) = Some (rawSensorData d)
    /\ z_angles (get "angles" f) = Some (angles d)
    /\ z_number (get "kneeAngle" f) = Some (kneeAngle d)
    /\ z_number (get "temperature" f) = Some (temperature d).
Proof.
  destruct v as [| | | | |f]; try discriminate. cbn [arduinoDataSchema_parse].
  intros H. exists f. split; [reflexivity|].
  repeat (apply bind_some in H as [? [? H]]).
  injection H as <-. cbn. repeat split; assumption.
Qed.

End SchemaFacts.

(** ** The frame parser *)

Section ParserFacts.
Import Schema SerialService.
Local Open Scope string_scope.
Variable JSON_parse : string -> option json.
Variable parseInt : option string -> number.

Lemma handleArduinoData_total (data : string) :
  exists effects, handleArduinoData JSON_parse parseInt data = Normal effects.
Proof.
  unfold handleArduinoData, try_catch.
  destruct (classify JSON_parse parseInt data); eauto.
Qed.

Lemma on_lines_total (lines : list string) :
  exists effects, on_lines JSON_parse parseInt lines = Normal effects.
Proof.
  induction lines as [|l rest [e2 IH]]; cbn [on_lines]; [eauto|].
  unfold on_data.
  destruct (handleArduinoData_total (Text.trim l)) as [e1 E1].
  rewrite E1, IH. eauto.
Qed.

Lemma knee_data_line (payload : string) :
  handleArduinoData JSON_parse parseInt ("KNEE_DATA:" ++ payload)
  = match JSON_parse payload with
    | None => Normal [Emit (ParseError ("KNEE_DATA:" ++ payload))]
    | Some v =>
        match arduinoDataSchema_parse v with
        | None => Normal [Emit (ParseError ("KNEE_DATA:" ++ payload))]
        | Some d => Normal [Emit (KneeData d); StoreSensorReading d]
        end
    end.
Proof.
  unfold handleArduinoData, classify.
  rewrite startsWith_app, replace_first_prefix by discriminate.
  destruct (JSON_parse payload) as [v|]; [|reflexivity].
  destruct (arduinoDataSchema_parse v); reflexivity.
Qed.

Lemma z_number_present (o : option json) (x : number) :
  z_number o = Some x -> o = Some (JNum x) /\ x <> S754_nan.
Proof.
  destruct o as [[| |y| | |]|]; try discriminate.
  destruct y; simpl; intros H; try discriminate; injection H as <-; split;
    try reflexivity; discriminate.
Qed.

Lemma z_rawSensorData_present (o : option json) (r : RawSensorData) :
  z_rawSensorData o = Some r ->
  exists g,
    o = Some (JObj g)
    /\ get "accelX" g = Some (JNum (accelX r))
    /\ get "accelY" g = Some (JNum (accelY r))
    /\ get "accelZ" g = Some (JNum (accelZ r))
    /\ get "gyroX" g = Some (JNum (gyroX r))
    /\ get "gyroY" g = Some (JNum (gyroY r))
    /\ get "gyroZ" g = Some (JNum (gyroZ r)).
Proof.
  destruct o as [[| | | | |g]|]; try discriminate. cbn [z_rawSensorData].
  intros H. exists g. split; [reflexivity|].
  repeat (apply bind_some in H as [? [?E H]]).
  injection H as <-. cbn.
  repeat match goal with
         | E : z_number _ = Some _ |- _ =>
             apply z_number_present in E as [E _]
         end.
  repeat split; assumption.
Qed.

Lemma z_angles_present (o : option json) (r : Angles) :
  z_angles o = Some r ->
  exists a,
    o = Some (JObj a)
    /\ get "roll" a = Some (JNum (roll r))
    /\ get "pitch" a = Some (JNum (pitch r))
    /\ get "yaw" a = Some (JNum (yaw r)).
Proof.
  destruct o as [[| | | | |a]|]; try discriminate. cbn [z_angles].
  intros H. exists a. split; [reflexivity|].
  repeat (apply bind_some in H as [? [?E H]]).
  injection H as <-. cbn.
  repeat match goal with
         | E : z_number _ = Some _ |- _ =>
             apply z_number_present in E as [E _]
         end.
  repeat split; assumption.
Qed.

(** C6: handling a line never throws.  A line without one of the known
    tags yields a [message] event.  A [KNEE_DATA:] line yields a
    [parseError] event carrying the line when its payload is not JSON or
    does not match the schema, and the [kneeData] event otherwise; the
    schema asks for an object whose numeric fields are all present and
    whose exercise mode is an integer between 0 and 2.  The lines that
    follow are handled as if nothing had happened. *)
Theorem malformed_line_is_contained :
  forall (data : string),
    (exists effects, handleArduinoData JSON_parse parseInt data = Normal effects)
    /\ (recognized data = false -> handleArduinoData JSON_parse parseInt data = Normal [Emit (Message data)])
    /\ (forall payload,
           data = "KNEE_DATA:" ++ payload ->
           handleArduinoData JSON_parse parseInt data
           = match JSON_parse payload with
             | None => Normal [Emit (ParseError data)]
             | Some v =>
                 match arduinoDataSchema_parse v with
                 | None => Normal [Emit (ParseError data)]
                 | Some d => Normal [Emit (KneeData d); StoreSensorReading d]
                 end
             end)
    /\ (forall v d,
           arduinoDataSchema_parse v = Some d ->
           (exists f g a,
               v = JObj f
               /\ get "sessionId" f = Some (JStr (sessionId d))
               /\ get "timestamp" f = Some (JNum (timestamp d))
               /\ get "exerciseType" f = Some (JNum (exerciseType d))
               /\ get "kneeAngle" f = Some (JNum (kneeAngle d))
               /\ get "temperature" f = Some (JNum (temperature d))
               /\ get "rawSensorData" f = Some (JObj g)
               /\ get "accelX" g = Some (JNum (accelX (rawSensorData d)))
               /\ get "accelY" g = Some (JNum (accelY (rawSensorData d)))
               /\ get "accelZ" g = Some (JNum (accelZ (rawSensorData d)))
               /\ get "gyroX" g = Some (JNum (gyroX (rawSensorData d)))
               /\ get "gyroY" g = Some (JNum (gyroY (rawSensorData d)))
               /\ get "gyroZ" g = Some (JNum (gyroZ (rawSensorData d)))
               /\ get "angles" f = Some (JObj a)
               /\ get "roll" a = Some (JNum (roll (angles d)))
               /\ get "pitch" a = Some (JNum (pitch (angles d)))
               /\ get "yaw" a = Some (JNum (yaw (angles d))))
           /\ (valid_binary 53 1024 (exerciseType d) = true ->
               exerciseType d = S754_zero false \/ exerciseType d = S754_zero true
               \/ exerciseType d = num_of_Z 1 \/ exerciseType d = num_of_Z 2))
    /\ (forall rest,
           exists e1 e2,
             on_data JSON_parse parseInt data = Normal e1
             /\ on_lines JSON_parse parseInt rest = Normal e2
             /\ on_lines JSON_parse parseInt (data :: rest) = Normal (e1 ++ e2)%list).
Proof.
  intros data. split; [apply handleArduinoData_total|].
  split; [apply unrecognized_is_message|].
  split; [intros payload ->; apply knee_data_line|]. split.
  - intros v d H. destruct (accepted_frame v d H)
      as [f [-> [Hs [Ht [He [Hr [Ha [Hk Htmp]]]]]]]].
    split.
    + destruct (z_rawSensorData_present _ _ Hr) as [g [Eg Hg]].
      destruct (z_angles_present _ _ Ha) as [a [Ea Hang]].
      exists f, g, a. split; [reflexivity|].
      apply z_number_present in Ht as [Ht _], Hk as [Hk _], Htmp as [Htmp _].
      unfold z_exerciseType in He.
      destruct (z_number (get "exerciseType" f)) as [x|] eqn:Ex; [|discriminate].
      destruct (_ && _); [|discriminate]. injection He as <-.
      apply z_number_present in Ex as [Ex _].
      destruct (get "sessionId" f) as [[| | |sid| |]|]; try discriminate.
      injection Hs as <-.
      repeat (split; [assumption || reflexivity|]). tauto.
    + intros Hv. unfold z_exerciseType in He.
      destruct (z_number (get "exerciseType" f)) as [x|]; [|discriminate].
      destruct (isInteger x && negb (SFltb x (num_of_Z 0))
                && negb (SFltb (num_of_Z 2) x)) eqn:Ec; [|discriminate].
      injection He as E. rewrite <- E in *. now apply exercise_values.
  - intros rest.
    destruct (handleArduinoData_total (Text.trim data)) as [e1 E1].
    destruct (on_lines_total rest) as [e2 E2].
    exists e1, e2. cbn [on_lines]. unfold on_data.
    now rewrite E1, E2.
Qed.

End ParserFacts.

(** ** The connection life cycle *)

Section ConnectionFacts.
Import SerialService.

Lemma consistent_initial : consistent initial.
Proof. reflexivity. Qed.

Lemma isOpen_single (h : nat) (st : State) :
  live st = [h] -> isOpen h st = true.
Proof. unfold isOpen. intros ->. simpl. now rewrite Nat.eqb_refl. Qed.

Lemma isOpen_none (h : nat) (st : State) : live st = [] -> isOpen h st = false.
Proof. unfold isOpen. now intros ->. Qed.

Lemma disconnect_closes (st : State) :
  consistent st ->
  live (disconnect st) = [] /\ isConnected (disconnect st) = false
  /\ port (disconnect st) = None.
Proof.
  unfold consistent, disconnect. intros H.
  destruct (isConnected st) eqn:Ec, (port st) as [h|] eqn:Ep; try contradiction.
  - rewrite (isOpen_single h st H). cbn. rewrite H. cbn.
    now rewrite Nat.eqb_refl.
  - rewrite (isOpen_none h st H). cbn. auto.
  - cbn. auto.
Qed.

(** When [connect] reaches [new SerialPort], no handle is open. *)
Lemma connect_begin_closed (st : State) :
  consistent st ->
  live (fst (connect_begin st)) = []
  /\ isConnected (fst (connect_begin st)) = false
  /\ port (fst (connect_begin st)) = Some (snd (connect_begin st)).
Proof.
  intros H. unfold connect_begin. cbn [fst snd live isConnected port].
  destruct (isConnected st) eqn:Ec.
  - destruct (disconnect_closes st H) as [H1 [H2 _]]. auto.
  - unfold consistent in H. rewrite Ec in H. auto.
Qed.

Lemma call_consistent (st : State) (c : Call) :
  consistent st -> consistent (call st c).
Proof.
  intros H. destruct c as [portPath [|]| | |]; cbn [call].
  - destruct (connect_begin_closed st H) as [H1 [H2 H3]].
    destruct (connect_begin st) as [st1 h]. cbn [fst snd] in *.
    unfold consistent, on_open. cbn. now rewrite H3, H1.
  - destruct (connect_begin_closed st H) as [H1 [H2 H3]].
    destruct (connect_begin st) as [st1 h]. cbn [fst snd] in *.
    unfold consistent, on_error. cbn. now rewrite H2.
  - destruct (disconnect_closes st H) as [H1 [H2 H3]].
    unfold consistent. now rewrite H2.
  - destruct (port st) as [h|] eqn:Ep; [|exact H].
    destruct (isOpen h st) eqn:Eo; [|exact H].
    unfold consistent in *. cbn. rewrite Ep in H.
    destruct (isConnected st).
    + rewrite H. cbn. now rewrite Nat.eqb_refl.
    + rewrite (isOpen_none h st H) in Eo. discriminate.
  - destruct (port st) as [h|] eqn:Ep; [|exact H].
    destruct (isOpen h st) eqn:Eo; [|exact H].
    unfold consistent in *. cbn. now rewrite Ep in *.
Qed.






End ConnectionFacts.

(** Connecting to the same path again and again, with or without a
    disconnect in between: one open handle, one [connected] event per
    open. *)
Example reconnect_same_path :
  let st := SerialService.run
              [SerialService.Connect "COM3" true; SerialService.Disconnect;
               SerialService.Connect "COM3" true;
               SerialService.Connect "COM3" true] in
  SerialService.live st = [2%nat]
  /\ SerialService.emitted st
     = [SerialService.Connected "COM3"; SerialService.Disconnected;
        SerialService.Connected "COM3"; SerialService.Disconnected;
        SerialService.Connected "COM3"]
  /\ SerialService.serialPorts st
     = [{| SerialService.sp_path := "COM3"; SerialService.sp_isActive := true |}].
Proof. cbv zeta. repeat split. Qed.

Lemma malformed_line_is_contained_witness :
  let bad := ("KNEE_DATA:" ++ Samples.short_payload)%string in
  let good := ("KNEE_DATA:" ++ Samples.full_payload)%string in
  SerialService.handleArduinoData Samples.JSON_parse Samples.parseInt bad
  = SerialService.Normal [SerialService.Emit (SerialService.ParseError bad)]
  /\ SerialService.handleArduinoData Samples.JSON_parse Samples.parseInt good
     = SerialService.Normal
         [SerialService.Emit (SerialService.KneeData Samples.full_frame);
          SerialService.StoreSensorReading Samples.full_frame]
  /\ SerialService.handleArduinoData Samples.JSON_parse Samples.parseInt "BATTERY_LOW"
     = SerialService.Normal [SerialService.Emit (SerialService.Message "BATTERY_LOW")].
Proof.
  intros bad good.
  pose proof (malformed_line_is_contained Samples.JSON_parse Samples.parseInt bad)
    as [_ [_ [Hbad _]]].
  pose proof (malformed_line_is_contained Samples.JSON_parse Samples.parseInt good)
    as [_ [_ [Hgood _]]].
  pose proof (malformed_line_is_contained Samples.JSON_parse Samples.parseInt
                "BATTERY_LOW") as [_ [Hmsg _]].
  split; [exact (Hbad Samples.short_payload eq_refl)|].
  split; [exact (Hgood Samples.full_payload eq_refl)|].
  exact (Hmsg eq_refl).
Defined.

(** A line with a field missing, then a complete one, both ended by the
    carriage return [println] sends: a [parseError] event, then the
    frame. *)
Example bad_line_then_good_line :
  SerialService.on_lines Samples.JSON_parse Samples.parseInt
    [("KNEE_DATA:" ++ Samples.short_payload ++ String "013" "")%string;
     ("KNEE_DATA:" ++ Samples.full_payload ++ String "013" "")%string]
  = SerialService.Normal
      [SerialService.Emit
         (SerialService.ParseError ("KNEE_DATA:" ++ Samples.short_payload));
       SerialService.Emit (SerialService.KneeData Samples.full_frame);
       SerialService.StoreSensorReading Samples.full_frame].
Proof. vm_compute. reflexivity. Qed.

(** ** Waiting for the link *)

Section WaitingFacts.
Import SerialService.
Variable JSON_parse : string -> option Schema.json.
Variable parseInt : option string -> Schema.number.

Lemma connect_steps_settled (h : nat) (portPath : string)
      (events : list LinkEvent) :
  forall st p,
    settled p = true ->
    snd (fold_left (connect_step JSON_parse parseInt h portPath) events (st, p))
    = p.
Proof.
  induction events as [|e rest IH]; intros st p Hp; [reflexivity|].
  cbn [fold_left]. destruct e; cbn [connect_step];
    try (rewrite IH; [reflexivity|exact Hp]).
  - destruct p; try discriminate; (rewrite IH; [reflexivity|exact Hp]).
  - destruct p; try discriminate; (rewrite IH; [reflexivity|exact Hp]).
Qed.

Lemma connect_steps_pending (h : nat) (portPath : string)
      (events : list LinkEvent) :
  forall st,
    snd (fold_left (connect_step JSON_parse parseInt h portPath) events
                   (st, Pending))
    = connect_outcome events.
Proof.
  induction events as [|e rest IH]; intros st; [reflexivity|].
  cbn [fold_left]. unfold connect_outcome. cbn [find].
  destruct e; cbn [connect_step settles];
    try (rewrite IH; reflexivity);
    now rewrite connect_steps_settled.
Qed.

Lemma sendSensorData_outcome (l : bool) (events : list N8nService.FetchEvent) :
  forall c p,
    settled (snd (fold_left (N8nService.sendSensorData_step l) events (c, p)))
    = (settled p || existsb N8nService.answers events)%bool.
Proof.
  induction events as [|e rest IH]; intros c p.
  - cbn. now rewrite orb_false_r.
  - cbn [fold_left existsb].
    destruct p, e; cbn [N8nService.sendSensorData_step]; rewrite IH;
      try reflexivity; destruct l; reflexivity.
Qed.

(** C9 (as amended): the three operations carry no timer of their own.
    The promise of [connect] is settled by the first ['open'] (resolved)
    or ['error'] (rejected) of the link and by nothing else: without
    either it stays pending however much time passes.  [sendCommand]
    answers [false] at once when the service is not connected and
    otherwise waits for the callback of the write.  [sendSensorData]
    waits until its [fetch] answers or fails. *)
Theorem connect_settles_only_on_open_or_error :
  forall (st : State) (portPath : string) (events : list LinkEvent),
    snd (connect_then JSON_parse parseInt st portPath events)
    = connect_outcome events
    /\ (existsb settles events = false ->
        snd (connect_then JSON_parse parseInt st portPath events) = Pending)
    /\ (forall command,
           fst (sendCommand_begin st command)
           = match port st with
             | Some _ => if isConnected st then Pending else Resolved false
             | None => Resolved false
             end)
    /\ (forall l c fetchEvents,
           settled (snd (N8nService.sendSensorData l c fetchEvents))
           = existsb N8nService.answers fetchEvents).
Proof.
  intros st portPath events.
  assert (H : snd (connect_then JSON_parse parseInt st portPath events)
              = connect_outcome events).
  { unfold connect_then. destruct (connect_begin st) as [st1 h].
    apply connect_steps_pending. }
  split; [exact H|]. split; [|split].
  - intros Hn. rewrite H. unfold connect_outcome.
    destruct (find settles events) as [e|] eqn:Ef; [|reflexivity].
    apply find_some in Ef as [Hin He].
    assert (existsb settles events = true)
      by (apply existsb_exists; eauto).
    congruence.
  - intros command. unfold sendCommand_begin.
    destruct (port st); [destruct (isConnected st)|]; reflexivity.
  - intros l c fetchEvents. unfold N8nService.sendSensorData.
    now rewrite sendSensorData_outcome.
Qed.

End WaitingFacts.

Lemma connect_settles_only_on_open_or_error_witness :
  snd (SerialService.connect_then Samples.JSON_parse Samples.parseInt
         SerialService.initial "/dev/rfcomm0"
         [SerialService.TimePasses 60000; SerialService.Data "SYSTEM_READY";
          SerialService.TimePasses 3600000])
  = SerialService.Pending.
Proof.
  exact (proj1 (proj2 (connect_settles_only_on_open_or_error
                         Samples.JSON_parse Samples.parseInt
                         SerialService.initial "/dev/rfcomm0"
                         [SerialService.TimePasses 60000;
                          SerialService.Data "SYSTEM_READY";
                          SerialService.TimePasses 3600000]))
               eq_refl).
Defined.

(** C9, as first stated, fails: no bound on the waiting time makes the
    promise of [connect] settle when the link neither opens nor reports
    an error. *)
Lemma bounded_wait_counterexample :
  ~ exists bound : Z,
      forall events,
        bound <= SerialService.elapsed events ->
        SerialService.settled
          (snd (SerialService.connect_then Samples.JSON_parse Samples.parseInt
                  SerialService.initial "/dev/rfcomm0" events)) = true.
Proof.
  intros [bound H].
  specialize (H [SerialService.TimePasses bound]).
  cbn in H. specialize (H ltac:(lia)). discriminate.
Qed.

(** ** The telemetry document and the device's session flag *)

Section TelemetryFacts.
Import Binary32 Firmware.
Variables c_sqrt c_atan : float -> float.
Variable c_pow : float -> float -> float.

Lemma nan_to_not_nan (dflt x : float) :
  isnan dflt = false -> isnan (nan_to dflt x) = false.
Proof. unfold nan_to. destruct (isnan x) eqn:E; auto. Qed.

(** X1: whatever the globals hold, no number of the document built by
    [sendKneeAngleData] is NaN, its joint angle is finite and lies in
    [0, 160], and its time stamp is a 32-bit unsigned value. *)
Theorem telemetry_document_is_well_formed :
  forall (d : Device) (ms : Z),
    let doc := sendKneeAngleData d ms in
    forallb (fun x => negb (isnan x))
            [doc_accelX doc; doc_accelY doc; doc_accelZ doc;
             doc_gyroX doc; doc_gyroY doc; doc_gyroZ doc;
             doc_roll doc; doc_pitch doc; doc_yaw doc;
             doc_kneeAngle doc; doc_temperature doc] = true
    /\ is_finite (doc_kneeAngle doc) = true
    /\ le (of_int 0) (doc_kneeAngle doc) = true
    /\ le (doc_kneeAngle doc) (of_int 160) = true
    /\ 0 <= doc_timestamp doc < 2 ^ 32.
Proof.
  intros d ms doc.
  destruct (getKneeAngle_range (exerciseType d) (roll (orient d))
                               (pitch (orient d))) as [Hf [Hlo Hhi]].
  split; [|split; [exact Hf|split; [exact Hlo|split; [exact Hhi|]]]].
  - cbn [forallb]. subst doc. cbn [sendKneeAngleData doc_accelX doc_accelY
      doc_accelZ doc_gyroX doc_gyroY doc_gyroZ doc_roll doc_pitch doc_yaw
      doc_kneeAngle doc_temperature].
    rewrite !nan_to_not_nan by reflexivity.
    rewrite (is_finite_not_nan _ Hf). reflexivity.
  - subst doc. cbn [sendKneeAngleData doc_timestamp].
    apply Z.mod_pos_bound. reflexivity.
Qed.

Lemma handleBluetoothCommand_idle accReads gyroReads command d :
  (isRecording d = false -> sessionId d = EmptyString) ->
  let d' := fst (handleBluetoothCommand c_sqrt c_atan c_pow accReads gyroReads
                   command d) in
  isRecording d' = false -> sessionId d' = EmptyString.
Proof.
  intros H. unfold handleBluetoothCommand.
  repeat (match goal with
          | |- context [if ?b then _ else _] => destruct b
          end; cbn [fst set_session set_exercise isRecording sessionId]);
    try exact H; try (intros; congruence).
  destruct (calibrateMPU6050 _ _ _ _ _). exact H.
Qed.

Lemma loop_idle (d : Device) (i : LoopInput) :
  (isRecording d = false -> sessionId d = EmptyString) ->
  let d' := fst (loop c_sqrt c_atan c_pow d i) in
  isRecording d' = false -> sessionId d' = EmptyString.
Proof.
  intros H. unfold loop.
  pose proof (handleBluetoothCommand_idle (accReads i) (gyroReads i)) as Hc.
  assert (H1 : let d1 := fst match incoming i with
                             | Some command =>
                                 handleBluetoothCommand
                                   c_sqrt c_atan c_pow (accReads i) (gyroReads i)
                                   (Text.trim command) d
                             | None => (d, [])
                             end in
               isRecording d1 = false -> sessionId d1 = EmptyString).
  { destruct (incoming i); [apply Hc|]; exact H. }
  destruct (match incoming i with Some _ => _ | None => _ end) as [d1 out1].
  cbn [fst] in H1.
  destruct (100 <=? _); cbn [fst]; exact H1.
Qed.

(** X2: from [setup()] on, after every pass of [loop()] and whatever
    commands arrive, a device that is not recording holds the empty
    session id. *)
Theorem idle_device_has_no_session :
  forall accReads gyroReads ms (inputs : list LoopInput),
    Forall (fun d => isRecording d = false -> sessionId d = EmptyString)
           (loop_states c_sqrt c_atan c_pow
              (fst (setup c_sqrt c_atan c_pow accReads gyroReads ms)) inputs).
Proof.
  intros accReads gyroReads ms inputs.
  assert (H0 : isRecording (fst (setup c_sqrt c_atan c_pow accReads gyroReads ms))
               = false ->
               sessionId (fst (setup c_sqrt c_atan c_pow accReads gyroReads ms))
               = EmptyString).
  { unfold setup. destruct (calibrateMPU6050 _ _ _ _ _). reflexivity. }
  revert H0. generalize (fst (setup c_sqrt c_atan c_pow accReads gyroReads ms)).
  induction inputs as [|i rest IH]; intros d Hd; cbn [loop_states].
  - constructor.
  - constructor; [|apply IH]; now apply loop_idle.
Qed.

End TelemetryFacts.

(** ** Telemetry over a run of the device *)

Section DeviceRunFacts.
Import Binary32 Firmware DeviceRun.
Variables c_sqrt c_atan : float -> float.
Variable c_pow : float -> float -> float.

Lemma handleBluetoothCommand_previousMillis accReads gyroReads command d :
  previousMillis (fst (handleBluetoothCommand c_sqrt c_atan c_pow
                         accReads gyroReads command d))
  = previousMillis d.
Proof.
  unfold handleBluetoothCommand.
  repeat (match goal with
          | |- context [if ?b then _ else _] => destruct b
          end; cbn [fst set_session set_exercise previousMillis]);
    try reflexivity.
  destruct (calibrateMPU6050 _ _ _ _ _). reflexivity.
Qed.

(** A command other than [START_SESSION:] leaves an idle device idle. *)
Lemma handleBluetoothCommand_stays_idle accReads gyroReads command d :
  Text.startsWith command "START_SESSION:" = false ->
  isRecording d = false ->
  isRecording (fst (handleBluetoothCommand c_sqrt c_atan c_pow
                      accReads gyroReads command d)) = false.
Proof.
  intros Hs Hd. unfold handleBluetoothCommand. rewrite Hs.
  repeat (match goal with
          | |- context [if ?b then _ else _] => destruct b
          end; cbn [fst set_session set_exercise isRecording]);
    try reflexivity; try exact Hd.
  destruct (calibrateMPU6050 _ _ _ _ _). exact Hd.
Qed.

(** A pass that ends with the device idle sends no telemetry. *)
Lemma loop_idle_is_silent (d : Device) (i : LoopInput) :
  isRecording (fst (loop c_sqrt c_atan c_pow d i)) = false ->
  existsb is_telemetry (snd (loop c_sqrt c_atan c_pow d i)) = false.
Proof.
  unfold loop.
  destruct (match incoming i with Some _ => _ | None => _ end) as [d1 out1].
  assert (Hl : existsb is_telemetry (map BtLine out1) = false)
    by (induction out1; [reflexivity|exact IHout1]).
  destruct (100 <=? _); cbn [fst snd]; intros H; [|exact Hl].
  rewrite H, app_nil_r. exact Hl.
Qed.

Lemma loop_stays_idle (d : Device) (i : LoopInput) :
  starts_session i = false -> isRecording d = false ->
  isRecording (fst (loop c_sqrt c_atan c_pow d i)) = false.
Proof.
  unfold loop. intros Hs Hd.
  assert (H1 : isRecording
                 (fst match incoming i with
                      | Some command =>
                          handleBluetoothCommand
                            c_sqrt c_atan c_pow (accReads i) (gyroReads i)
                            (Text.trim command) d
                      | None => (d, [])
                      end) = false).
  { unfold starts_session in Hs.
    destruct (incoming i);
      [now apply handleBluetoothCommand_stays_idle|exact Hd]. }
  destruct (match incoming i with Some _ => _ | None => _ end) as [d1 out1].
  cbn [fst] in H1. destruct (100 <=? _); exact H1.
Qed.

Lemma loop_stop_is_idle (d : Device) (i : LoopInput) :
  stops_session i = true ->
  isRecording (fst (loop c_sqrt c_atan c_pow d i)) = false.
Proof.
  unfold stops_session, loop. intros Hs.
  destruct (incoming i) as [command|]; [|discriminate].
  apply String.eqb_eq in Hs. rewrite Hs.
  cbn [handleBluetoothCommand]. unfold handleBluetoothCommand.
  cbn. destruct (100 <=? _); reflexivity.
Qed.

Lemma idle_run_is_silent (inputs : list LoopInput) :
  forall d,
    isRecording d = false ->
    existsb starts_session inputs = false ->
    existsb is_telemetry (loop_outputs c_sqrt c_atan c_pow d inputs) = false.
Proof.
  induction inputs as [|i rest IH]; intros d Hd Hs; [reflexivity|].
  cbn [existsb] in Hs. apply orb_false_elim in Hs as [Hi Hrest].
  cbn [loop_outputs].
  pose proof (loop_stays_idle d i Hi Hd) as H1.
  pose proof (loop_idle_is_silent d i H1) as H2.
  destruct (loop c_sqrt c_atan c_pow d i) as [d' out]. cbn [fst snd] in *.
  rewrite existsb_app, H2. cbn [orb]. now apply IH.
Qed.

(** X3: the device sends telemetry only inside a session.  From
    [setup()] on nothing is sent as long as no [START_SESSION:] command
    arrives; and from the pass that reads [STOP_SESSION] on, whatever the
    device held, nothing is sent until the next [START_SESSION:]. *)
Theorem no_telemetry_outside_a_session :
  forall accReads gyroReads ms (d : Device) (i : LoopInput)
         (inputs : list LoopInput),
    existsb starts_session inputs = false ->
    existsb is_telemetry
      (loop_outputs c_sqrt c_atan c_pow
         (fst (setup c_sqrt c_atan c_pow accReads gyroReads ms)) inputs) = false
    /\ (stops_session i = true ->
        existsb is_telemetry
          (loop_outputs c_sqrt c_atan c_pow d (i :: inputs)) = false).
Proof.
  intros accReads gyroReads ms d i inputs Hs. split.
  - apply idle_run_is_silent; [|exact Hs].
    unfold setup. destruct (calibrateMPU6050 _ _ _ _ _). reflexivity.
  - intros Hi. cbn [loop_outputs].
    pose proof (loop_stop_is_idle d i Hi) as H1.
    pose proof (loop_idle_is_silent d i H1) as H2.
    destruct (loop c_sqrt c_atan c_pow d i) as [d' out]. cbn [fst snd] in *.
    rewrite existsb_app, H2. cbn [orb]. now apply idle_run_is_silent.
Qed.

(** X4: the telemetry period is measured in wrapped 32-bit arithmetic,
    so it survives the roll-over of [millis()].  When [e] milliseconds
    have truly passed since the last tick, a recording device that reads
    no command sends nothing and keeps its state if [e < 100], and sends
    exactly one frame, under its session id and mode, if [100 <= e]:
    whether or not the counter wrapped in between. *)
Theorem telemetry_period_survives_rollover :
  forall (d : Device) (i : LoopInput) (e : Z),
    0 <= previousMillis d < 2 ^ 32 ->
    0 <= e < 2 ^ 32 ->
    now_loop i = previousMillis d + e ->
    incoming i = None ->
    isRecording d = true ->
    let r := loop c_sqrt c_atan c_pow d i in
    (e < 100 -> r = (d, []))
    /\ (100 <= e ->
        exists doc,
          snd r = [BtKneeData doc]
          /\ doc_sessionId doc = sessionId d
          /\ doc_exerciseType doc = exerciseType d
          /\ sessionId (fst r) = sessionId d
          /\ previousMillis (fst r) = (previousMillis d + e) mod 2 ^ 32
          /\ 0 <= previousMillis (fst r) < 2 ^ 32).
Proof.
  intros d i e Hp He Hnow Hin Hrec r. subst r. unfold loop.
  rewrite Hin, Hnow.
  assert (E : ((previousMillis d + e) mod 2 ^ 32 - previousMillis d) mod 2 ^ 32
              = e).
  { rewrite Zminus_mod_idemp_l.
    replace (previousMillis d + e - previousMillis d) with e by lia.
    apply Z.mod_small. exact He. }
  rewrite E. split; intros H.
  - apply Z.leb_gt in H. rewrite H. reflexivity.
  - apply Z.leb_le in H. rewrite H.
    cbn [fst snd estimator_tick set_previousMillis isRecording map app].
    rewrite Hrec. eexists. split; [reflexivity|].
    cbn [sendKneeAngleData doc_sessionId doc_exerciseType sessionId
         exerciseType previousMillis].
    repeat split; try reflexivity; apply Z.mod_pos_bound; reflexivity.
Qed.

End DeviceRunFacts.

(** ** Framing of lines between device and host *)

Section FramingFacts.
Local Open Scope string_scope.

Lemma append_empty_r (s : string) : s ++ "" = s.
Proof. induction s as [|c s IH]; cbn; [reflexivity|now rewrite IH]. Qed.

Lemma append_assoc (a b c : string) : (a ++ b) ++ c = a ++ (b ++ c).
Proof. induction a as [|x a IH]; cbn; [reflexivity|now rewrite IH]. Qed.

(** Trailing white space is trimmed through whatever precedes it. *)
Lemma trim_end_app (a b : string) :
  Text.trim_end (a ++ b)
  = match Text.trim_end b with
    | "" => Text.trim_end a
    | b' => a ++ b'
    end.
Proof.
  induction a as [|c a IH].
  - cbn [append Text.trim_end]. now destruct (Text.trim_end b).
  - cbn [append Text.trim_end]. rewrite IH.
    destruct (Text.trim_end b) as [|x y]; [reflexivity|].
    destruct a; reflexivity.
Qed.


(** Behind a prefix that ends in a visible character, trimming the end
    reaches no further than the suffix. *)
Lemma trim_end_prefix (p s : string) :
  Text.trim_end p = p -> Text.trim_end (p ++ s) = p ++ Text.trim_end s.
Proof.
  intros Hp. rewrite trim_end_app.
  destruct (Text.trim_end s); [now rewrite append_empty_r|reflexivity].
Qed.

Lemma contains_app (c : ascii) (a b : string) :
  Wire.contains c (a ++ b) = Wire.contains c a || Wire.contains c b.
Proof.
  induction a as [|x a IH]; cbn [append Wire.contains]; [reflexivity|].
  now rewrite IH, orb_assoc.
Qed.

(** Splitting stops at the first separator. *)
Lemma split_first (c : ascii) (l rest : string) :
  Wire.contains c l = false ->
  Text.split c (l ++ String c rest) = l :: Text.split c rest.
Proof.
  induction l as [|a l IH]; intros H.
  - cbn [append Text.split]. now rewrite Ascii.eqb_refl.
  - cbn [Wire.contains] in H. apply orb_false_elim in H as [Ha Hl].
    cbn [append Text.split]. now rewrite Ha, (IH Hl).
Qed.

Lemma split_none (c : ascii) (l : string) :
  Wire.contains c l = false -> Text.split c l = [l].
Proof.
  induction l as [|a l IH]; intros H; [reflexivity|].
  cbn [Wire.contains] in H. apply orb_false_elim in H as [Ha Hl].
  cbn [Text.split]. now rewrite Ha, (IH Hl).
Qed.

(** One printed line without a line feed of its own comes out of the
    line parser as one line, its carriage return still attached. *)
Lemma readline_println (l : string) :
  Wire.contains Wire.LF l = false ->
  Wire.readline "" (Wire.transmit [l]) = ([l ++ String Wire.CR ""], "").
Proof.
  intros H. unfold Wire.readline, Wire.transmit, Wire.println.
  cbn [fold_right append]. rewrite append_empty_r.
  change (l ++ String Wire.CR (String Wire.LF ""))
    with (l ++ (String Wire.CR "" ++ String Wire.LF "")).
  rewrite <- append_assoc, split_first; [reflexivity|].
  rewrite contains_app, H. reflexivity.
Qed.

Lemma int_chars_uint (d : Decimal.uint) :
  forallb Wire.int_char (list_ascii_of_string (NilEmpty.string_of_uint d)) = true.
Proof. induction d; try reflexivity; exact IHd. Qed.

Lemma int_chars_String_of_int (z : Z) :
  forallb Wire.int_char (list_ascii_of_string (Text.String_of_int z)) = true.
Proof.
  unfold Text.String_of_int, NilZero.string_of_int, NilZero.string_of_uint.
  destruct (Z.to_int z) as [d|d].
  - destruct d; try reflexivity; apply (int_chars_uint (_ d)).
  - change (forallb Wire.int_char
              (list_ascii_of_string
                 (String "-" match d with
                             | Decimal.Nil => "0"
                             | _ => NilEmpty.string_of_uint d
                             end)) = true).
    cbn [list_ascii_of_string forallb].
    destruct d; try reflexivity; apply (int_chars_uint (_ d)).
Qed.

Lemma contains_none (c : ascii) (P : ascii -> bool) (s : string) :
  P c = false -> forallb P (list_ascii_of_string s) = true ->
  Wire.contains c s = false.
Proof.
  intros Hc. induction s as [|a s IH]; intros H; [reflexivity|].
  cbn [list_ascii_of_string forallb] in H. apply andb_prop in H as [Ha Hs].
  cbn [Wire.contains]. rewrite (IH Hs), orb_false_r.
  destruct (Ascii.eqb a c) eqn:E; [|reflexivity].
  apply Ascii.eqb_eq in E. congruence.
Qed.

Lemma String_of_int_nonempty (z : Z) : Text.String_of_int z <> "".
Proof.
  unfold Text.String_of_int, NilZero.string_of_int, NilZero.string_of_uint.
  destruct (Z.to_int z) as [d|d]; [|discriminate].
  destruct d; discriminate.
Qed.

End FramingFacts.

(** ** Round trips between host, device and page *)

Section RoundTripFacts.
Import Binary32 Firmware SerialService.
Local Open Scope string_scope.
Variables c_sqrt c_atan : float -> float.
Variable c_pow : float -> float -> float.
Variables accReads gyroReads : nat -> Z * Z * Z.
Variable JSON_parse : string -> option Schema.json.
Variable parseInt : option string -> Schema.number.


End RoundTripFacts.

Section StatusFacts.
Import Binary32 Firmware SerialService.
Local Open Scope string_scope.
Variables c_sqrt c_atan : float -> float.
Variable c_pow : float -> float -> float.
Variables accReads gyroReads : nat -> Z * Z * Z.
Variable JSON_parse : string -> option Schema.json.
Variable parseInt : option string -> Schema.number.

(** X6: the status report survives the link when the session id holds
    neither a colon nor a line feed.  The line the device prints in
    answer to [GET_STATUS] reaches the host as one [status] event that
    carries the device's recording flag and session id, and as exercise
    type what [parseInt] reads from the printed integer. *)
Theorem status_report_round_trip :
  forall (d : Device),
    Wire.contains ":" (Firmware.sessionId d) = false ->
    Wire.contains Wire.LF (Firmware.sessionId d) = false ->
    let r := handleBluetoothCommand c_sqrt c_atan c_pow accReads gyroReads
               "GET_STATUS" d in
    exists lines,
      fst r = d
      /\ Wire.readline "" (Wire.transmit (snd r)) = (lines, "")
      /\ on_lines JSON_parse parseInt lines
         = Normal [Emit (Status (isRecording d) (Firmware.sessionId d)
                           (or_zero
                              (parseInt
                                 (Some (Text.String_of_int
                                          (Firmware.exerciseType d))))))].
Proof.
  intros d Hcolon Hlf r. subst r.
  set (flag := if isRecording d then "RECORDING" else "IDLE").
  set (n := Text.String_of_int (Firmware.exerciseType d)).
  set (rest := flag ++ ":" ++ Firmware.sessionId d ++ ":" ++ n).
  assert (Hr : handleBluetoothCommand c_sqrt c_atan c_pow accReads gyroReads
                 "GET_STATUS" d = (d, ["STATUS:" ++ rest])) by reflexivity.
  rewrite Hr. cbn [fst snd].
  assert (Hn_lf : Wire.contains Wire.LF n = false)
    by (apply (contains_none _ Wire.int_char);
        [reflexivity|apply int_chars_String_of_int]).
  assert (Hn_colon : Wire.contains ":" n = false)
    by (apply (contains_none _ Wire.int_char);
        [reflexivity|apply int_chars_String_of_int]).
  assert (Hflag : Wire.contains Wire.LF flag = false
                  /\ Wire.contains ":" flag = false)
    by (subst flag; destruct (isRecording d); split; reflexivity).
  destruct Hflag as [Hf_lf Hf_colon].
  exists [("STATUS:" ++ rest) ++ String Wire.CR ""].
  split; [reflexivity|split].
  - apply readline_println. subst rest.
    rewrite !contains_app, Hf_lf, Hlf, Hn_lf. reflexivity.
  - cbn [on_lines]. unfold on_data.
    assert (El : Text.trim (("STATUS:" ++ rest) ++ String Wire.CR "")
                 = "STATUS:" ++ rest).
    { unfold Text.trim.
      change (Text.trim_start (("STATUS:" ++ rest) ++ String Wire.CR ""))
        with (("STATUS:" ++ rest) ++ String Wire.CR "").
      subst rest. rewrite !append_assoc.
      replace ("STATUS:" ++ flag ++ ":" ++ Firmware.sessionId d ++ ":" ++ n
                 ++ String Wire.CR "")
        with (("STATUS:" ++ flag ++ ":" ++ Firmware.sessionId d ++ ":")
                ++ (n ++ String Wire.CR ""))
        by (now rewrite !append_assoc).
      rewrite trim_end_app. unfold Wire.CR.
      rewrite (trim_end_cr n) by apply no_space_String_of_int.
      pose proof (String_of_int_nonempty (Firmware.exerciseType d)) as Hne.
      fold n in Hne. destruct n; [now elim Hne|].
      now rewrite !append_assoc. }
    rewrite El. unfold handleArduinoData, classify.
    assert (Text.startsWith ("STATUS:" ++ rest) "KNEE_DATA:" = false)
      as -> by reflexivity.
    assert (Text.startsWith ("STATUS:" ++ rest) "SESSION_STARTED:" = false)
      as -> by reflexivity.
    assert (String.eqb ("STATUS:" ++ rest) "SESSION_STOPPED" = false)
      as -> by reflexivity.
    assert (String.eqb ("STATUS:" ++ rest) "CALIBRATION_COMPLETE" = false)
      as -> by reflexivity.
    assert (String.eqb ("STATUS:" ++ rest) "SYSTEM_READY" = false)
      as -> by reflexivity.
    rewrite startsWith_app, replace_first_prefix by discriminate.
    assert (Es : Text.split ":" rest = [flag; Firmware.sessionId d; n]).
    { subst rest.
      change (flag ++ ":" ++ Firmware.sessionId d ++ ":" ++ n)
        with (flag ++ String ":" (Firmware.sessionId d ++ String ":" n)).
      rewrite (split_first ":" flag) by exact Hf_colon.
      rewrite (split_first ":" (Firmware.sessionId d)) by exact Hcolon.
      now rewrite (split_none ":" n) by exact Hn_colon. }
    rewrite Es. cbn [nth nth_error try_catch].
    assert (Ef : String.eqb flag "RECORDING" = isRecording d)
      by (subst flag; now destruct (isRecording d)).
    now rewrite Ef.
Qed.

End StatusFacts.

(** ** The connection state, its events and the port registry *)

Section ConnectionStateFacts.
Import SerialService CommandRoutes.

Lemma consistent_port (st : State) :
  consistent st -> isConnected st = true ->
  exists h, port st = Some h /\ live st = [h].
Proof.
  unfold consistent. intros H Hc. rewrite Hc in H.
  destruct (port st) as [h|]; [now exists h|contradiction].
Qed.

Lemma consistent_closed (st : State) :
  consistent st -> isConnected st = false -> live st = [].
Proof. unfold consistent. intros H Hc. now rewrite Hc in H. Qed.

(** What [disconnect] does to a consistent service. *)
Lemma disconnect_effect (st : State) :
  consistent st ->
  let st' := disconnect st in
  isConnected st' = false /\ currentPortPath st' = None
  /\ serialPorts st' = serialPorts st
  /\ emitted st' = (emitted st
                    ++ if isConnected st then [Disconnected] else [])%list.
Proof.
  intros H. unfold disconnect.
  destruct (isConnected st) eqn:Ec.
  - destruct (consistent_port st H Ec) as [h [Hp Hl]]. rewrite Hp.
    rewrite (isOpen_single h st Hl). cbn. auto.
  - pose proof (consistent_closed st H Ec) as Hl.
    destruct (port st) as [h|]; [rewrite (isOpen_none h st Hl)|];
      cbn; rewrite app_nil_r; auto.
Qed.

Lemma connect_begin_effect (st : State) :
  consistent st ->
  let st1 := fst (connect_begin st) in
  isConnected st1 = false
  /\ serialPorts st1 = serialPorts st
  /\ emitted st1 = (emitted st
                    ++ if isConnected st then [Disconnected] else [])%list.
Proof.
  intros H. unfold connect_begin. cbn [fst isConnected serialPorts emitted].
  destruct (isConnected st) eqn:Ec.
  - destruct (disconnect_effect st H) as [H1 [_ [H3 H4]]].
    rewrite Ec in H4. auto.
  - rewrite app_nil_r. auto.
Qed.

Lemma count_app (f : Event -> bool) (a b : list Event) :
  List.length (filter f (a ++ b))
  = (List.length (filter f a) + List.length (filter f b))%nat.
Proof. now rewrite filter_app, length_app. Qed.

(** The invariant behind X7, for one call. *)
Lemma call_connection_state (st : State) (c : Call) (lo : option string) :
  consistent st ->
  (List.length (filter is_connected_event (emitted st))
   = List.length (filter is_disconnected_event (emitted st))
     + if isConnected st then 1 else 0)%nat ->
  currentPortPath st = (if isConnected st then lo else None) ->
  (isConnected st = true -> lo <> None) ->
  let st' := call st c in
  let lo' := match c with Connect p true => Some p | _ => lo end in
  (List.length (filter is_connected_event (emitted st'))
   = List.length (filter is_disconnected_event (emitted st'))
     + if isConnected st' then 1 else 0)%nat
  /\ currentPortPath st' = (if isConnected st' then lo' else None)
  /\ (isConnected st' = true -> lo' <> None).
Proof.
  intros H Hn Hp Hlo.
  destruct c as [portPath [|]| | |]; cbn [call].
  - destruct (connect_begin_effect st H) as [H1 [_ H3]].
    destruct (connect_begin st) as [st1 h]. cbn [fst] in *.
    cbn [on_open emitted isConnected currentPortPath].
    rewrite !count_app, H3, !count_app. cbn [filter is_connected_event
      is_disconnected_event List.length].
    split; [|split; [reflexivity|discriminate]].
    destruct (isConnected st); cbn [filter is_connected_event
      is_disconnected_event List.length]; lia.
  - destruct (connect_begin_effect st H) as [H1 [_ H3]].
    assert (Hcp : currentPortPath (fst (connect_begin st)) = None).
    { unfold connect_begin. cbn [fst currentPortPath].
      destruct (isConnected st) eqn:Ec.
      - now destruct (disconnect_effect st H) as [_ [H2 _]].
      - exact Hp. }
    destruct (connect_begin st) as [st1 h]. cbn [fst] in *.
    cbn [on_error emitted isConnected currentPortPath].
    rewrite !count_app, H3, !count_app, H1. cbn [filter is_connected_event
      is_disconnected_event List.length].
    split; [|split; [exact Hcp|discriminate]].
    destruct (isConnected st); cbn [filter is_connected_event
      is_disconnected_event List.length]; lia.
  - destruct (disconnect_effect st H) as [H1 [H2 [_ H4]]].
    rewrite H1, H2, H4, !count_app.
    split; [|split; [reflexivity|discriminate]].
    destruct (isConnected st); cbn [filter is_connected_event
      is_disconnected_event List.length]; lia.
  - destruct (port st) as [h|] eqn:Ep; [|auto].
    destruct (isOpen h st) eqn:Eo; [|auto].
    destruct (isConnected st) eqn:Ec.
    + cbn [on_close emitted isConnected currentPortPath].
      rewrite !count_app. cbn [filter is_connected_event
        is_disconnected_event List.length].
      split; [lia|split; [reflexivity|discriminate]].
    + rewrite (isOpen_none h st (consistent_closed st H Ec)) in Eo.
      discriminate.
  - destruct (port st) as [h|] eqn:Ep; [|auto].
    destruct (isOpen h st) eqn:Eo; [|auto].
    cbn [on_error emitted isConnected currentPortPath].
    rewrite !count_app. cbn [filter is_connected_event
      is_disconnected_event List.length].
    split; [lia|auto].
Qed.

Lemma run_connection_state (calls : list Call) :
  forall (st : State) (lo : option string),
    consistent st ->
    (List.length (filter is_connected_event (emitted st))
     = List.length (filter is_disconnected_event (emitted st))
       + if isConnected st then 1 else 0)%nat ->
    currentPortPath st = (if isConnected st then lo else None) ->
    (isConnected st = true -> lo <> None) ->
    let st' := fold_left call calls st in
    let lo' := fold_left (fun acc c => match c with
                                       | Connect p true => Some p
                                       | _ => acc
                                       end) calls lo in
    (List.length (filter is_connected_event (emitted st'))
     = List.length (filter is_disconnected_event (emitted st'))
       + if isConnected st' then 1 else 0)%nat
    /\ currentPortPath st' = (if isConnected st' then lo' else None)
    /\ (isConnected st' = true -> lo' <> None).
Proof.
  induction calls as [|c rest IH]; intros st lo H Hn Hp Hlo; [cbn; auto|].
  cbn [fold_left].
  destruct (call_connection_state st c lo H Hn Hp Hlo) as [A [B C]].
  apply IH; auto using call_consistent.
Qed.

(** X7: [connected] and [disconnected] events alternate, and the status
    the service reports agrees with them.  After any series of calls
    and link events, one more [connected] than [disconnected] has been
    emitted exactly when the service reports itself connected; it then
    reports the path of the last successful open, and no path
    otherwise. *)
Theorem connection_status_matches_events :
  forall (calls : list Call),
    let st := run calls in
    (List.length (filter is_connected_event (emitted st))
     = List.length (filter is_disconnected_event (emitted st))
       + if isConnected st then 1 else 0)%nat
    /\ getConnectionStatus st
       = (isConnected st, if isConnected st then last_opened calls else None)
    /\ (isConnected st = true -> last_opened calls <> None).
Proof.
  intros calls st.
  destruct (run_connection_state calls initial None consistent_initial
              eq_refl eq_refl ltac:(discriminate)) as [A [B C]].
  split; [exact A|split; [|exact C]].
  unfold getConnectionStatus. f_equal. exact B.
Qed.

End ConnectionStateFacts.

Section RegistryFacts.
Import SerialService CommandRoutes.
Local Open Scope string_scope.


Lemma createOrUpdate_paths (p : string) (rows : list SerialPortRow) :
  map sp_path (createOrUpdateSerialPort p rows)
  = if existsb (fun r => String.eqb (sp_path r) p) rows
    then map sp_path rows
    else (map sp_path rows ++ [p])%list.
Proof.
  induction rows as [|r rows IH]; [reflexivity|].
  cbn [createOrUpdateSerialPort existsb map].
  destruct (String.eqb (sp_path r) p) eqn:E; cbn [orb map sp_path];
    [reflexivity|].
  rewrite IH. now destruct (existsb _ rows).
Qed.

Lemma createOrUpdate_has (p : string) (rows : list SerialPortRow) :
  existsb (fun r => String.eqb (sp_path r) p) (createOrUpdateSerialPort p rows)
  = true.
Proof.
  induction rows as [|r rows IH]; cbn [createOrUpdateSerialPort existsb sp_path].
  - now rewrite String.eqb_refl.
  - destruct (String.eqb (sp_path r) p) eqn:E; cbn [existsb sp_path].
    + now rewrite E.
    + now rewrite E, IH.
Qed.

Lemma existsb_path_In (p : string) (rows : list SerialPortRow) :
  existsb (fun r => String.eqb (sp_path r) p) rows = true ->
  In p (map sp_path rows).
Proof.
  induction rows as [|r rows IH]; cbn [existsb map]; [discriminate|].
  intros H. apply orb_prop in H as [H|H].
  - left. now apply String.eqb_eq.
  - right. now apply IH.
Qed.

Lemma existsb_path_not_In (p : string) (rows : list SerialPortRow) :
  existsb (fun r => String.eqb (sp_path r) p) rows = false ->
  ~ In p (map sp_path rows).
Proof.
  induction rows as [|r rows IH]; cbn [existsb map]; [auto|].
  intros H. apply orb_false_elim in H as [H1 H2]. intros [E|HIn].
  - apply String.eqb_neq in H1. contradiction.
  - now apply IH.
Qed.

Lemma activate_first_paths (p : string) (rows : list SerialPortRow) :
  map sp_path (activate_first p rows) = map sp_path rows.
Proof.
  induction rows as [|r rows IH]; [reflexivity|].
  cbn [activate_first]. destruct (String.eqb (sp_path r) p);
    cbn [map sp_path]; [reflexivity|now rewrite IH].
Qed.

Lemma activate_first_active (p : string) (rows : list SerialPortRow) :
  existsb (fun r => String.eqb (sp_path r) p) rows = true ->
  forallb (fun r => negb (sp_isActive r)) rows = true ->
  map sp_path (filter sp_isActive (activate_first p rows)) = [p].
Proof.
  induction rows as [|r rows IH]; cbn [existsb forallb]; [discriminate|].
  intros He Hf. apply andb_prop in Hf as [Hr Hrest].
  cbn [activate_first]. destruct (String.eqb (sp_path r) p) eqn:E.
  - cbn [filter sp_isActive map sp_path]. apply String.eqb_eq in E.
    rewrite E. f_equal.
    assert (Hn : filter sp_isActive rows = []).
    { clear -Hrest. induction rows as [|x rows IH]; [reflexivity|].
      cbn [forallb] in Hrest. apply andb_prop in Hrest as [Hx Hr].
      cbn [filter]. apply negb_true_iff in Hx. rewrite Hx. now apply IH. }
    now rewrite Hn.
  - cbn [orb] in He. cbn [filter]. apply negb_true_iff in Hr. rewrite Hr.
    now apply IH.
Qed.

(** What a successful open makes of the registry. *)
Lemma registry_after_open (p : string) (rows : list SerialPortRow) :
  NoDup (map sp_path rows) ->
  let rows' := setActiveSerialPort p (createOrUpdateSerialPort p rows) in
  NoDup (map sp_path rows')
  /\ map sp_path (filter sp_isActive rows') = [p].
Proof.
  intros Hnd. unfold setActiveSerialPort. split.
  - rewrite activate_first_paths, map_map. cbn [sp_path].
    change (map (fun x => sp_path x) (createOrUpdateSerialPort p rows))
      with (map sp_path (createOrUpdateSerialPort p rows)).
    rewrite createOrUpdate_paths.
    destruct (existsb _ rows) eqn:E; [exact Hnd|].
    apply NoDup_app; [exact Hnd|repeat constructor; auto|].
    intros x Hx [<-|[]]. now apply (existsb_path_not_In _ _ E).
  - apply activate_first_active.
    + pose proof (createOrUpdate_has p rows) as E.
      induction (createOrUpdateSerialPort p rows) as [|r l IH];
        [discriminate|].
      cbn [map existsb sp_path] in *.
      destruct (String.eqb (sp_path r) p); [reflexivity|now apply IH].
    + induction (createOrUpdateSerialPort p rows) as [|r l IH];
        [reflexivity|exact IH].
Qed.

Lemma call_registry (st : State) (c : Call) (lo : option string) :
  consistent st ->
  NoDup (map sp_path (serialPorts st)) ->
  map sp_path (filter sp_isActive (serialPorts st))
  = match lo with Some p => [p] | None => [] end ->
  let st' := call st c in
  let lo' := match c with Connect p true => Some p | _ => lo end in
  NoDup (map sp_path (serialPorts st'))
  /\ map sp_path (filter sp_isActive (serialPorts st'))
     = match lo' with Some p => [p] | None => [] end.
Proof.
  intros H Hnd Ha.
  destruct c as [portPath [|]| | |]; cbn [call].
  - destruct (connect_begin_effect st H) as [_ [H2 _]].
    destruct (connect_begin st) as [st1 h]. cbn [fst] in *.
    cbn [on_open serialPorts]. rewrite H2.
    now apply registry_after_open.
  - destruct (connect_begin_effect st H) as [_ [H2 _]].
    destruct (connect_begin st) as [st1 h]. cbn [fst] in *.
    cbn [on_error serialPorts]. rewrite H2. auto.
  - destruct (disconnect_effect st H) as [_ [_ [H3 _]]]. rewrite H3. auto.
  - destruct (port st) as [h|]; [|auto]. destruct (isOpen h st); auto.
  - destruct (port st) as [h|]; [|auto]. destruct (isOpen h st); auto.
Qed.

Lemma run_registry (calls : list Call) :
  forall (st : State) (lo : option string),
    consistent st ->
    NoDup (map sp_path (serialPorts st)) ->
    map sp_path (filter sp_isActive (serialPorts st))
    = match lo with Some p => [p] | None => [] end ->
    let st' := fold_left call calls st in
    let lo' := fold_left (fun acc c => match c with
                                       | Connect p true => Some p
                                       | _ => acc
                                       end) calls lo in
    NoDup (map sp_path (serialPorts st'))
    /\ map sp_path (filter sp_isActive (serialPorts st'))
       = match lo' with Some p => [p] | None => [] end.
Proof.
  induction calls as [|c rest IH]; intros st lo H Hnd Ha; [cbn; auto|].
  cbn [fold_left].
  destruct (call_registry st c lo H Hnd Ha) as [A B].
  apply IH; auto using call_consistent.
Qed.

(** X8: the port registry kept by the serial service lists every path
    once, and marks as active the port of the last successful open and
    no other: nothing when none was opened yet, and still that port
    after the link was closed or lost. *)
Theorem registry_marks_last_opened_port :
  forall (calls : list Call),
    let rows := serialPorts (run calls) in
    NoDup (map sp_path rows)
    /\ map sp_path (filter sp_isActive rows)
       = match last_opened calls with Some p => [p] | None => [] end.
Proof.
  intros calls.
  apply (run_registry calls initial None consistent_initial);
    [constructor|reflexivity].
Qed.

End RegistryFacts.

(** ** The command routes *)

Section CommandRouteFacts.
Import SerialService CommandRoutes.
Local Open Scope string_scope.




End CommandRouteFacts.

(** ** Fan-out of telemetry to the browser *)

Section FanOutFacts.
Import SerialService N8nService Forwarding.



End FanOutFacts.

(** ** The page: session fields, statistics and the live chart *)

Section PageFacts.
Import Dashboard Page.
Local Open Scope Q_scope.

Lemma step_session_fields (st : State) (i : Input) :
  (currentSessionId st = None <-> sessionStartTime st = None) ->
  (sessionStartTime st = None <-> sessionStats st = None) ->
  (currentSessionId (step st i) = None <-> sessionStartTime (step st i) = None)
  /\ (sessionStartTime (step st i) = None <-> sessionStats (step st i) = None).
Proof.
  intros H1 H2.
  destruct i as [now [a n| | |data|id| | |]|[|]|now id|];
    cbn [step on_message handleConnectionChange handleSessionStart
         handleSessionStop currentSessionId sessionStartTime sessionStats];
    try (split; [exact H1|exact H2]);
    try (split; split; intros; (reflexivity || discriminate)).
  split; [exact H1|]. unfold updateSessionStats.
  destruct (sessionStartTime st) as [start|]; [|exact H2].
  destruct (start =? 0)%Z; [exact H2|].
  destruct (sessionStats st); [|exact H2].
  split; intros; discriminate.
Qed.

(** X11: the page's three session fields are set and cleared together.
    Whatever messages arrive and whatever handlers run, the current
    session id, the session start time and the session statistics are
    either all present or all absent. *)
Theorem session_fields_move_together :
  forall (inputs : list Input),
    let st := run inputs in
    (currentSessionId st = None <-> sessionStartTime st = None)
    /\ (sessionStartTime st = None <-> sessionStats st = None).
Proof.
  intros inputs. unfold run.
  assert (H0 : (currentSessionId initial = None
                <-> sessionStartTime initial = None)
               /\ (sessionStartTime initial = None
                   <-> sessionStats initial = None))
    by (split; split; reflexivity).
  revert H0. generalize initial.
  induction inputs as [|i rest IH]; intros st [H1 H2]; [now split|].
  cbn [fold_left]. apply IH. now apply step_session_fields.
Qed.




End PageFacts.

Section ChartFacts.
Import Page.
Context {A : Type}.

Lemma slice_last_length (n : nat) (l : list A) :
  (0 < n)%nat -> List.length (slice_last n l) = Nat.min n (List.length l).
Proof.
  intros Hn. unfold slice_last. destruct n as [|n]; [lia|].
  rewrite length_skipn. lia.
Qed.

(** Cutting twice is cutting once. *)
Lemma slice_last_push (n : nat) (l : list A) (x : A) :
  slice_last n (slice_last n l ++ [x]) = slice_last n (l ++ [x]).
Proof.
  unfold slice_last. destruct n as [|n]; [reflexivity|].
  rewrite !length_app, length_skipn. cbn [List.length].
  rewrite !skipn_app, skipn_skipn, length_skipn.
  destruct (Nat.le_gt_cases (S n) (List.length l)) as [Hle|Hgt].
  - replace (List.length l - (List.length l - S n) + 1 - S n
             + (List.length l - S n))%nat
      with (List.length l + 1 - S n)%nat by lia.
    replace (List.length l - (List.length l - S n) + 1 - S n
             - (List.length l - (List.length l - S n)))%nat
      with (List.length l + 1 - S n - List.length l)%nat by lia.
    reflexivity.
  - replace (List.length l - (List.length l - S n) + 1 - S n
             + (List.length l - S n))%nat
      with (List.length l + 1 - S n)%nat by lia.
    replace (List.length l - (List.length l - S n) + 1 - S n
             - (List.length l - (List.length l - S n)))%nat
      with (List.length l + 1 - S n - List.length l)%nat by lia.
    reflexivity.
Qed.

Lemma history_from (updates : list (option A)) :
  forall seen : list A,
    fold_left on_latestData updates (slice_last maxDataPoints seen)
    = slice_last maxDataPoints (seen ++ points updates).
Proof.
  induction updates as [|u rest IH]; intros seen.
  - cbn. now rewrite app_nil_r.
  - cbn [fold_left points flat_map]. destruct u as [x|]; cbn [on_latestData].
    + rewrite slice_last_push, IH, <- app_assoc. reflexivity.
    + apply IH.
Qed.

(** X13: the live chart shows the latest fifty frames.  After any
    series of updates of [latestData] the chart's history is the last
    [maxDataPoints] of the frames received, in the order they came;
    updates to [null] leave it alone. *)
Theorem chart_history_is_the_latest_frames :
  forall (updates : list (option A)),
    history updates = slice_last maxDataPoints (points updates)
    /\ List.length (history updates)
       = Nat.min maxDataPoints (List.length (points updates))
    /\ exists older, points updates = (older ++ history updates)%list.
Proof.
  intros updates.
  assert (E : history updates = slice_last maxDataPoints (points updates))
    by (exact (history_from updates [])).
  split; [exact E|]. rewrite E. split.
  - apply slice_last_length. unfold maxDataPoints. lia.
  - exists (firstn (List.length (points updates) - maxDataPoints)
                   (points updates)).
    unfold slice_last, maxDataPoints. now rewrite firstn_skipn.
Qed.

End ChartFacts.

(** ** Sensor registers *)

Section RegisterFacts.
Import Firmware.

Lemma byte_pair_value (hi lo : Z) :
  0 <= lo < 256 -> Z.lor (Z.shiftl hi 8) lo = 256 * hi + lo.
Proof.
  intros Hlo.
  assert (Hand : Z.land (Z.shiftl hi 8) lo = 0).
  { apply Z.bits_inj'. intros n Hn.
    rewrite Z.land_spec, Z.bits_0.
    destruct (Z.lt_ge_cases n 8) as [Hlt|Hge].
    - rewrite Z.shiftl_spec_low by exact Hlt. reflexivity.
    - assert (Hb : Z.testbit lo n = false).
      { destruct (Z.eq_dec lo 0) as [->|Hne]; [apply Z.bits_0|].
        apply Z.bits_above_log2; [lia|].
        apply Z.lt_le_trans with 8; [|exact Hge].
        apply Z.log2_lt_pow2; [lia|]. change (2 ^ 8) with 256. lia. }
      rewrite Hb. apply andb_false_r. }
  pose proof (Z.add_lor_land (Z.shiftl hi 8) lo) as E.
  rewrite Hand, Z.add_0_r in E. rewrite E, Z.shiftl_mul_pow2 by lia.
  change (2 ^ 8) with 256. lia.
Qed.

(** X14: a sensor register is decoded as a big-endian two's-complement
    16-bit value.  Two bytes give a value in the [int16_t] range, the
    high byte counting 256 and its top bit being the sign; and decoding
    the two bytes of any [int16_t] value gives the value back. *)
Theorem register_is_big_endian_int16 :
  forall (hi lo : Z),
    0 <= hi < 256 -> 0 <= lo < 256 ->
    word16 hi lo = (if hi <? 128 then 256 * hi + lo
                    else 256 * hi + lo - 65536)
    /\ - 32768 <= word16 hi lo <= 32767
    /\ (forall v, - 32768 <= v <= 32767 ->
          word16 ((v mod 65536) / 256) ((v mod 65536) mod 256) = v).
Proof.
  assert (Hw : forall hi lo, 0 <= hi < 256 -> 0 <= lo < 256 ->
             word16 hi lo = (if hi <? 128 then 256 * hi + lo
                             else 256 * hi + lo - 65536)).
  { intros hi lo Hhi Hlo. unfold word16. rewrite byte_pair_value by exact Hlo.
    unfold Text.wrap_signed. change (2 ^ (16 - 1)) with 32768.
    change (2 ^ 16) with 65536.
    destruct (hi <? 128) eqn:E.
    - apply Z.ltb_lt in E. rewrite Z.mod_small; lia.
    - apply Z.ltb_ge in E.
      replace (256 * hi + lo + 32768)
        with (256 * hi + lo - 32768 + 1 * 65536) by lia.
      rewrite Z.mod_add by lia. rewrite Z.mod_small; lia. }
  intros hi lo Hhi Hlo. split; [now apply Hw|split].
  - rewrite Hw by assumption. destruct (hi <? 128) eqn:E.
    + apply Z.ltb_lt in E. lia.
    + apply Z.ltb_ge in E. lia.
  - intros v Hv.
    pose proof (Z.mod_pos_bound v 65536 eq_refl) as Hm.
    set (u := v mod 65536) in *.
    assert (Hq : 0 <= u / 256 < 256)
      by (split; [apply Z.div_pos; lia|apply Z.div_lt_upper_bound; lia]).
    pose proof (Z.mod_pos_bound u 256 eq_refl) as Hr.
    rewrite Hw by assumption.
    pose proof (Z.div_mod u 256 ltac:(lia)) as Hu.
    assert (Huv : u = v \/ u = v + 65536).
    { subst u. destruct (Z_lt_le_dec v 0) as [Hneg|Hpos].
      - right. replace v with (v + 65536 + (-1) * 65536) at 1 by lia.
        rewrite Z.mod_add by lia. apply Z.mod_small. lia.
      - left. apply Z.mod_small. lia. }
    destruct (u / 256 <? 128) eqn:E.
    + apply Z.ltb_lt in E. lia.
    + apply Z.ltb_ge in E. lia.
Qed.

End RegisterFacts.

(** ** The in-memory storage *)

Section MapFacts.
Import MemStorage.
Context {V : Type}.

Lemma map_get_set_same (k : string) (v : V) (m : list (string * V)) :
  map_get k (map_set k v m) = Some v.
Proof.
  induction m as [|[k' v'] m IH]; cbn [map_set map_get].
  - now rewrite String.eqb_refl.
  - destruct (String.eqb k' k) eqn:E; cbn [map_get].
    + now rewrite String.eqb_refl.
    + now rewrite E.
Qed.

Lemma map_get_set_other (k k0 : string) (v : V) (m : list (string * V)) :
  k0 <> k -> map_get k0 (map_set k v m) = map_get k0 m.
Proof.
  intros Hne. induction m as [|[k' v'] m IH]; cbn [map_set map_get].
  - apply String.eqb_neq in Hne. rewrite String.eqb_sym. now rewrite Hne.
  - destruct (String.eqb k' k) eqn:E; cbn [map_get].
    + apply String.eqb_eq in E. subst k'.
      assert (String.eqb k k0 = false) as ->
        by (apply String.eqb_neq; congruence).
      reflexivity.
    + now rewrite IH.
Qed.

Lemma map_keys_set_present (k : string) (v v0 : V) (m : list (string * V)) :
  map_get k m = Some v0 -> map_keys (map_set k v m) = map_keys m.
Proof.
  induction m as [|[k' v'] m IH]; cbn [map_set map_get]; [discriminate|].
  destruct (String.eqb k' k) eqn:E; cbn [map_keys map fst]; intros H.
  - apply String.eqb_eq in E. now subst.
  - f_equal. now apply IH.
Qed.

Lemma map_set_fresh (k : string) (v : V) (m : list (string * V)) :
  map_get k m = None -> map_set k v m = (m ++ [(k, v)])%list.
Proof.
  induction m as [|[k' v'] m IH]; cbn [map_set map_get]; [reflexivity|].
  destruct (String.eqb k' k); [discriminate|].
  intros H. cbn [app]. now rewrite IH.
Qed.

End MapFacts.

Section SessionStoreFacts.
Import MemStorage.

(** X15: a created session can be looked up, and creating it disturbs
    no other.  The session returned by [createSession] is the one
    [getSession] finds under the new id; it carries that id, the given
    session id and exercise type; and every other id is answered as
    before. *)
Theorem created_session_is_found :
  forall (session : InsertSession) (newId : string) (now now' : Z)
         (sessions : Sessions),
    let r := createSession session newId now now' sessions in
    getSession newId (snd r) = Some (fst r)
    /\ id (fst r) = newId
    /\ sessionId (fst r) = ins_sessionId session
    /\ exerciseType (fst r) = ins_exerciseType session
    /\ (forall key, key <> newId ->
          getSession key (snd r) = getSession key sessions).
Proof.
  intros session newId now now' sessions r. subst r.
  unfold createSession, getSession. cbn [fst snd id sessionId exerciseType].
  split; [apply map_get_set_same|].
  repeat split. intros key Hne. now apply map_get_set_other.
Qed.

Lemma or_null_truthy (x : option Schema.number) :
  match or_null x with Some v => truthy v = true | None => True end.
Proof.
  destruct x as [v|]; cbn [or_null]; [|exact I].
  destruct (truthy v) eqn:E; [exact E|exact I].
Qed.

(** X16: the defaults of a created session.  A session is active
    unless created inactive; it starts at the given time or else now;
    its reading count is never NaN, a missing, zero or NaN count being
    stored as 0; and a maximum, average or quality score that is
    missing, zero or NaN is stored as [null]: no stored statistic is
    ever 0. *)
Theorem created_session_defaults :
  forall (session : InsertSession) (newId : string) (now now' : Z)
         (sessions : Sessions),
    let s := fst (createSession session newId now now' sessions) in
    isActive s = match ins_isActive session with Some b => b | None => true end
    /\ startTime s
       = match ins_startTime session with Some d => d | None => Some now end
    /\ createdAt s = Some now'
    /\ readingCount s <> S754_nan
    /\ (truthy (readingCount s) = false -> readingCount s = Schema.num_of_Z 0)
    /\ Forall (fun x => match x with
                        | Some v => truthy v = true
                        | None => True
                        end)
              [maxAngle s; avgAngle s; qualityScore s].
Proof.
  intros session newId now now' sessions s. subst s.
  cbn [createSession fst isActive startTime createdAt readingCount maxAngle
       avgAngle qualityScore].
  split; [reflexivity|split; [reflexivity|split; [reflexivity|]]].
  split; [|split].
  - destruct (ins_readingCount session) as [[| | |]|]; cbn; discriminate.
  - destruct (ins_readingCount session) as [[| | |]|]; cbn;
      try reflexivity; discriminate.
  - repeat constructor; apply or_null_truthy.
Qed.

(** X17: [updateSession] touches one session and only if it exists.
    For an id that is not stored it returns nothing and the store is
    unchanged.  Otherwise the result is the stored session with the
    given fields replaced; that is what [getSession] then finds under
    the id; the stored ids and their order stay the same and every
    other session is untouched; and an update without fields changes
    nothing in the session. *)
Theorem update_session_changes_one_session :
  forall (key : string) (updates : PartialSession) (sessions : Sessions),
    let r := updateSession key updates sessions in
    match getSession key sessions with
    | None => r = (None, sessions)
    | Some old =>
        fst r = Some (merge old updates)
        /\ getSession key (snd r) = Some (merge old updates)
        /\ map_keys (snd r) = map_keys sessions
        /\ (forall key', key' <> key ->
              getSession key' (snd r) = getSession key' sessions)
        /\ merge old {| upd_id := None; upd_sessionId := None;
                        upd_exerciseType := None; upd_startTime := None;
                        upd_endTime := None; upd_isActive := None;
                        upd_readingCount := None; upd_maxAngle := None;
                        upd_avgAngle := None; upd_qualityScore := None;
                        upd_createdAt := None |} = old
    end.
Proof.
  intros key updates sessions r. subst r. unfold updateSession, getSession.
  destruct (map_get key sessions) as [old|] eqn:E; [|reflexivity].
  cbn [fst snd]. split; [reflexivity|].
  split; [apply map_get_set_same|].
  split; [now apply (map_keys_set_present key _ old)|].
  split; [intros key' Hne; now apply map_get_set_other|].
  now destruct old.
Qed.

Lemma find_app_first {A} (f : A -> bool) (l1 l2 : list A) :
  find f (l1 ++ l2) = match find f l1 with
                      | Some x => Some x
                      | None => find f l2
                      end.
Proof.
  induction l1 as [|a l1 IH]; cbn [app find]; [reflexivity|].
  destruct (f a); [reflexivity|exact IH].
Qed.

(** X18: among sessions that share a session id the first created
    wins.  After creating a session under a fresh storage id,
    [getSessionBySessionId] for its session id returns the session that
    already carried that session id, if there was one, and the new
    session only otherwise; other session ids are answered as before. *)
Theorem first_session_with_an_id_wins :
  forall (session : InsertSession) (newId : string) (now now' : Z)
         (sessions : Sessions),
    getSession newId sessions = None ->
    let r := createSession session newId now now' sessions in
    getSessionBySessionId (ins_sessionId session) (snd r)
    = match getSessionBySessionId (ins_sessionId session) sessions with
      | Some old => Some old
      | None => Some (fst r)
      end
    /\ (forall sid, sid <> ins_sessionId session ->
          getSessionBySessionId sid (snd r)
          = getSessionBySessionId sid sessions).
Proof.
  intros session newId now now' sessions Hfresh r. subst r.
  unfold createSession, getSessionBySessionId, getSession in *.
  cbn [fst snd]. rewrite (map_set_fresh _ _ _ Hfresh).
  unfold map_values. rewrite map_app. cbn [map snd].
  split.
  - rewrite find_app_first. cbn [find sessionId].
    now rewrite String.eqb_refl.
  - intros sid Hne. rewrite find_app_first. cbn [find sessionId].
    assert (String.eqb (ins_sessionId session) sid = false) as ->
      by (apply String.eqb_neq; congruence).
    now destruct (find _ _).
Qed.

End SessionStoreFacts.

Section SortFacts.
Import MemStorage.
Context {A : Type}.
Variable compareFn : A -> A -> option Z.

Lemma insert_sorted_perm (x : A) (l : list A) :
  Permutation (insert_sorted compareFn x l) (x :: l).
Proof.
  induction l as [|y l IH]; cbn [insert_sorted]; [apply Permutation_refl|].
  destruct (not_after compareFn x y); [apply Permutation_refl|].
  apply Permutation_trans with (y :: x :: l);
    [now apply perm_skip|apply perm_swap].
Qed.

(** Sorting rearranges and nothing else. *)
Lemma sort_perm (l : list A) : Permutation (sort compareFn l) l.
Proof.
  induction l as [|x l IH]; cbn [sort fold_right]; [apply perm_nil|].
  apply Permutation_trans with (x :: sort compareFn l);
    [apply insert_sorted_perm|now apply perm_skip].
Qed.

(** Where the comparator is the difference of a key, the result is in
    ascending order of the key. *)
Variable key : A -> Z.
Hypothesis compare_is_difference :
  forall x y, compareFn x y = Some (key x - key y).

Lemma insert_sorted_sorted (x : A) (l : list A) :
  StronglySorted (fun a b => key a <= key b) l ->
  StronglySorted (fun a b => key a <= key b) (insert_sorted compareFn x l).
Proof.
  induction l as [|y l IH]; intros Hs; cbn [insert_sorted].
  - repeat constructor.
  - inversion Hs as [|y' l' Hl Hy]; subst.
    unfold not_after. rewrite compare_is_difference.
    destruct (key x - key y <=? 0) eqn:E.
    + apply Z.leb_le in E. constructor; [exact Hs|].
      constructor; [lia|].
      apply Forall_forall. intros z Hz.
      apply (proj1 (Forall_forall _ _) Hy) in Hz. lia.
    + apply Z.leb_gt in E. constructor; [now apply IH|].
      apply Forall_forall. intros z Hz.
      apply (Permutation_in _ (insert_sorted_perm x l)) in Hz.
      destruct Hz as [<-|Hz]; [lia|].
      now apply (proj1 (Forall_forall _ _) Hy).
Qed.

Lemma sort_sorted (l : list A) :
  StronglySorted (fun a b => key a <= key b) (sort compareFn l).
Proof.
  induction l as [|x l IH]; cbn [sort fold_right]; [constructor|].
  now apply insert_sorted_sorted.
Qed.

End SortFacts.

Section ReadingStoreFacts.
Import MemStorage.

(** On readings with valid time stamps the comparator of
    [getSensorReadingsBySession] sorts as the difference of the time
    values does. *)
Lemma sort_valid_readings (l : list SensorReading) :
  forallb valid_timestamp l = true ->
  sort (fun a b => time_difference (reading_timestamp a) (reading_timestamp b)) l
  = sort (fun a b => Some (time_of a - time_of b)) l.
Proof.
  induction l as [|x l IH]; intros H; [reflexivity|].
  cbn [forallb] in H. apply andb_prop in H as [Hx Hl].
  cbn [sort fold_right]. fold (sort (fun a b => time_difference
    (reading_timestamp a) (reading_timestamp b)) l).
  fold (sort (fun a b => Some (time_of a - time_of b)) l).
  rewrite (IH Hl).
  assert (Hv : forallb valid_timestamp
                 (sort (fun a b => Some (time_of a - time_of b)) l) = true).
  { apply forallb_forall. intros z Hz.
    apply (Permutation_in _ (sort_perm _ l)) in Hz.
    now apply (proj1 (forallb_forall _ _) Hl). }
  revert Hv. generalize (sort (fun a b => Some (time_of a - time_of b)) l).
  intros s. induction s as [|y s IHs]; intros Hv; [reflexivity|].
  cbn [forallb] in Hv. apply andb_prop in Hv as [Hy Hs].
  cbn [insert_sorted]. unfold not_after.
  unfold valid_timestamp, time_of in *.
  destruct (reading_timestamp x) as [tx|]; [|discriminate].
  destruct (reading_timestamp y) as [ty|]; [|discriminate].
  cbn [time_difference or_else].
  destruct (tx - ty <=? 0); [reflexivity|]. f_equal. now apply IHs.
Qed.

(** X19: the readings of a session come back complete and in time
    order.  [getSensorReadingsBySession] returns exactly the stored
    readings that carry the session id, each as often as it is stored;
    and when their time stamps are valid dates, it returns them in
    ascending order of time. *)
Theorem session_readings_are_sorted_by_time :
  forall (sid : string) (readings : SensorReadings),
    let result := getSensorReadingsBySession sid readings in
    Permutation result
      (filter (fun r => String.eqb (reading_sessionId r) sid)
              (map_values readings))
    /\ (Forall (fun r => reading_sessionId r = sid ->
                         valid_timestamp r = true) (map_values readings) ->
        StronglySorted (fun a b => time_of a <= time_of b) result).
Proof.
  intros sid readings result. subst result.
  unfold getSensorReadingsBySession. split; [apply sort_perm|].
  intros Hv. rewrite sort_valid_readings.
  - now apply (sort_sorted _ time_of).
  - apply forallb_forall. intros r Hr. apply filter_In in Hr as [Hin Hs].
    apply String.eqb_eq in Hs.
    now apply (proj1 (Forall_forall _ _) Hv).
Qed.

(** X20: a stored frame is found under its own session, and under no
    other.  After [storeSensorReading] has created the reading of a
    frame under a fresh storage id, the readings of the frame's session
    contain it, with the frame's joint angle and the date made from the
    frame's time stamp; they are one more than before; and the readings
    of every other session are returned as before. *)
Theorem stored_frame_is_found_under_its_session :
  forall (data : Schema.ArduinoData) (newId : string) (now now' : Z)
         (readings : SensorReadings),
    map_get newId readings = None ->
    let r := createSensorReading (reading_of_frame data) newId now now'
                                 readings in
    In (fst r) (getSensorReadingsBySession (Schema.sessionId data) (snd r))
    /\ reading_kneeAngle (fst r) = Schema.kneeAngle data
    /\ reading_timestamp (fst r) = Date_of_number (Schema.timestamp data)
    /\ List.length (getSensorReadingsBySession (Schema.sessionId data) (snd r))
       = S (List.length
              (getSensorReadingsBySession (Schema.sessionId data) readings))
    /\ (forall sid, sid <> Schema.sessionId data ->
          getSensorReadingsBySession sid (snd r)
          = getSensorReadingsBySession sid readings).
Proof.
  intros data newId now now' readings Hfresh r. subst r.
  unfold createSensorReading. cbn [fst snd reading_kneeAngle reading_timestamp
    reading_of_frame ins_reading_kneeAngle ins_reading_timestamp or_else
    ins_reading_sessionId].
  rewrite (map_set_fresh _ _ _ Hfresh).
  unfold getSensorReadingsBySession, map_values.
  rewrite map_app, !filter_app. cbn [map snd filter reading_sessionId].
  rewrite String.eqb_refl.
  split; [|split; [reflexivity|split; [reflexivity|split]]].
  - apply (Permutation_in _ (Permutation_sym (sort_perm _ _))).
    apply in_or_app. right. now left.
  - rewrite (Permutation_length (sort_perm _ _)).
    rewrite (Permutation_length (sort_perm _ _)).
    rewrite length_app. cbn [List.length]. lia.
  - intros sid Hne. rewrite filter_app. cbn [filter reading_sessionId].
    assert (String.eqb (Schema.sessionId data) sid = false) as ->
      by (apply String.eqb_neq; congruence).
    now rewrite app_nil_r.
Qed.

End ReadingStoreFacts.

(** ** The two storage objects of the server *)

Section ServerFacts.
Import Schema SerialService MemStorage Server.
Variable JSON_parse : string -> option json.
Variable parseInt : option string -> number.
Variable localeCompare : string -> string -> Z.









End ServerFacts.

(** ** Exercise modes that the host does not accept *)

Section IntegerNumbers.
Import Schema Modes.

Lemma digits2_pos_iter_xO (k p : positive) :
  digits2_pos (Pos.iter xO p k) = (digits2_pos p + k)%positive.
Proof.
  induction k as [|k IH] using Pos.peano_ind.
  - cbn. now rewrite Pos.add_1_r.
  - rewrite Pos.iter_succ. cbn [digits2_pos]. rewrite IH.
    now rewrite Pos.add_succ_r.
Qed.

(** A small integer is represented exactly: its digits are shifted to
    the top of the 53-bit mantissa. *)
Lemma binary_round_small (s : bool) (p : positive) :
  Zpos (digits2_pos p) < 53 ->
  binary_round 53 1024 s p 0
  = S754_finite s (Pos.iter xO p (Z.to_pos (53 - Zpos (digits2_pos p))))
                (Zpos (digits2_pos p) - 53).
Proof.
  intros Hd. set (d := digits2_pos p) in *.
  set (q := Z.to_pos (53 - Zpos d)).
  assert (Hq : Zpos q = 53 - Zpos d) by (subst q; rewrite Z2Pos.id; lia).
  assert (E1 : fexp 53 1024 (Zpos d + 0) = Zpos d - 53)
    by (unfold fexp, emin; lia).
  assert (E2 : Zpos d - 53 - 0 = Zneg q)
    by (rewrite <- Pos2Z.opp_pos, Hq; lia).
  unfold binary_round. fold d. rewrite E1. unfold shl_align. rewrite E2.
  cbv iota beta.
  assert (E3 : fexp 53 1024 (Zpos (d + q) + (Zpos d - 53)) - (Zpos d - 53) = 0)
    by (unfold fexp, emin; rewrite Pos2Z.inj_add, Hq; lia).
  unfold binary_round_aux, shr_fexp. cbn [Zdigits2].
  rewrite digits2_pos_iter_xO. fold d. rewrite E3.
  cbn [shr shr_record_of_loc round_nearest_even loc_of_shr_record shr_m
       Zdigits2].
  rewrite digits2_pos_iter_xO. fold d. rewrite E3.
  cbn [shr shr_record_of_loc shr_m].
  assert ((Zpos d - 53 <=? 1024 - 53) = true) as -> by (apply Z.leb_le; lia).
  reflexivity.
Qed.

Lemma small_digits (p : positive) :
  Zpos p < 2 ^ 52 -> Zpos (digits2_pos p) < 53.
Proof.
  intros Hp. pose proof (digits2_pos_bounds p) as [Hlo _].
  destruct (Z_lt_le_dec (Zpos (digits2_pos p)) 53) as [H|H]; [exact H|].
  pose proof (Z.pow_le_mono_r 2 52 (Zpos (digits2_pos p) - 1) ltac:(lia)
                              ltac:(lia)) as Hpow.
  lia.
Qed.

Lemma int16_below_2_52 (p : positive) : Zpos p <= 32768 -> Zpos p < 2 ^ 52.
Proof. intros H. change (2 ^ 52) with 4503599627370496. lia. Qed.

(** The date made from a small non-negative integer has that integer
    as its time value. *)
Lemma Date_of_small_integer (ms : Z) :
  0 <= ms < 2 ^ 32 ->
  MemStorage.Date_of_number (num_of_Z ms) = Some ms.
Proof.
  intros Hms. destruct ms as [|p|p]; [reflexivity| |lia].
  assert (Hp : Zpos p < 2 ^ 52).
  { apply Z.lt_trans with (2 ^ 32); [lia|]. reflexivity. }
  pose proof (small_digits p Hp) as Hd.
  unfold num_of_Z, binary_normalize. rewrite (binary_round_small false p Hd).
  set (d := digits2_pos p) in *.
  set (q := Z.to_pos (53 - Zpos d)).
  assert (Hq : Zpos q = 53 - Zpos d) by (subst q; rewrite Z2Pos.id; lia).
  cbn [MemStorage.Date_of_number].
  assert ((0 <=? Zpos d - 53) = false) as -> by (apply Z.leb_gt; lia).
  change (Pos.iter xO p q) with (shift_pos q p).
  rewrite shift_pos_correct, Z.pow_pos_fold.
  replace (- (Zpos d - 53)) with (Zpos q) by lia.
  rewrite Z.mul_comm, Z.div_mul by (apply Z.pow_nonzero; lia).
  assert ((Zpos p <=? 8640000000000000) = true) as ->
    by (apply Z.leb_le; change (2 ^ 32) with 4294967296 in Hms; lia).
  reflexivity.
Qed.

Lemma refused_negative (p : positive) :
  Zpos p <= 32768 -> refused (Zneg p) = true.
Proof.
  intros Hp. unfold refused, z_exerciseType, num_of_Z, binary_normalize.
  rewrite binary_round_small by now apply small_digits, int16_below_2_52.
  cbn [z_number]. change (binary_normalize 53 1024 0 0 false)
    with (S754_zero false).
  cbn [SFltb SFcompare negb]. now rewrite andb_false_r.
Qed.

Lemma refused_above_two (p : positive) :
  3 <= Zpos p <= 32767 -> refused (Zpos p) = true.
Proof.
  intros Hp.
  destruct (Z.eq_dec (Zpos p) 3) as [E|Hne].
  - injection E as ->. vm_compute. reflexivity.
  - assert (Hd : 3 <= Zpos (digits2_pos p)).
    { pose proof (digits2_pos_bounds p) as [_ Hhi].
      destruct (Z_lt_le_dec (Zpos (digits2_pos p)) 3) as [H|H]; [|exact H].
      pose proof (Z.pow_le_mono_r 2 (Zpos (digits2_pos p)) 2 ltac:(lia)
                                  ltac:(lia)) as Hpow.
      change (2 ^ 2) with 4 in Hpow. lia. }
    unfold refused, z_exerciseType, num_of_Z, binary_normalize.
    rewrite binary_round_small by (apply small_digits, int16_below_2_52; lia).
    cbn [z_number].
    change (binary_round 53 1024 false 2 0)
      with (S754_finite false 4503599627370496 (-51)).
    cbn [SFltb SFcompare].
    assert ((-51 ?= Zpos (digits2_pos p) - 53) = Lt) as ->
      by (apply Z.compare_lt_iff; lia).
    cbn [negb]. now rewrite andb_false_r.
Qed.

Lemma int16_modes_refused (t : Z) :
  - 32768 <= t <= 32767 -> ~ 0 <= t <= 2 -> refused t = true.
Proof.
  intros Ht Hout. destruct t as [|p|p].
  - lia.
  - apply refused_above_two. lia.
  - apply refused_negative. lia.
Qed.

End IntegerNumbers.

Section ModeFacts.
Import Binary32 Firmware Schema SerialService Modes.
Local Open Scope string_scope.
Variables c_sqrt c_atan : float -> float.
Variable c_pow : float -> float -> float.
Variables accReads gyroReads : nat -> Z * Z * Z.
Variable JSON_parse : string -> option json.
Variable parseInt : option string -> number.

Lemma trim_end_no_space (s : string) :
  Text.no_space s = true -> Text.trim_end s = s.
Proof.
  unfold Text.no_space. induction s as [|c s IH]; intros H; [reflexivity|].
  cbn [list_ascii_of_string forallb] in H. apply andb_prop in H as [Hc Hs].
  cbn [Text.trim_end]. rewrite (IH Hs). destruct s; [|reflexivity].
  apply negb_true_iff in Hc. now rewrite Hc.
Qed.

(** X23: an exercise mode outside 0..2 silences the telemetry on the
    host.  The set-exercise route passes any mode on; the device takes
    any [int], acknowledges it and stamps it on every frame it builds;
    but the host's schema accepts the modes 0, 1 and 2 only, so a frame
    whose payload carries such a mode ends as a [parseError] event, not
    as [kneeData]. *)
Theorem mode_outside_range_is_accepted_then_refused :
  forall (t : Z) (d : Device) (st : State) (h : nat)
         (payload : string) (fields : list (string * json)),
    (- 32768 <= t <= 32767)%Z -> ~ (0 <= t <= 2)%Z ->
    port st = Some h -> isConnected st = true ->
    JSON_parse payload = Some (JObj fields) ->
    get "exerciseType" fields = Some (JNum (num_of_Z t)) ->
    exists bytes,
      CommandRoutes.set_exercise st (Some (Text.String_of_int t)) false
      = ({| Routes.status := 200; Routes.message := "Exercise type set" |},
         Some bytes)
      /\ (let r := handleBluetoothCommand c_sqrt c_atan c_pow accReads gyroReads
                     (Text.trim bytes) d in
          Firmware.exerciseType (fst r) = t
          /\ snd r = ["EXERCISE_SET:" ++ Text.String_of_int t]
          /\ forall ms,
               doc_exerciseType (sendKneeAngleData (fst r) ms) = t)
      /\ handleArduinoData JSON_parse parseInt ("KNEE_DATA:" ++ payload)
         = Normal [Emit (ParseError ("KNEE_DATA:" ++ payload))].
Proof.
  intros t d st h payload fields Ht Hout Hp Hc Hjson Hget.
  exists ("SET_EXERCISE:" ++ Text.String_of_int t ++ String "010" "").
  split; [|split].
  - unfold CommandRoutes.set_exercise, CommandRoutes.answer, setExerciseType,
      sendCommand, sendCommand_begin. rewrite Hp, Hc. reflexivity.
  - assert (Et : Text.trim ("SET_EXERCISE:" ++ Text.String_of_int t
                              ++ String "010" "")
                 = "SET_EXERCISE:" ++ Text.String_of_int t).
    { unfold Text.trim.
      change (Text.trim_start ("SET_EXERCISE:" ++ Text.String_of_int t
                                 ++ String "010" ""))
        with ("SET_EXERCISE:" ++ Text.String_of_int t ++ String "010" "").
      rewrite (trim_end_prefix "SET_EXERCISE:") by reflexivity.
      rewrite trim_end_app.
      change (Text.trim_end (String "010" "")) with "". cbv iota.
      now rewrite trim_end_no_space by apply no_space_String_of_int. }
    rewrite Et, handle_SET_EXERCISE, toInt_String_of_int by exact Ht.
    cbn [fst snd set_exercise Firmware.exerciseType].
    repeat split.
  - assert (Hr : refused t = true) by now apply int16_modes_refused.
    unfold handleArduinoData, classify.
    rewrite startsWith_app, replace_first_prefix by discriminate.
    rewrite Hjson. unfold arduinoDataSchema_parse.
    unfold refused in Hr. rewrite Hget.
    destruct (z_exerciseType (Some (JNum (num_of_Z t)))); [discriminate|].
    destruct (z_string (get "sessionId" fields)); cbn [bind try_catch];
      [|reflexivity].
    destruct (z_number (get "timestamp" fields)); reflexivity.
Qed.

End ModeFacts.

(** ** A connect that fails *)

Section FailedConnectFacts.
Import SerialService CommandRoutes.
Local Open Scope string_scope.


End FailedConnectFacts.

(** ** The time stamp of a stored reading *)

Section TimeStampFacts.
Import MemStorage.

(** X25: a reading is dated by the device's clock, not by the host's.
    For a frame whose time stamp is the [millis()] counter that the
    device put into its document, the stored reading carries that
    counter as a date: so many milliseconds after the epoch, less than
    2^32 of them, whatever the time of arrival was. *)
Theorem stored_time_stamp_is_device_uptime :
  forall (d : Firmware.Device) (ms : Z) (data : Schema.ArduinoData)
         (newId : string) (now now' : Z) (readings : SensorReadings),
    Schema.timestamp data
    = Schema.num_of_Z
        (Firmware.doc_timestamp (Firmware.sendKneeAngleData d ms)) ->
    let r := fst (createSensorReading (reading_of_frame data) newId now now'
                                      readings) in
    reading_timestamp r = Some (ms mod 2 ^ 32)
    /\ valid_timestamp r = true
    /\ 0 <= time_of r < 2 ^ 32.
Proof.
  intros d ms data newId now now' readings Hts r. subst r.
  assert (Hr : 0 <= ms mod 2 ^ 32 < 2 ^ 32)
    by (apply Z.mod_pos_bound; reflexivity).
  assert (E : reading_timestamp
                (fst (createSensorReading (reading_of_frame data) newId now now'
                                          readings))
              = Some (ms mod 2 ^ 32)).
  { cbn [createSensorReading fst reading_timestamp reading_of_frame
         ins_reading_timestamp or_else].
    rewrite Hts. cbn [Firmware.sendKneeAngleData Firmware.doc_timestamp].
    now apply Date_of_small_integer. }
  unfold valid_timestamp, time_of. rewrite E. cbn [or_else]. auto.
Qed.

End TimeStampFacts.

(** ** Lines across chunks *)

Section ChunkFacts.
Local Open Scope string_scope.

Lemma split_nonempty (c : ascii) (s : string) : Text.split c s <> [].
Proof.
  destruct s as [|a s]; cbn [Text.split]; [discriminate|].
  destruct (Ascii.eqb a c); [discriminate|].
  destruct (Text.split c s); discriminate.
Qed.

(** Splitting a text that comes in two parts: the last piece of the
    first part is continued by the first piece of the second. *)
Lemma split_app (c : ascii) (a b : string) :
  Text.split c (a ++ b)
  = (removelast (Text.split c a)
     ++ match Text.split c b with
        | h :: t => (last (Text.split c a) "" ++ h)%string :: t
        | [] => []
        end)%list.
Proof.
  induction a as [|x a IH].
  - cbn [append Text.split removelast last app].
    pose proof (split_nonempty c b). now destruct (Text.split c b).
  - cbn [append Text.split]. destruct (Ascii.eqb x c).
    + rewrite IH. pose proof (split_nonempty c a) as Hne.
      destruct (Text.split c a) as [|h t]; [now elim Hne|]. reflexivity.
    + rewrite IH. pose proof (split_nonempty c a) as Hne.
      pose proof (split_nonempty c b) as Hnb.
      destruct (Text.split c a) as [|h t]; [now elim Hne|].
      destruct (Text.split c b) as [|h' t']; [now elim Hnb|].
      destruct t as [|h2 t2]; reflexivity.
Qed.

Lemma removelast_last_split (c : ascii) (s : string) :
  (removelast (Text.split c s) ++ [last (Text.split c s) ""])%list
  = Text.split c s.
Proof.
  symmetry. apply app_removelast_last. apply split_nonempty.
Qed.

Lemma last_app_nonempty {A} (l l' : list A) (d : A) :
  l' <> [] -> last (l ++ l') d = last l' d.
Proof.
  intros Hne. induction l as [|x l IH]; [reflexivity|].
  cbn [app last]. rewrite IH.
  destruct (l ++ l')%list eqn:E; [|reflexivity].
  apply app_eq_nil in E as [_ E]. contradiction.
Qed.

(** The piece after the last separator holds no separator. *)
Lemma last_split_clean (c : ascii) (s : string) :
  Wire.contains c (last (Text.split c s) "") = false.
Proof.
  induction s as [|x s IH]; [reflexivity|].
  pose proof (split_nonempty c s) as Hne.
  cbn [Text.split]. destruct (Ascii.eqb x c) eqn:E.
  - destruct (Text.split c s) as [|h t]; [now elim Hne|]. exact IH.
  - destruct (Text.split c s) as [|h t]; [now elim Hne|].
    destruct t as [|h2 t2]; cbn [last Wire.contains] in *.
    + now rewrite E.
    + exact IH.
Qed.

(** Feeding a text in two chunks gives the lines of feeding it at
    once. *)
Lemma readline_app (buffer a b : string) :
  Wire.readline buffer (a ++ b)
  = let '(lines, buffer') := Wire.readline buffer a in
    let '(lines', buffer'') := Wire.readline buffer' b in
    ((lines ++ lines')%list, buffer'').
Proof.
  unfold Wire.readline. rewrite <- append_assoc.
  rewrite (split_app Wire.LF (buffer ++ a) b).
  set (l := last (Text.split Wire.LF (buffer ++ a)) "").
  set (pre := removelast (Text.split Wire.LF (buffer ++ a))).
  rewrite (split_app Wire.LF l b).
  assert (Hl : Wire.contains Wire.LF l = false) by apply last_split_clean.
  rewrite (split_none _ _ Hl). cbn [removelast last app].
  pose proof (split_nonempty Wire.LF b) as Hnb.
  destruct (Text.split Wire.LF b) as [|h t]; [now elim Hnb|].
  rewrite removelast_app, last_app_nonempty by discriminate.
  reflexivity.
Qed.

Lemma feed_at_once (chunks : list string) :
  forall buffer,
    Wire.contains Wire.LF buffer = false ->
    Wire.feed buffer chunks
    = Wire.readline buffer (fold_right append "" chunks).
Proof.
  induction chunks as [|c rest IH]; intros buffer Hb.
  - cbn [Wire.feed fold_right]. unfold Wire.readline.
    now rewrite append_empty_r, (split_none _ _ Hb).
  - cbn [Wire.feed fold_right]. rewrite readline_app.
    assert (Hc : Wire.contains Wire.LF (snd (Wire.readline buffer c)) = false)
      by apply last_split_clean.
    destruct (Wire.readline buffer c) as [l1 b1]. cbn [snd] in Hc.
    now rewrite (IH b1 Hc).
Qed.

Lemma split_transmit (lines : list string) :
  forallb (fun l => negb (Wire.contains Wire.LF l)) lines = true ->
  Text.split Wire.LF (Wire.transmit lines)
  = (map (fun l => (l ++ String Wire.CR "")%string) lines ++ [""%string])%list.
Proof.
  induction lines as [|l rest IH]; intros H; [reflexivity|].
  cbn [forallb] in H. apply andb_prop in H as [Hl Hrest].
  apply negb_true_iff in Hl.
  cbn [Wire.transmit fold_right map app]. unfold Wire.println.
  change (l ++ String Wire.CR (String Wire.LF ""))
    with (l ++ (String Wire.CR "" ++ String Wire.LF "")).
  rewrite <- (append_assoc l), append_assoc.
  change (String Wire.LF "" ++ fold_right (fun l0 rest0 =>
            (l0 ++ String Wire.CR (String Wire.LF "")) ++ rest0) "" rest)
    with (String Wire.LF (Wire.transmit rest)).
  rewrite split_first by (rewrite contains_app, Hl; reflexivity).
  now rewrite (IH Hrest).
Qed.

Lemma trim_start_app (a b : string) :
  Text.trim_start (a ++ b)
  = match Text.trim_start a with
    | "" => Text.trim_start b
    | a' => a' ++ b
    end.
Proof.
  induction a as [|c a IH]; cbn [append Text.trim_start].
  - now destruct (Text.trim_start b).
  - destruct (Text.isspace c); [exact IH|reflexivity].
Qed.

(** The carriage return at the end of a line does not survive [trim]. *)
Lemma trim_carriage_return (l : string) :
  Text.trim (l ++ String Wire.CR "") = Text.trim l.
Proof.
  unfold Text.trim. rewrite trim_start_app.
  destruct (Text.trim_start l) as [|c r] eqn:E; [reflexivity|].
  rewrite trim_end_app. reflexivity.
Qed.

(** X26: what the device prints arrives line by line, however the
    bytes are cut.  When the lines the device prints hold no line feed
    of their own, the host's line parser, fed the printed bytes in any
    series of chunks, emits exactly one line per printed line, in
    order, and keeps nothing back; each is the printed line with its
    carriage return, which the [trim] of the ['data'] listener
    removes. *)
Theorem printed_lines_arrive_line_by_line :
  forall (lines chunks : list string),
    forallb (fun l => negb (Wire.contains Wire.LF l)) lines = true ->
    fold_right append "" chunks = Wire.transmit lines ->
    Wire.feed "" chunks
    = (map (fun l => l ++ String Wire.CR "") lines, "")
    /\ map Text.trim (fst (Wire.feed "" chunks)) = map Text.trim lines.
Proof.
  intros lines chunks Hl Hc.
  assert (E : Wire.feed "" chunks
              = (map (fun l => l ++ String Wire.CR "") lines, "")).
  { rewrite feed_at_once by reflexivity. rewrite Hc.
    unfold Wire.readline. cbn [append]. rewrite (split_transmit _ Hl).
    now rewrite removelast_last, last_last. }
  split; [exact E|]. rewrite E. cbn [fst]. rewrite map_map.
  apply map_ext. intros l. apply trim_carriage_return.
Qed.

End ChunkFacts.

(** ** Arguments that are not numbers *)

Section ArgumentFacts.
Import Binary32 Firmware.
Local Open Scope string_scope.
Variables c_sqrt c_atan : float -> float.
Variable c_pow : float -> float -> float.
Variables accReads gyroReads : nat -> Z * Z * Z.

Lemma digits_value_no_digit (c : ascii) (r : string) (acc : Z) :
  Text.isdigit c = false -> Text.digits_value (String c r) acc = acc.
Proof. intros H. cbn [Text.digits_value]. now rewrite H. Qed.

Lemma toInt_not_a_number (arg : string) :
  Wire.starts_number arg = false -> Text.toInt arg = 0%Z.
Proof.
  unfold Wire.starts_number, Text.toInt, Text.atol.
  destruct (Text.trim_start arg) as [|c r]; [reflexivity|].
  intros H. apply orb_false_elim in H as [H Hplus].
  apply orb_false_elim in H as [Hd Hminus].
  assert (E : match String c r with
              | String "-" r0 => Text.wrap_signed 32 (- Text.digits_value r0 0)
              | String "+" r0 => Text.wrap_signed 32 (Text.digits_value r0 0)
              | r0 => Text.wrap_signed 32 (Text.digits_value r0 0)
              end
              = Text.wrap_signed 32 (Text.digits_value (String c r) 0)).
  { destruct c as [[] [] [] [] [] [] [] []]; try reflexivity;
      discriminate. }
  rewrite E, (digits_value_no_digit c r 0 Hd). reflexivity.
Qed.

(** X27: an exercise type that is not a number selects mode 0.  When
    the argument of [SET_EXERCISE:] does not begin, after white space,
    with a digit or a sign (it may be empty), the device reads it as 0:
    it switches to mode 0 and acknowledges with [EXERCISE_SET:0]. *)
Theorem exercise_argument_without_number_selects_mode_0 :
  forall (arg : string) (d : Device),
    Wire.starts_number arg = false ->
    handleBluetoothCommand c_sqrt c_atan c_pow accReads gyroReads
      ("SET_EXERCISE:" ++ arg) d
    = (set_exercise d 0, ["EXERCISE_SET:0"]).
Proof.
  intros arg d H. rewrite handle_SET_EXERCISE.
  now rewrite (toInt_not_a_number arg H).
Qed.

End ArgumentFacts.

(** ** The properties above on concrete runs *)

Lemma no_telemetry_outside_a_session_witness :
  existsb DeviceRun.starts_session Scenarios.quiet_passes = false
  /\ DeviceRun.stops_session Scenarios.stop_pass = true
  /\ existsb DeviceRun.is_telemetry
       (DeviceRun.loop_outputs Samples.c_sqrt Samples.c_atan Samples.c_pow
          (Samples.device Samples.cal0 "s1" true)
          (Scenarios.stop_pass :: Scenarios.quiet_passes)) = false.
Proof.
  assert (H1 : existsb DeviceRun.starts_session Scenarios.quiet_passes = false)
    by (vm_compute; reflexivity).
  assert (H2 : DeviceRun.stops_session Scenarios.stop_pass = true)
    by (vm_compute; reflexivity).
  split; [exact H1|split; [exact H2|]].
  exact (proj2 (no_telemetry_outside_a_session
                  Samples.c_sqrt Samples.c_atan Samples.c_pow
                  Samples.still_acc Samples.still_gyro 0
                  (Samples.device Samples.cal0 "s1" true)
                  Scenarios.stop_pass Scenarios.quiet_passes H1) H2).
Defined.

Lemma telemetry_period_survives_rollover_witness :
  Firmware.previousMillis Scenarios.late_device = 4294967250
  /\ Firmware.now_loop Scenarios.late_pass = 4294967250 + 150
  /\ Firmware.previousMillis
       (fst (Firmware.loop Samples.c_sqrt Samples.c_atan Samples.c_pow
               Scenarios.late_device Scenarios.late_pass)) = 104.
Proof.
  split; [reflexivity|split; [reflexivity|]].
  assert (Hp : 0 <= Firmware.previousMillis Scenarios.late_device < 2 ^ 32)
    by (split; [apply Z.leb_le|apply Z.ltb_lt]; reflexivity).
  assert (He : 0 <= 150 < 2 ^ 32)
    by (split; [apply Z.leb_le|apply Z.ltb_lt]; reflexivity).
  destruct (proj2 (telemetry_period_survives_rollover
                     Samples.c_sqrt Samples.c_atan Samples.c_pow
                     Scenarios.late_device Scenarios.late_pass 150
                     Hp He eq_refl eq_refl eq_refl) ltac:(lia))
    as [doc [_ [_ [_ [_ [H _]]]]]].
  exact H.
Defined.


Lemma status_report_round_trip_witness :
  exists lines,
    Wire.readline ""
      (Wire.transmit
         (snd (Firmware.handleBluetoothCommand
                 Samples.c_sqrt Samples.c_atan Samples.c_pow
                 Samples.still_acc Samples.still_gyro "GET_STATUS"
                 (Samples.device Samples.cal0 "s1" true))))
    = (lines, ""%string)
    /\ SerialService.on_lines Samples.JSON_parse Samples.parseInt lines
       = SerialService.Normal
           [SerialService.Emit
              (SerialService.Status true "s1" (Schema.num_of_Z 0))].
Proof.
  destruct (status_report_round_trip
              Samples.c_sqrt Samples.c_atan Samples.c_pow
              Samples.still_acc Samples.still_gyro
              Samples.JSON_parse Samples.parseInt
              (Samples.device Samples.cal0 "s1" true) eq_refl eq_refl)
    as [lines [_ [H1 H2]]].
  exists lines. split; [exact H1|exact H2].
Defined.



Lemma register_is_big_endian_int16_witness :
  Firmware.word16 255 254 = -2
  /\ Firmware.word16 ((-300 mod 65536) / 256) ((-300 mod 65536) mod 256) = -300.
Proof.
  destruct (register_is_big_endian_int16 255 254 ltac:(lia) ltac:(lia))
    as [H1 [_ H3]].
  split; [exact H1|exact (H3 (-300) ltac:(lia))].
Defined.

Lemma first_session_with_an_id_wins_witness :
  MemStorage.getSession "id-2" Scenarios.one_session = None
  /\ option_map MemStorage.id
       (MemStorage.getSessionBySessionId "s1"
          (snd (MemStorage.createSession Scenarios.session_a "id-2" 2000 2000
                  Scenarios.one_session)))
     = Some "id-1"%string.
Proof.
  split; [reflexivity|].
  pose proof (proj1 (first_session_with_an_id_wins
                       Scenarios.session_a "id-2" 2000 2000
                       Scenarios.one_session eq_refl)) as H.
  change (MemStorage.ins_sessionId Scenarios.session_a) with "s1"%string in H.
  rewrite H. reflexivity.
Defined.

Lemma session_readings_are_sorted_by_time_witness :
  map MemStorage.time_of
      (MemStorage.map_values Scenarios.two_readings) = [1300; 1200]
  /\ StronglySorted (fun a b => MemStorage.time_of a <= MemStorage.time_of b)
       (MemStorage.getSensorReadingsBySession "s1" Scenarios.two_readings).
Proof.
  split; [vm_compute; reflexivity|].
  apply (proj2 (session_readings_are_sorted_by_time
                  "s1" Scenarios.two_readings)).
  repeat constructor.
Defined.

Lemma stored_frame_is_found_under_its_session_witness :
  MemStorage.map_get "r-3" Scenarios.two_readings = None
  /\ List.length
       (MemStorage.getSensorReadingsBySession "s1"
          (snd (MemStorage.createSensorReading
                  (MemStorage.reading_of_frame (Scenarios.frame_at 1250))
                  "r-3" 6000 6000 Scenarios.two_readings))) = 3%nat.
Proof.
  split; [reflexivity|].
  destruct (stored_frame_is_found_under_its_session
              (Scenarios.frame_at 1250) "r-3" 6000 6000
              Scenarios.two_readings eq_refl) as [_ [_ [_ [H _]]]].
  change (Schema.sessionId (Scenarios.frame_at 1250)) with "s1"%string in H.
  rewrite H. reflexivity.
Defined.



Lemma mode_outside_range_is_accepted_then_refused_witness :
  Firmware.exerciseType
    (fst (Firmware.handleBluetoothCommand
            Samples.c_sqrt Samples.c_atan Samples.c_pow
            Samples.still_acc Samples.still_gyro "SET_EXERCISE:5"
            (Samples.device Samples.cal0 "s1" true))) = 5
  /\ SerialService.handleArduinoData Scenarios.JSON_parse_mode5
       Samples.parseInt "KNEE_DATA:{}"
     = SerialService.Normal
         [SerialService.Emit (SerialService.ParseError "KNEE_DATA:{}")].
Proof.
  destruct (mode_outside_range_is_accepted_then_refused
              Samples.c_sqrt Samples.c_atan Samples.c_pow
              Samples.still_acc Samples.still_gyro
              Scenarios.JSON_parse_mode5 Samples.parseInt
              5 (Samples.device Samples.cal0 "s1" true)
              Samples.connected_service 0%nat "{}" _
              ltac:(lia) ltac:(lia) eq_refl eq_refl eq_refl eq_refl)
    as [bytes [H1 [[H2 _] H3]]].
  split; [|exact H3].
  injection H1 as <-. exact H2.
Defined.


Lemma stored_time_stamp_is_device_uptime_witness :
  MemStorage.reading_timestamp
    (fst (MemStorage.createSensorReading
            (MemStorage.reading_of_frame Samples.full_frame) "r-1"
            1700000000000 1700000000000 []))
  = Some 1300.
Proof.
  exact (proj1 (stored_time_stamp_is_device_uptime
                  (Samples.device Samples.cal0 "s1" true) 1300
                  Samples.full_frame "r-1" 1700000000000 1700000000000 []
                  eq_refl)).
Defined.

Lemma printed_lines_arrive_line_by_line_witness :
  fold_right append ""%string Scenarios.chunks
  = Wire.transmit Scenarios.printed
  /\ map Text.trim (fst (Wire.feed "" Scenarios.chunks))
     = ["SESSION_STARTED:s1"%string; "STATUS:IDLE::0"%string].
Proof.
  assert (H : fold_right append ""%string Scenarios.chunks
              = Wire.transmit Scenarios.printed) by reflexivity.
  split; [exact H|].
  exact (proj2 (printed_lines_arrive_line_by_line
                  Scenarios.printed Scenarios.chunks eq_refl H)).
Defined.

Lemma exercise_argument_without_number_selects_mode_0_witness :
  Firmware.exerciseType
    (fst (Firmware.handleBluetoothCommand
            Samples.c_sqrt Samples.c_atan Samples.c_pow
            Samples.still_acc Samples.still_gyro "SET_EXERCISE:null"
            (Scenarios.late_device))) = 0.
Proof.
  exact (f_equal (fun r => Firmware.exerciseType (fst r))
           (exercise_argument_without_number_selects_mode_0
              Samples.c_sqrt Samples.c_atan Samples.c_pow
              Samples.still_acc Samples.still_gyro
              "null" Scenarios.late_device eq_refl)).
Defined.
